(** * gtfa: the remote sync engine of [main.py]

    A shallow embedding of the GitHub content client, the local tree
    scanner, the single-commit batch upload, the recursive remote walker and
    the filesystem-watch handlers of [main.py], with the properties the
    design document states about them.

    Conventions of the embedding.
    - Decoded JSON ([r.json()], request payloads) is the type [json]; Python's
      [None] is [JNull].
    - A remote call goes through [api_request], which hands a [request] to the
      transport.  The transport is a parameter: a state type [St] and a
      function [serve] that answers a request with a response or with a
      raised exception, and moves to a new state.
    - Python exceptions are values of [exn]; code that can raise lives in the
      monad [M], which threads the remote state and a log of the remote calls
      and console messages issued so far.
    - A [pathlib.Path] is the list of its [parts]. *)

From Stdlib Require Import List String Ascii ZArith Bool Arith Lia.
From Stdlib Require Import DecimalString.
Import ListNotations.
Local Open Scope string_scope.
Local Open Scope list_scope.

Set Implicit Arguments.
Set Warnings "-register-all".

(** ** Python values *)

Inductive json : Type :=
| JNull
| JBool (b : bool)
| JNum (n : Z)
| JStr (s : string)
| JList (l : list json)
| JDict (d : list (string * json)).

Inductive exn : Type :=
| ConnectionError
| JSONDecodeError
| KeyError (k : string)
| TypeError
| AttributeError
| ValueError
| OSError
| RecursionError
| MarkupError.

Inductive result (A : Type) : Type :=
| Ret (a : A)
| Raise (e : exn).
Arguments Ret {A} a.
Arguments Raise {A} e.

(** [bool(x)] on a decoded JSON value. *)
Definition truthy (j : json) : bool :=
  match j with
  | JNull => false
  | JBool b => b
  | JNum n => negb (n =? 0)%Z
  | JStr s => negb (s =? "")
  | JList l => match l with [] => false | _ => true end
  | JDict d => match d with [] => false | _ => true end
  end.

Definition isinstance_dict (j : json) : bool :=
  match j with JDict _ => true | _ => false end.

Fixpoint assoc (k : string) (d : list (string * json)) : option json :=
  match d with
  | [] => None
  | (k', v) :: d' => if k =? k' then Some v else assoc k d'
  end.

(** [x.get(k)]: only a dict has [get]. *)
Definition dict_get (x : json) (k : string) : result json :=
  match x with
  | JDict d => Ret (match assoc k d with Some v => v | None => JNull end)
  | _ => Raise AttributeError
  end.

(** [x[k]] with a string key. *)
Definition subscript (x : json) (k : string) : result json :=
  match x with
  | JDict d => match assoc k d with Some v => Ret v | None => Raise (KeyError k) end
  | _ => Raise TypeError
  end.

(** [x == s] for a string literal [s]. *)
Definition eq_str (x : json) (s : string) : bool :=
  match x with JStr t => t =? s | _ => false end.

Definition str_of_Z (n : Z) : string := NilZero.string_of_int (Z.to_int n).

(** ** The transport *)

(** The endpoint f-strings of the source, kept structured:
    - [EContents o r p b]: [/repos/{o}/{r}/contents/{p}?ref={b}], and
      [/repos/{o}/{r}/contents?ref={b}] when [p] is [None];
    - [EContentsFile o r p]: [/repos/{o}/{r}/contents/{p}];
    - [EGitRef o r b]: [/repos/{o}/{r}/git/ref/heads/{b}];
    - [EGitRefsHeads o r b]: [/repos/{o}/{r}/git/refs/heads/{b}];
    - [EGitRefs o r]: [/repos/{o}/{r}/git/refs];
    - [EGitBlobs], [EGitTrees], [EGitCommits]: [/repos/{o}/{r}/git/blobs],
      [.../git/trees], [.../git/commits];
    - [EGitCommit o r c]: [/repos/{o}/{r}/git/commits/{c}]. *)
Inductive endpoint : Type :=
| EContents (owner repo : string) (path : option json) (ref : string)
| EContentsFile (owner repo : string) (path : json)
| EGitRef (owner repo branch : string)
| EGitRefsHeads (owner repo branch : string)
| EGitRefs (owner repo : string)
| EGitBlobs (owner repo : string)
| EGitTrees (owner repo : string)
| EGitCommits (owner repo : string)
| EGitCommit (owner repo : string) (sha : json).

Record request : Type := {
  method : string;
  url : endpoint;
  headers : list (string * string);
  payload : option json
}.

(** The body of a response as the code looks at it: [r.content] is empty or
    not, and [r.json()] decodes it or raises. *)
Inductive body : Type :=
| Empty
| Json (j : json)
| Garbage (text : string).

Record response : Type := {
  status_code : Z;
  content : body
}.

Definition r_content (r : response) : bool :=
  match content r with Empty => false | _ => true end.

Definition r_json (r : response) : result json :=
  match content r with Json j => Ret j | _ => Raise JSONDecodeError end.

(** A [pathlib.Path], by its parts. *)
Definition path : Type := list string.

(** What [console.print] is given: the text of the source with its holes,
    and the values that fill them. *)
Inductive arg : Type :=
| AStr (s : string)
| ANat (n : nat)
| AJson (j : json)
| AExn (e : exn)
| APath (p : path)
| AResp (r : response).

Inductive event : Type :=
| Call (rq : request) (out : result response)
| Print (text : string) (args : list arg).

(** ** Raising code: results, and the monad of remote calls *)

Definition rbind {A B : Type} (r : result A) (k : A -> result B) : result B :=
  match r with Ret a => k a | Raise e => Raise e end.

Notation "x <-? r ;; k" := (rbind r (fun x => k))
  (at level 61, r at next level, right associativity).
Notation "' pat <-? r ;; k" := (rbind r (fun x => match x with pat => k end))
  (at level 61, pat pattern, r at next level, right associativity).

Record world (St : Type) : Type := {
  remote : St;
  log : list event
}.

Definition M (St A : Type) : Type := world St -> result A * world St.

Definition ret {St A : Type} (a : A) : M St A := fun w => (Ret a, w).

Definition lift {St A : Type} (r : result A) : M St A := fun w => (r, w).

Definition bind {St A B : Type} (m : M St A) (k : A -> M St B) : M St B :=
  fun w =>
    match m w with
    | (Ret a, w') => k a w'
    | (Raise e, w') => (Raise e, w')
    end.

(** [try: m  except Exception as e: h e] *)
Definition catch {St A : Type} (m : M St A) (h : exn -> M St A) : M St A :=
  fun w =>
    match m w with
    | (Ret a, w') => (Ret a, w')
    | (Raise e, w') => h e w'
    end.

(** [console.print] *)
Definition print {St : Type} (text : string) (args : list arg) : M St unit :=
  fun w => (Ret tt, {| remote := remote w; log := log w ++ [Print text args] |}).

Notation "x <- m ;; k" := (bind m (fun x => k))
  (at level 61, m at next level, right associativity).
Notation "' pat <- m ;; k" := (bind m (fun x => match x with pat => k end))
  (at level 61, pat pattern, m at next level, right associativity).
Notation "m ;;; k" := (bind m (fun _ => k))
  (at level 61, right associativity).

(** ** Remote Content Client *)

(** What the wrappers make of a response. *)

Definition json_or_status (r : response) : result json :=
  if r_content r then r_json r
  else Ret (JDict [("status", JNum (status_code r))]).

Definition json_or_message (r : response) : json :=
  match r_json r with
  | Ret j => j
  | Raise _ => JDict [("message", JStr ("HTTP " ++ str_of_Z (status_code r))%string)]
  end.

Section Client.

Variable St : Type.
Variable serve : request -> St -> result response * St.

Definition api_request (meth : string) (ep : endpoint) (token : string)
    (js : option json) : M St response :=
  fun w =>
    let hs := (if token =? "" then [] else [("Authorization", ("token " ++ token)%string)])
              ++ [("Accept", "application/vnd.github.v3+json")] in
    let rq := {| method := meth; url := ep; headers := hs; payload := js |} in
    let '(out, s') := serve rq (remote w) in
    (out, {| remote := s'; log := log w ++ [Call rq out] |}).

Definition get_repo_contents (token owner repo : string) (pth : json)
    (branch : string) : M St (bool * json) :=
  let ep := EContents owner repo (if truthy pth then Some pth else None) branch in
  r <- api_request "GET" ep token None ;;
  if (status_code r =? 200)%Z then
    j <- lift (r_json r) ;; ret (true, j)
  else ret (false, json_or_message r).

Definition get_file_sha (token owner repo : string) (pth : json)
    (branch : string) : M St json :=
  '(ok, data) <- get_repo_contents token owner repo pth branch ;;
  if ok && isinstance_dict data then lift (dict_get data "sha")
  else ret JNull.

Definition create_or_update_file (token owner repo : string) (pth : json)
    (content_b64 message branch : string) (sha : json) : M St (bool * json) :=
  let pl := [("message", JStr message); ("content", JStr content_b64);
             ("branch", JStr branch)]
            ++ (if truthy sha then [("sha", sha)] else []) in
  r <- api_request "PUT" (EContentsFile owner repo pth) token (Some (JDict pl)) ;;
  j <- lift (json_or_status r) ;;
  ret ((status_code r =? 200)%Z || (status_code r =? 201)%Z, j).

Definition delete_file (token owner repo : string) (pth : json)
    (message branch : string) (sha : json) : M St (bool * json) :=
  let pl := [("message", JStr message); ("branch", JStr branch)]
            ++ (if truthy sha then [("sha", sha)] else []) in
  r <- api_request "DELETE" (EContentsFile owner repo pth) token (Some (JDict pl)) ;;
  j <- lift (json_or_status r) ;;
  ret ((status_code r =? 200)%Z, j).

Definition get_ref (token owner repo branch : string) : M St (bool * json) :=
  r <- api_request "GET" (EGitRef owner repo branch) token None ;;
  if (status_code r =? 200)%Z then
    j <- lift (r_json r) ;; ret (true, j)
  else ret (false, json_or_message r).

(** The shared tail of [create_blob], [create_tree], [create_commit]
    (success is 201) and [update_ref] (success is 200). *)
Definition on_status (good : Z) (r : response) : M St (bool * json) :=
  if (status_code r =? good)%Z then
    j <- lift (r_json r) ;; ret (true, j)
  else
    j <- lift (json_or_status r) ;; ret (false, j).

Definition create_blob (token owner repo content_b64 encoding : string)
    : M St (bool * json) :=
  let pl := JDict [("content", JStr content_b64); ("encoding", JStr encoding)] in
  r <- api_request "POST" (EGitBlobs owner repo) token (Some pl) ;;
  on_status 201 r.

Definition create_tree (token owner repo : string) (tree : list json)
    (base_tree : json) : M St (bool * json) :=
  let pl := [("tree", JList tree)]
            ++ (if truthy base_tree then [("base_tree", base_tree)] else []) in
  r <- api_request "POST" (EGitTrees owner repo) token (Some (JDict pl)) ;;
  on_status 201 r.

Definition create_commit (token owner repo message : string) (tree_sha : json)
    (parents : list json) : M St (bool * json) :=
  let pl := JDict [("message", JStr message); ("tree", tree_sha);
                   ("parents", JList parents)] in
  r <- api_request "POST" (EGitCommits owner repo) token (Some pl) ;;
  on_status 201 r.

Definition update_ref (token owner repo branch : string) (commit_sha : json)
    (force : bool) : M St (bool * json) :=
  let pl := JDict [("sha", commit_sha); ("force", JBool force)] in
  r <- api_request "PATCH" (EGitRefsHeads owner repo branch) token (Some pl) ;;
  on_status 200 r.

End Client.

(** ** Strings and paths *)

Definition b64_alphabet : string :=
  "ABCDEFGHIJKLMNOPQRSTUVWXYZabcdefghijklmnopqrstuvwxyz0123456789+/".

Definition b64_char (n : N) : ascii :=
  match String.get (N.to_nat n) b64_alphabet with
  | Some c => c
  | None => "="%char
  end.

(** [base64.b64encode(data).decode("utf-8")] *)
Fixpoint b64encode (s : string) : string :=
  match s with
  | EmptyString => ""
  | String a EmptyString =>
      let n := (N_of_ascii a * 65536)%N in
      String (b64_char (n / 262144)) (String (b64_char ((n / 4096) mod 64)) "==")
  | String a (String b EmptyString) =>
      let n := (N_of_ascii a * 65536 + N_of_ascii b * 256)%N in
      String (b64_char (n / 262144)) (String (b64_char ((n / 4096) mod 64))
        (String (b64_char ((n / 64) mod 64)) "="))
  | String a (String b (String c rest)) =>
      let n := (N_of_ascii a * 65536 + N_of_ascii b * 256 + N_of_ascii c)%N in
      String (b64_char (n / 262144)) (String (b64_char ((n / 4096) mod 64))
        (String (b64_char ((n / 64) mod 64)) (String (b64_char (n mod 64))
          (b64encode rest))))
  end.

Definition is_slash (c : ascii) : bool := (c =? "/")%char.

Fixpoint lstrip_slash (s : string) : string :=
  match s with
  | String c s' => if is_slash c then lstrip_slash s' else s
  | EmptyString => ""
  end.

Fixpoint rstrip_slash (s : string) : string :=
  match s with
  | EmptyString => ""
  | String c s' =>
      match rstrip_slash s' with
      | EmptyString => if is_slash c then "" else String c ""
      | t => String c t
      end
  end.

(** [s.strip("/")] *)
Definition strip_slash (s : string) : string := rstrip_slash (lstrip_slash s).

(** ["/".join(parts)] *)
Definition join_slash (parts : list string) : string := String.concat "/" parts.

(** [s.split("/")]: the segments of a remote path. *)
Fixpoint split_slash (s : string) : list string :=
  match s with
  | EmptyString => [""]
  | String c s' =>
      if is_slash c then "" :: split_slash s'
      else match split_slash s' with
           | seg :: segs => String c seg :: segs
           | [] => [String c ""]
           end
  end.

(** A path with a root: its first part is the anchor, [/] or [//]. *)
Definition anchored (p : path) : bool :=
  match p with
  | String c _ :: _ => is_slash c
  | _ => false
  end.

(** The parts of [p] after the parts of [base]. *)
Fixpoint drop_base (p base : path) : result path :=
  match base, p with
  | [], _ => Ret p
  | b :: base', x :: p' => if x =? b then drop_base p' base' else Raise ValueError
  | _ :: _, [] => Raise ValueError
  end.

(** [p.relative_to(base)]: against the empty base, [Path(".")], a path with
    a root raises; otherwise [base] must lead to [p], part by part. *)
Definition relative_to (p base : path) : result path :=
  match base with
  | [] => if anchored p then Raise ValueError else Ret p
  | _ :: _ => drop_base p base
  end.

Definition dot_segment (p : string) : bool := (p =? ".") || (p =? "..").

Definition path_to_repo_path (local_base file_path : path) (repo_base : string)
    : result string :=
  rel <-? relative_to file_path local_base ;;
  let parts := filter (fun p => negb (dot_segment p)) rel in
  if negb (repo_base =? "") then Ret (join_slash (strip_slash repo_base :: parts))
  else Ret (join_slash parts).

(** ** The local file system *)

(** A file holds its bytes, or cannot be read ([None]: [read_bytes] raises).
    The children of a directory are listed in the order the operating system
    enumerates them. *)
Inductive node : Type :=
| File (data : option string)
| Dir (children : list (string * node)).

Fixpoint child (name : string) (ch : list (string * node)) : option node :=
  match ch with
  | [] => None
  | (n, c) :: ch' => if name =? n then Some c else child name ch'
  end.

(** The node a path names, resolved name by name from the tree [fs]. *)
Fixpoint lookup (fs : node) (p : path) : option node :=
  match p with
  | [] => Some fs
  | name :: p' =>
      match fs with
      | Dir ch => match child name ch with Some c => lookup c p' | None => None end
      | File _ => None
      end
  end.

Definition path_exists (fs : node) (p : path) : bool :=
  match lookup fs p with Some _ => true | None => false end.

Definition is_dir (fs : node) (p : path) : bool :=
  match lookup fs p with Some (Dir _) => true | _ => false end.

Definition node_is_file (n : node) : bool :=
  match n with File _ => true | Dir _ => false end.

Definition read_bytes (fs : node) (p : path) : result string :=
  match lookup fs p with
  | Some (File (Some data)) => Ret data
  | _ => Raise OSError
  end.

Definition file_to_base64 (fs : node) (p : path) : result string :=
  data <-? read_bytes fs p ;; Ret (b64encode data).

(** [folder.rglob("*")] from the directory [n] at path [at_]: the entries of
    the directory itself, then those of each sub-directory in turn. *)
Fixpoint rglob (at_ : path) (n : node) : list (path * node) :=
  match n with
  | File _ => []
  | Dir ch =>
      map (fun nc => (at_ ++ [fst nc], snd nc)) ch
      ++ flat_map (fun nc => rglob (at_ ++ [fst nc]) (snd nc)) ch
  end.

(** [part in p.parts] *)
Definition in_parts (part : string) (p : path) : bool :=
  existsb (fun x => part =? x) p.

Definition gather_files_for_folder (fs : node) (folder : path)
    (skip_patterns : option (list string)) : list path :=
  let skip := match skip_patterns with Some l => l | None => [] end in
  match lookup fs folder with
  | Some n =>
      map fst
        (filter (fun pn => node_is_file (snd pn)
                           && negb (existsb (fun part => in_parts part (fst pn)) skip))
                (rglob folder n))
  | None => []
  end.

(** ** Configuration and prompts *)

(** The configuration dict after [ensure_config]. *)
Record config : Type := {
  cfg_token : string;
  cfg_owner : string;
  cfg_repo : string;
  cfg_branch : string;
  cfg_pages_branch : string;
  cfg_auto_commit_message : string;
  cfg_sync_ignore : list string
}.

(** What the user types at the prompts of [op_upload_folder], in the order
    they are asked. *)
Record upload_answers : Type := {
  ans_local_folder : path;
  ans_mode : string;
  ans_target_repo_base : string;
  ans_message : string
}.

(** What the user types at the prompts of [pages_add_file_or_folder]. *)
Record pages_answers : Type := {
  pa_pages_branch : string;
  pa_choice : string;
  pa_local_path : path;
  pa_repo_path : string;
  pa_target_repo_base : string;
  pa_msg : string
}.

(** A [watchdog] event: [is_directory], and the parts of [Path(src_path)]. *)
Record fs_event : Type := {
  is_directory : bool;
  src_path : path
}.

(** The fields [SyncEventHandler.__init__] sets. *)
Record SyncEventHandler : Type := {
  h_token : string;
  h_owner : string;
  h_repo : string;
  h_local_root : path;
  h_target_repo_base : string;
  h_pages_branch : string;
  h_ignore : list string
}.

Definition SyncEventHandler_init (cfg : config) (local_root : path)
    (target_repo_base pages_branch : string) : SyncEventHandler :=
  {| h_token := cfg_token cfg;
     h_owner := cfg_owner cfg;
     h_repo := cfg_repo cfg;
     h_local_root := local_root;
     h_target_repo_base := strip_slash target_repo_base;
     h_pages_branch := pages_branch;
     h_ignore := cfg_sync_ignore cfg |}.

Definition _is_ignored (h : SyncEventHandler) (p : path) : bool :=
  existsb (fun part => in_parts part p) (h_ignore h).

Definition _repo_path (h : SyncEventHandler) (src : path) : result string :=
  rel <-? relative_to src (h_local_root h) ;;
  let repo_path := join_slash rel in
  if negb (h_target_repo_base h =? "")
  then Ret (h_target_repo_base h ++ "/" ++ repo_path)%string
  else Ret repo_path.

(** One entry of [tree_entries]. *)
Definition tree_entry (repo_path : string) (blob_sha : json) : json :=
  JDict [("path", JStr repo_path); ("mode", JStr "100644");
         ("type", JStr "blob"); ("sha", blob_sha)].

Section Engine.

Variable St : Type.
Variable serve : request -> St -> result response * St.


(** ** Filesystem Watch Sync Loop: the handlers *)

(** What the console makes of a line of the handlers.  [console.print]
    reads its text as markup, and the handlers put paths, answers and
    errors into that text as they are: a line whose text holds a closing
    tag that matches no open one is refused with [MarkupError], and nothing
    is printed.  [markup text args] tells whether the console renders the
    line. *)
Variable markup : string -> list arg -> bool.

Definition console_print (text : string) (args : list arg) : M St unit :=
  if markup text args then print text args else lift (Raise MarkupError).

Definition on_created (fs : node) (h : SyncEventHandler) (ev : fs_event)
    : M St unit :=
  if is_directory ev then ret tt else
  let src := src_path ev in
  if _is_ignored h src then ret tt else
  console_print "Detected created: {src} -> uploading..." [APath src] ;;;
  catch
    (content_b64 <- lift (file_to_base64 fs src) ;;
     repo_path <- lift (_repo_path h src) ;;
     sha <- get_file_sha serve (h_token h) (h_owner h) (h_repo h) (JStr repo_path)
              (h_pages_branch h) ;;
     '(ok, resp) <- create_or_update_file serve (h_token h) (h_owner h) (h_repo h)
                      (JStr repo_path) content_b64
                      ("Auto-sync add " ++ repo_path)%string (h_pages_branch h) sha ;;
     if ok : bool then console_print "Uploaded {repo_path}" [AStr repo_path]
     else console_print "Upload failed: {resp}" [AJson resp])
    (fun e => console_print "Error on created: {e}" [AExn e]).

Definition on_modified (fs : node) (h : SyncEventHandler) (ev : fs_event)
    : M St unit :=
  if is_directory ev then ret tt else
  let src := src_path ev in
  if _is_ignored h src then ret tt else
  console_print "Detected modified: {src} -> uploading..." [APath src] ;;;
  catch
    (content_b64 <- lift (file_to_base64 fs src) ;;
     repo_path <- lift (_repo_path h src) ;;
     sha <- get_file_sha serve (h_token h) (h_owner h) (h_repo h) (JStr repo_path)
              (h_pages_branch h) ;;
     '(ok, resp) <- create_or_update_file serve (h_token h) (h_owner h) (h_repo h)
                      (JStr repo_path) content_b64
                      ("Auto-sync update " ++ repo_path)%string (h_pages_branch h) sha ;;
     if ok : bool then console_print "Updated {repo_path}" [AStr repo_path]
     else console_print "Update failed: {resp}" [AJson resp])
    (fun e => console_print "Error on modified: {e}" [AExn e]).

Definition on_deleted (h : SyncEventHandler) (ev : fs_event) : M St unit :=
  if is_directory ev then ret tt else
  let src := src_path ev in
  if _is_ignored h src then ret tt else
  console_print "Detected deleted: {src} -> deleting from repo..." [APath src] ;;;
  catch
    (repo_path <- lift (_repo_path h src) ;;
     sha <- get_file_sha serve (h_token h) (h_owner h) (h_repo h) (JStr repo_path)
              (h_pages_branch h) ;;
     if negb (truthy sha)
     then console_print "File not found in repo: {repo_path}" [AStr repo_path]
     else
       '(ok, resp) <- delete_file serve (h_token h) (h_owner h) (h_repo h)
                        (JStr repo_path) ("Auto-sync delete " ++ repo_path)%string
                        (h_pages_branch h) sha ;;
       if ok : bool then console_print "Deleted {repo_path} from repo" [AStr repo_path]
       else console_print "Delete failed: {resp}" [AJson resp])
    (fun e => console_print "Error on deleted: {e}" [AExn e]).

(** ** Recursive Remote Walker *)

(** [gather_rec] of [op_delete]; [file_paths] is the list the closure appends
    to.  [depth] is the recursion depth Python still allows: when it is used
    up the call raises [RecursionError]. *)
Fixpoint gather_rec (depth : nat) (token owner repo branch : string)
    (pth : json) (file_paths : list json) : M St (list json) :=
  match depth with
  | O => lift (Raise RecursionError)
  | S depth' =>
      '(ok2, dat) <- get_repo_contents serve token owner repo pth branch ;;
      if negb ok2 then ret file_paths
      else
        match dat with
        | JDict _ =>
            ty <- lift (dict_get dat "type") ;;
            if eq_str ty "file"
            then p <- lift (dict_get dat "path") ;; ret (file_paths ++ [p])
            else ret file_paths
        | JList items =>
            (fix each (items : list json) (acc : list json) : M St (list json) :=
               match items with
               | [] => ret acc
               | it :: rest =>
                   ty <- lift (dict_get it "type") ;;
                   if eq_str ty "file"
                   then p <- lift (dict_get it "path") ;; each rest (acc ++ [p])
                   else if eq_str ty "dir"
                   then
                     p <- lift (dict_get it "path") ;;
                     acc' <- gather_rec depth' token owner repo branch p acc ;;
                     each rest acc'
                   else each rest acc
               end) items file_paths
        | _ => ret file_paths
        end
  end.

(** [gather] of [dev_backup_pages]: the same walk, on the Pages branch. *)
Definition gather (depth : nat) (cfg : config) (pth : json)
    (file_paths : list json) : M St (list json) :=
  gather_rec depth (cfg_token cfg) (cfg_owner cfg) (cfg_repo cfg)
    (cfg_pages_branch cfg) pth file_paths.

(** ** Batch Commit Builder: [op_upload_folder] *)

(** [for p, r in failures: console.print(f"- {p}: {r}")] *)
Fixpoint print_failures (failures : list (path * arg)) : M St unit :=
  match failures with
  | [] => ret tt
  | (p, r) :: rest => print "- {p}: {r}" [APath p; r] ;;; print_failures rest
  end.

(** Mode 1, the loop over [files]. *)
Fixpoint upload_each (fs : node) (token owner repo branch message : string)
    (local_folder : path) (target_repo_base : string) (files : list path)
    (successes : nat) (failures : list (path * arg))
    : M St (nat * list (path * arg)) :=
  match files with
  | [] => ret (successes, failures)
  | f :: rest =>
      repo_path <- lift (path_to_repo_path local_folder f target_repo_base) ;;
      sha <- get_file_sha serve token owner repo (JStr repo_path) branch ;;
      content_b64 <- lift (file_to_base64 fs f) ;;
      '(ok, resp) <- create_or_update_file serve token owner repo (JStr repo_path)
                       content_b64 message branch sha ;;
      if ok : bool
      then upload_each fs token owner repo branch message local_folder
             target_repo_base rest (S successes) failures
      else upload_each fs token owner repo branch message local_folder
             target_repo_base rest successes (failures ++ [(f, AJson resp)])
  end.

(** Mode 2, the loop over [files] that creates the blobs. *)
Fixpoint create_blobs (fs : node) (token owner repo : string)
    (local_folder : path) (target_repo_base : string) (files : list path)
    (tree_entries : list json) (failures : list (path * arg))
    : M St (list json * list (path * arg)) :=
  match files with
  | [] => ret (tree_entries, failures)
  | f :: rest =>
      '(te, fl) <-
        catch
          (bytes_data <- lift (read_bytes fs f) ;;
           let b64 := b64encode bytes_data in
           '(ok_blob, resp_blob) <- create_blob serve token owner repo b64 "base64" ;;
           if negb ok_blob
           then ret (tree_entries, failures ++ [(f, AJson resp_blob)])
           else
             blob_sha <- lift (dict_get resp_blob "sha") ;;
             repo_path <- lift (path_to_repo_path local_folder f target_repo_base) ;;
             ret (tree_entries ++ [tree_entry repo_path blob_sha], failures))
          (fun e => ret (tree_entries, failures ++ [(f, AExn e)])) ;;
      create_blobs fs token owner repo local_folder target_repo_base rest te fl
  end.

(** Mode 2 once every blob exists: ref, commit object, tree, commit, ref
    update. *)
Definition commit_batch (token owner repo branch message : string)
    (tree_entries : list json) : M St unit :=
  '(ok_ref, ref_data) <- get_ref serve token owner repo branch ;;
  if negb ok_ref
  then print "Gagal ambil ref branch {branch}: {ref_data}" [AStr branch; AJson ref_data]
  else
  base_commit_sha <- lift (o <-? subscript ref_data "object" ;; subscript o "sha") ;;
  rcommit <- api_request serve "GET" (EGitCommit owner repo base_commit_sha) token None ;;
  if negb (status_code rcommit =? 200)%Z
  then print "Gagal ambil commit object: {rcommit.status_code} {rcommit.text}"
         [AResp rcommit]
  else
  base_tree_sha <- lift (j <-? r_json rcommit ;; t <-? subscript j "tree" ;;
                         subscript t "sha") ;;
  '(ok_tree, resp_tree) <- create_tree serve token owner repo tree_entries base_tree_sha ;;
  if negb ok_tree
  then print "Gagal membuat tree: {resp_tree}" [AJson resp_tree]
  else
  new_tree_sha <- lift (dict_get resp_tree "sha") ;;
  '(ok_commit, resp_commit) <- create_commit serve token owner repo message new_tree_sha
                                 [base_commit_sha] ;;
  if negb ok_commit
  then print "Gagal membuat commit: {resp_commit}" [AJson resp_commit]
  else
  new_commit_sha <- lift (dict_get resp_commit "sha") ;;
  '(ok_update, resp_update) <- update_ref serve token owner repo branch new_commit_sha false ;;
  if negb ok_update
  then print "Gagal update branch ref: {resp_update}" [AJson resp_update]
  else print "Batch upload selesai. Commit: {new_commit_sha}" [AJson new_commit_sha].

Definition op_upload_folder (fs : node) (cfg : config) (ans : upload_answers)
    : M St unit :=
  let token := cfg_token cfg in
  let owner := cfg_owner cfg in
  let repo := cfg_repo cfg in
  let branch := cfg_branch cfg in
  let local_folder := ans_local_folder ans in
  if negb (path_exists fs local_folder) || negb (is_dir fs local_folder)
  then print "Folder tidak ditemukan." []
  else
  let mode := ans_mode ans in
  let target_repo_base := ans_target_repo_base ans in
  let files := gather_files_for_folder fs local_folder None in
  match files with
  | [] => print "Tidak ada file didalam folder." []
  | _ :: _ =>
  let message := ans_message ans in
  print "Mulai upload {len(files)} file dari {local_folder} -> {repo}/{target_repo_base or '/'} on branch {branch} (mode {mode})"
    [ANat (List.length files); APath local_folder; AStr repo;
     AStr (if target_repo_base =? "" then "/" else target_repo_base);
     AStr branch; AStr mode] ;;;
  if mode =? "1" then
    '(successes, failures) <- upload_each fs token owner repo branch message
                                local_folder target_repo_base files 0 [] ;;
    print "Selesai. Berhasil: {successes}. Gagal: {len(failures)}"
      [ANat successes; ANat (List.length failures)] ;;;
    match failures with
    | [] => ret tt
    | _ :: _ => print "List failures:" [] ;;; print_failures failures
    end
  else
    print "Building blobs and tree for single commit..." [] ;;;
    '(tree_entries, failures) <- create_blobs fs token owner repo local_folder
                                   target_repo_base files [] [] ;;
    match failures with
    | _ :: _ =>
        print "Beberapa blob gagal dibuat: {len(failures)}. Batal commit batch."
          [ANat (List.length failures)] ;;;
        print_failures failures
    | [] => commit_batch token owner repo branch message tree_entries
    end
  end.

(** ** The Pages folder add: [pages_add_file_or_folder] *)

Definition ensure_pages_branch (cfg : config) (branch_name : string) : M St bool :=
  let token := cfg_token cfg in
  let owner := cfg_owner cfg in
  let repo := cfg_repo cfg in
  '(ok, _) <- get_ref serve token owner repo branch_name ;;
  if ok : bool then ret true else
  print "Branch '{branch_name}' belum ada. Mencoba buat dari '{cfg.get('branch','main')}'..."
    [AStr branch_name; AStr (cfg_branch cfg)] ;;;
  let base_branch := cfg_branch cfg in
  '(ok2, refdata) <- get_ref serve token owner repo base_branch ;;
  if negb ok2 then
    print "Base branch {base_branch} tidak ditemukan: {refdata}"
      [AStr base_branch; AJson refdata] ;;;
    ret false
  else
  base_sha <- lift (o <-? subscript refdata "object" ;; subscript o "sha") ;;
  r <- api_request serve "POST" (EGitRefs owner repo) token
         (Some (JDict [("ref", JStr ("refs/heads/" ++ branch_name)%string);
                       ("sha", base_sha)])) ;;
  if (status_code r =? 201)%Z then
    print "Branch '{branch_name}' berhasil dibuat." [AStr branch_name] ;;; ret true
  else
    print "Gagal membuat branch '{branch_name}': {r.status_code} {r.text}"
      [AStr branch_name; AResp r] ;;;
    ret false.

(** The loop over [files] of the folder branch. *)
Fixpoint pages_upload_each (fs : node) (token owner repo pages_branch msg : string)
    (local_folder : path) (target_repo_base : string) (files : list path)
    (fails : list (path * arg)) : M St (list (path * arg)) :=
  match files with
  | [] => ret fails
  | f :: rest =>
      repo_path <- lift (path_to_repo_path local_folder f target_repo_base) ;;
      content_b64 <- lift (file_to_base64 fs f) ;;
      sha <- get_file_sha serve token owner repo (JStr repo_path) pages_branch ;;
      '(ok, r) <- create_or_update_file serve token owner repo (JStr repo_path)
                    content_b64 msg pages_branch sha ;;
      if ok : bool
      then pages_upload_each fs token owner repo pages_branch msg local_folder
             target_repo_base rest fails
      else pages_upload_each fs token owner repo pages_branch msg local_folder
             target_repo_base rest (fails ++ [(f, AJson r)])
  end.

Definition pages_add_file_or_folder (fs : node) (cfg : config)
    (ans : pages_answers) : M St unit :=
  let token := cfg_token cfg in
  let owner := cfg_owner cfg in
  let repo := cfg_repo cfg in
  let pages_branch := pa_pages_branch ans in
  ok_branch <- ensure_pages_branch cfg pages_branch ;;
  if negb ok_branch then ret tt else
  if pa_choice ans =? "1" then
    let local_path := pa_local_path ans in
    if negb (path_exists fs local_path)
       || negb (match lookup fs local_path with Some n => node_is_file n | None => false end)
    then print "File lokal tidak ditemukan." []
    else
    let repo_path := pa_repo_path ans in
    content_b64 <- lift (file_to_base64 fs local_path) ;;
    sha <- get_file_sha serve token owner repo (JStr repo_path) pages_branch ;;
    '(ok, r) <- create_or_update_file serve token owner repo (JStr repo_path)
                  content_b64 (pa_msg ans) pages_branch sha ;;
    if ok : bool
    then print "File {repo_path} uploaded to {pages_branch}." [AStr repo_path; AStr pages_branch]
    else print "Gagal upload: {r}" [AJson r]
  else
    let local_folder := pa_local_path ans in
    if negb (path_exists fs local_folder) || negb (is_dir fs local_folder)
    then print "Folder lokal tidak ditemukan." []
    else
    let target_repo_base := pa_target_repo_base ans in
    let files := gather_files_for_folder fs local_folder None in
    match files with
    | [] => print "Tidak ada file di folder lokal." []
    | _ :: _ =>
        fails <- pages_upload_each fs token owner repo pages_branch (pa_msg ans)
                   local_folder target_repo_base files [] ;;
        print "Selesai. Gagal: {len(fails)}" [ANat (List.length fails)] ;;;
        print_failures fails
    end.

End Engine.

(** ** Remotes used to run the code *)

(** A transport whose every request fails at the network level:
    [requests.request] raises. *)
Definition serve_down (rq : request) (s : unit) : result response * unit :=
  (Raise ConnectionError, s).

(** A remote repository tree as the contents API lists it: every entry has a
    name, a type ([file], [symlink] or [dir]) and a version token [sha]. *)
Inductive rnode : Type :=
| RFile (sha : string)
| RSymlink (sha : string)
| RDir (sha : string) (children : list (string * rnode)).

Fixpoint rchild (name : string) (ch : list (string * rnode)) : option rnode :=
  match ch with
  | [] => None
  | (n, c) :: ch' => if name =? n then Some c else rchild name ch'
  end.

Fixpoint rlookup (t : rnode) (segs : list string) : option rnode :=
  match segs with
  | [] => Some t
  | name :: segs' =>
      match t with
      | RDir _ ch => match rchild name ch with Some c => rlookup c segs' | None => None end
      | _ => None
      end
  end.

Definition rtype (n : rnode) : string :=
  match n with RFile _ => "file" | RSymlink _ => "symlink" | RDir _ _ => "dir" end.

Definition rsha (n : rnode) : string :=
  match n with RFile s => s | RSymlink s => s | RDir s _ => s end.

(** The JSON object the contents API returns for the entry at [segs]. *)
Definition entry_json (segs : list string) (n : rnode) : json :=
  JDict [("name", JStr (last segs "")); ("path", JStr (join_slash segs));
         ("sha", JStr (rsha n)); ("type", JStr (rtype n))].

Definition not_found : response :=
  {| status_code := 404; content := Json (JDict [("message", JStr "Not Found")]) |}.

Definition contents_response (segs : list string) (n : rnode) : response :=
  match n with
  | RDir _ ch =>
      {| status_code := 200;
         content := Json (JList (map (fun nc => entry_json (segs ++ [fst nc]) (snd nc)) ch)) |}
  | _ => {| status_code := 200; content := Json (entry_json segs n) |}
  end.

(** The read side of the contents API over a fixed tree: a file path answers
    with one entry, a directory path with its listing, anything else with
    404. *)
Definition serve_tree (rq : request) (t : rnode) : result response * rnode :=
  match url rq with
  | EContents _ _ p _ =>
      if method rq =? "GET" then
        match p with
        | None =>
            (Ret (contents_response [] t), t)
        | Some (JStr s) =>
            match rlookup t (split_slash s) with
            | Some n => (Ret (contents_response (split_slash s) n), t)
            | None => (Ret not_found, t)
            end
        | Some _ => (Ret not_found, t)
        end
      else (Ret not_found, t)
  | _ => (Ret not_found, t)
  end.

(** The paths of the file entries beneath a remote directory, in listing
    order. *)
Fixpoint rfiles (at_ : list string) (n : rnode) : list string :=
  match n with
  | RDir _ ch =>
      flat_map (fun nc =>
                  match snd nc with
                  | RFile _ => [join_slash (at_ ++ [fst nc])]
                  | RSymlink _ => []
                  | RDir _ _ => rfiles (at_ ++ [fst nc]) (snd nc)
                  end) ch
  | _ => []
  end.

Fixpoint has_slash (s : string) : bool :=
  match s with
  | EmptyString => false
  | String c s' => is_slash c || has_slash s'
  end.

(** A name of a directory entry: not empty, and without a slash. *)
Definition good_name (s : string) : bool := negb (s =? "") && negb (has_slash s).

Fixpoint distinct (l : list string) : bool :=
  match l with
  | [] => true
  | x :: l' => negb (existsb (fun y => x =? y) l') && distinct l'
  end.

(** A tree the remote can hold: entry names are proper names, and distinct
    within a directory. *)
Fixpoint wf_rnode (n : rnode) : bool :=
  match n with
  | RDir _ ch =>
      distinct (map fst ch)
      && forallb (fun nc => good_name (fst nc) && wf_rnode (snd nc)) ch
  | _ => true
  end.

Fixpoint rdepth (n : rnode) : nat :=
  match n with
  | RDir _ ch => S (fold_right (fun nc m => Nat.max (rdepth (snd nc)) m) 0 ch)
  | _ => 1
  end.

(** A small remote for the git data API: it holds the branch head, and
    rejects the blobs whose content is listed in [m_reject]. *)
Record mock : Type := {
  m_head : string;
  m_reject : list string
}.

Definition json_response (code : Z) (j : json) : response :=
  {| status_code := code; content := Json j |}.

Definition serve_mock (rq : request) (s : mock) : result response * mock :=
  match url rq with
  | EGitBlobs _ _ =>
      match payload rq with
      | Some (JDict (("content", JStr c) :: _)) =>
          if existsb (fun x => x =? c) (m_reject s)
          then (Ret (json_response 422 (JDict [("message", JStr "rejected")])), s)
          else (Ret (json_response 201 (JDict [("sha", JStr ("blob:" ++ c)%string)])), s)
      | _ => (Ret (json_response 422 (JDict [("message", JStr "bad blob")])), s)
      end
  | EGitRef _ _ _ =>
      (Ret (json_response 200 (JDict [("object", JDict [("sha", JStr (m_head s))])])), s)
  | EGitCommit _ _ _ =>
      (Ret (json_response 200 (JDict [("tree", JDict [("sha", JStr "base-tree")])])), s)
  | EGitTrees _ _ =>
      (Ret (json_response 201 (JDict [("sha", JStr "new-tree")])), s)
  | EGitCommits _ _ =>
      (Ret (json_response 201 (JDict [("sha", JStr "new-commit")])), s)
  | EGitRefsHeads _ _ _ =>
      match payload rq with
      | Some (JDict (("sha", JStr c) :: _)) =>
          (Ret (json_response 200 (JDict [("object", JDict [("sha", JStr c)])])),
           {| m_head := c; m_reject := m_reject s |})
      | _ => (Ret (json_response 422 (JDict [("message", JStr "bad ref")])), s)
      end
  | _ => (Ret not_found, s)
  end.

(** ** Sample inputs *)

Definition cfg_demo : config :=
  {| cfg_token := "t"; cfg_owner := "o"; cfg_repo := "r"; cfg_branch := "main";
     cfg_pages_branch := "gh-pages"; cfg_auto_commit_message := "m";
     cfg_sync_ignore := [".git"; "__pycache__"] |}.

(** A local tree: [site] with two readable files, a file that cannot be
    read, a [.git] directory, and an empty directory next to it. *)
Definition fs_demo : node :=
  Dir [("site",
        Dir [("a.txt", File (Some "0123456789"));
             ("sub", Dir [("b.txt", File (Some "x")); ("locked", File None)]);
             (".git", Dir [("config", File (Some "cfg"))])]);
       ("empty", Dir [])].

Definition mock_demo : world mock :=
  {| remote := {| m_head := "h0"; m_reject := [] |}; log := [] |}.

Definition rtree_demo : rnode :=
  RDir "r" [("a.txt", RFile "s1");
            ("docs", RDir "d" [("x.md", RFile "s2"); ("l", RSymlink "s3");
                               ("in", RDir "e" [("y", RFile "s4")])])].

(** ** Vocabulary of the statements *)

(** The request [api_request] hands to the transport. *)
Definition request_for (meth : string) (ep : endpoint) (token : string)
    (js : option json) : request :=
  {| method := meth; url := ep;
     headers := (if token =? "" then [] else [("Authorization", ("token " ++ token)%string)])
                ++ [("Accept", "application/vnd.github.v3+json")];
     payload := js |}.

(** A run [(res, w')] from [w] of a client operation that tells success by
    the status test [good]: it made exactly one call; a raised transport
    error is raised again; a response with a JSON body becomes the pair of
    the status test and the decoded body.  A [guarded] operation (the two
    getters) also turns a failure status into a failure pair when the body
    does not decode. *)
Definition client_result (St : Type) (guarded : bool) (good : Z -> bool)
    (w : world St) (run : result (bool * json) * world St) : Prop :=
  exists rq out,
    log (snd run) = log w ++ [Call rq out] /\
    match out with
    | Raise e => fst run = Raise e
    | Ret r =>
        (forall j, content r = Json j -> fst run = Ret (good (status_code r), j)) /\
        (guarded = true -> good (status_code r) = false ->
         exists data, fst run = Ret (false, data))
    end.

(** The remote calls of a log, in order. *)
Fixpoint requests_of (l : list event) : list request :=
  match l with
  | [] => []
  | Call rq _ :: l' => rq :: requests_of l'
  | Print _ _ :: l' => requests_of l'
  end.

(** The world after the transport has served [rq]. *)
Definition served (St : Type) (serve : request -> St -> result response * St)
    (rq : request) (w : world St) : world St :=
  {| remote := snd (serve rq (remote w));
     log := log w ++ [Call rq (fst (serve rq (remote w)))] |}.

(** The world after a [console.print]. *)
Definition printed (St : Type) (text : string) (args : list arg) (w : world St)
    : world St :=
  {| remote := remote w; log := log w ++ [Print text args] |}.

(** The requests of the client operations. *)
Definition contents_request (token owner repo : string) (pth : json)
    (branch : string) : request :=
  request_for "GET" (EContents owner repo (if truthy pth then Some pth else None) branch)
    token None.

Definition delete_request (token owner repo : string) (pth : json)
    (message branch : string) (sha : json) : request :=
  request_for "DELETE" (EContentsFile owner repo pth) token
    (Some (JDict ([("message", JStr message); ("branch", JStr branch)]
                  ++ (if truthy sha then [("sha", sha)] else [])))).

Definition put_request (token owner repo : string) (pth : json)
    (content_b64 message branch : string) (sha : json) : request :=
  request_for "PUT" (EContentsFile owner repo pth) token
    (Some (JDict ([("message", JStr message); ("content", JStr content_b64);
                   ("branch", JStr branch)]
                  ++ (if truthy sha then [("sha", sha)] else [])))).

Definition blob_request (token owner repo content_b64 : string) : request :=
  request_for "POST" (EGitBlobs owner repo) token
    (Some (JDict [("content", JStr content_b64); ("encoding", JStr "base64")])).

Definition ref_request (token owner repo branch : string) : request :=
  request_for "GET" (EGitRef owner repo branch) token None.

Definition commit_object_request (token owner repo : string) (sha : json) : request :=
  request_for "GET" (EGitCommit owner repo sha) token None.

Definition tree_request (token owner repo : string) (tree : list json)
    (base_tree : json) : request :=
  request_for "POST" (EGitTrees owner repo) token
    (Some (JDict ([("tree", JList tree)]
                  ++ (if truthy base_tree then [("base_tree", base_tree)] else [])))).

Definition commit_request (token owner repo message : string) (tree_sha : json)
    (parents : list json) : request :=
  request_for "POST" (EGitCommits owner repo) token
    (Some (JDict [("message", JStr message); ("tree", tree_sha);
                  ("parents", JList parents)])).

Definition update_ref_request (token owner repo branch : string)
    (commit_sha : json) (force : bool) : request :=
  request_for "PATCH" (EGitRefsHeads owner repo branch) token
    (Some (JDict [("sha", commit_sha); ("force", JBool force)])).

Definition handler_demo : SyncEventHandler :=
  SyncEventHandler_init cfg_demo ["site"] "/pages/" "gh-pages".

Definition deleted_demo : fs_event :=
  {| is_directory := false; src_path := ["site"; "docs"; "x.md"] |}.

(** A console that renders every line. *)
Definition markup_any (text : string) (args : list arg) : bool := true.

(** Does the text hold the closing tag [[/b]]? *)
Definition stray_tag (s : string) : bool :=
  match String.index 0 "[/b]" s with Some _ => true | None => false end.

(** A console that does what the real one does on the lines of the sample
    events: none of the handlers' lines opens a [[b]] tag, so a line that
    takes in a path or a string holding the closing tag [[/b]] is refused;
    the other lines are rendered. *)
Definition markup_demo (text : string) (args : list arg) : bool :=
  negb (existsb (fun a => match a with
                          | APath p => existsb stray_tag p
                          | AStr s => stray_tag s
                          | _ => false
                          end) args).


Definition rtree_pages : rnode := RDir "root" [("pages", rtree_demo)].

(** Does a remote path start with a slash? *)
Definition leading_slash (s : string) : bool :=
  match s with
  | String c _ => is_slash c
  | EmptyString => false
  end.

(** No segment of a remote path is [.] or [..]. *)
Definition no_dot_segment (s : string) : Prop :=
  Forall (fun seg => dot_segment seg = false) (split_slash s).

(** A local tree as a file system holds it: names are distinct within a
    directory. *)
Fixpoint wf_node (n : node) : bool :=
  match n with
  | File _ => true
  | Dir ch => distinct (map fst ch) && forallb (fun nc => wf_node (snd nc)) ch
  end.

(** [rel] leads from [n] down to a file. *)
Fixpoint file_at (n : node) (rel : path) {struct rel} : bool :=
  match rel with
  | [] => false
  | name :: rel' =>
      match n with
      | File _ => false
      | Dir ch =>
          existsb (fun nc => (fst nc =? name)
                             && match rel' with
                                | [] => node_is_file (snd nc)
                                | _ :: _ => file_at (snd nc) rel'
                                end) ch
      end
  end.

(** The body of the loop of [create_blobs], for one file. *)
Definition blob_step (St : Type) (serve : request -> St -> result response * St)
    (fs : node) (token owner repo : string) (local_folder : path)
    (target_repo_base : string) (f : path) (tree_entries : list json)
    (failures : list (path * arg)) : M St (list json * list (path * arg)) :=
  catch
    (bytes_data <- lift (read_bytes fs f) ;;
     let b64 := b64encode bytes_data in
     '(ok_blob, resp_blob) <- create_blob serve token owner repo b64 "base64" ;;
     if negb ok_blob
     then ret (tree_entries, failures ++ [(f, AJson resp_blob)])
     else
       blob_sha <- lift (dict_get resp_blob "sha") ;;
       repo_path <- lift (path_to_repo_path local_folder f target_repo_base) ;;
       ret (tree_entries ++ [tree_entry repo_path blob_sha], failures))
    (fun e => ret (tree_entries, failures ++ [(f, AExn e)])).

(** The base64 contents of the files that can be read, in order. *)
Definition readable (fs : node) (files : list path) : list string :=
  flat_map (fun f => match read_bytes fs f with
                     | Ret d => [b64encode d]
                     | Raise _ => []
                     end) files.

(** A stretch of log that holds blob creations and nothing else. *)
Definition blob_calls (token owner repo : string) (tr : list event) : Prop :=
  Forall (fun ev => exists c out, ev = Call (blob_request token owner repo c) out) tr.

(** The world in which the batch mode starts creating blobs: the two
    announcements have been printed. *)
Definition batch_start (St : Type) (cfg : config) (ans : upload_answers)
    (files : list path) (w : world St) : world St :=
  printed "Building blobs and tree for single commit..." []
    (printed "Mulai upload {len(files)} file dari {local_folder} -> {repo}/{target_repo_base or '/'} on branch {branch} (mode {mode})"
       [ANat (List.length files); APath (ans_local_folder ans); AStr (cfg_repo cfg);
        AStr (if ans_target_repo_base ans =? "" then "/" else ans_target_repo_base ans);
        AStr (cfg_branch cfg); AStr (ans_mode ans)] w).

(** The lines that report the failed files. *)
Definition failure_lines (failures : list (path * arg)) : list event :=
  map (fun pr => Print "- {p}: {r}" [APath (fst pr); snd pr]) failures.

Definition ans_batch : upload_answers :=
  {| ans_local_folder := ["site"]; ans_mode := "2";
     ans_target_repo_base := ""; ans_message := "msg" |}.

(** The remote calls of a log with their outcomes, in order. *)
Fixpoint calls_of (l : list event) : list (request * result response) :=
  match l with
  | [] => []
  | Call rq out :: l' => (rq, out) :: calls_of l'
  | Print _ _ :: l' => calls_of l'
  end.

(** What the batch takes from the answer to each of its steps; [None] when
    the step did not succeed. *)

(** The head commit in the answer to the ref lookup. *)
Definition ref_head (out : result response) : option json :=
  match out with
  | Ret r =>
      if (status_code r =? 200)%Z then
        match (j <-? r_json r ;; o <-? subscript j "object" ;; subscript o "sha") with
        | Ret c => Some c
        | Raise _ => None
        end
      else None
  | Raise _ => None
  end.

(** The tree in the answer to the lookup of the head commit. *)
Definition commit_tree (out : result response) : option json :=
  match out with
  | Ret r =>
      if (status_code r =? 200)%Z then
        match (j <-? r_json r ;; t <-? subscript j "tree" ;; subscript t "sha") with
        | Ret t => Some t
        | Raise _ => None
        end
      else None
  | Raise _ => None
  end.

(** The hash of the object a creation answered with. *)
Definition created_sha (out : result response) : option json :=
  match out with
  | Ret r =>
      if (status_code r =? 201)%Z then
        match (j <-? r_json r ;; dict_get j "sha") with
        | Ret s => Some s
        | Raise _ => None
        end
      else None
  | Raise _ => None
  end.

(** The remote answered, with another status than [good]: a failure the code
    is given as a value.  For the two lookups any body will do; for the
    creations and the ref update the body is read, so it must be empty or
    JSON. *)
Definition refused_lookup (out : result response) : bool :=
  match out with
  | Ret r => negb (status_code r =? 200)%Z
  | Raise _ => false
  end.

Definition refused (good : Z) (out : result response) : bool :=
  match out with
  | Ret r => negb (status_code r =? good)%Z
             && match content r with Garbage _ => false | _ => true end
  | Raise _ => false
  end.

(** The ref update went through. *)
Definition accepted (out : result response) : bool :=
  match out with
  | Ret r => (status_code r =? 200)%Z
             && match content r with Json _ => true | _ => false end
  | Raise _ => false
  end.

(** The runs of the batch once the blobs exist, by the calls made and the
    result: the steps come in one order, each is made only when all the
    steps before it succeeded, each takes its argument from the answers
    before it, and a step that is refused ends the run by a plain return. *)
Inductive batch_run (token owner repo branch message : string)
    (entries : list json) : list (request * result response) -> result unit -> Prop :=
| stop_at_ref o1 res :
    ref_head o1 = None ->
    (refused_lookup o1 = true -> res = Ret tt) ->
    batch_run token owner repo branch message entries
      [(ref_request token owner repo branch, o1)] res
| stop_at_commit_object o1 c o2 res :
    ref_head o1 = Some c ->
    commit_tree o2 = None ->
    (refused_lookup o2 = true -> res = Ret tt) ->
    batch_run token owner repo branch message entries
      [(ref_request token owner repo branch, o1);
       (commit_object_request token owner repo c, o2)] res
| stop_at_tree o1 c o2 t o3 res :
    ref_head o1 = Some c ->
    commit_tree o2 = Some t ->
    created_sha o3 = None ->
    (refused 201 o3 = true -> res = Ret tt) ->
    batch_run token owner repo branch message entries
      [(ref_request token owner repo branch, o1);
       (commit_object_request token owner repo c, o2);
       (tree_request token owner repo entries t, o3)] res
| stop_at_commit o1 c o2 t o3 t' o4 res :
    ref_head o1 = Some c ->
    commit_tree o2 = Some t ->
    created_sha o3 = Some t' ->
    created_sha o4 = None ->
    (refused 201 o4 = true -> res = Ret tt) ->
    batch_run token owner repo branch message entries
      [(ref_request token owner repo branch, o1);
       (commit_object_request token owner repo c, o2);
       (tree_request token owner repo entries t, o3);
       (commit_request token owner repo message t' [c], o4)] res
| reach_update o1 c o2 t o3 t' o4 c' o5 res :
    ref_head o1 = Some c ->
    commit_tree o2 = Some t ->
    created_sha o3 = Some t' ->
    created_sha o4 = Some c' ->
    (refused 200 o5 = true \/ accepted o5 = true -> res = Ret tt) ->
    batch_run token owner repo branch message entries
      [(ref_request token owner repo branch, o1);
       (commit_object_request token owner repo c, o2);
       (tree_request token owner repo entries t, o3);
       (commit_request token owner repo message t' [c], o4);
       (update_ref_request token owner repo branch c' false, o5)] res.

(** What a lookup ([get_repo_contents], [get_ref]) and an operation that
    tells success by the status [good] make of the transport's outcome. *)
Definition lookup_reads (out : result response) : result (bool * json) :=
  r <-? out ;;
  if (status_code r =? 200)%Z then j <-? r_json r ;; Ret (true, j)
  else Ret (false, json_or_message r).

Definition status_reads (good : Z) (out : result response) : result (bool * json) :=
  r <-? out ;;
  if (status_code r =? good)%Z then j <-? r_json r ;; Ret (true, j)
  else j <-? json_or_status r ;; Ret (false, j).

Definition ans_git : upload_answers :=
  {| ans_local_folder := ["site"; ".git"]; ans_mode := "2";
     ans_target_repo_base := "backup"; ans_message := "msg" |}.


(** The loop of the walker over the entries of a listing, [rec] being the
    walker itself one level down. *)
Section WalkItems.

Variable St : Type.
Variable rec : json -> list json -> M St (list json).

Fixpoint walk_items (items : list json) (acc : list json) : M St (list json) :=
  match items with
  | [] => ret acc
  | it :: rest =>
      ty <- lift (dict_get it "type") ;;
      if eq_str ty "file"
      then p <- lift (dict_get it "path") ;; walk_items rest (acc ++ [p])
      else if eq_str ty "dir"
      then
        p <- lift (dict_get it "path") ;;
        acc' <- rec p acc ;;
        walk_items rest acc'
      else walk_items rest acc
  end.

End WalkItems.

(** What a walk from the entry [n] at [segs] is to list: the entry itself
    when it is a file, the files beneath it when it is a directory. *)
Definition rwalk (segs : list string) (n : rnode) : list string :=
  match n with
  | RFile _ => [join_slash segs]
  | RSymlink _ => []
  | RDir _ _ => rfiles segs n
  end.

Definition rtree_a1 : rnode := RDir "r" [("a.txt", RFile "s1")].
Definition rtree_a2 : rnode := RDir "r" [("a.txt", RFile "s2")].

(** The part of [rfiles] that one entry of a listing contributes. *)
Definition rfiles_of_entry (at_ : list string) (nc : string * rnode) : list string :=
  match snd nc with
  | RFile _ => [join_slash (at_ ++ [fst nc])]
  | RSymlink _ => []
  | RDir _ _ => rfiles (at_ ++ [fst nc]) (snd nc)
  end.

(** ** More of the command layer *)

(** The configuration as the dict [load_config] returns. *)
Definition pydict : Type := list (string * json).

(** [d.setdefault(k, v)] *)
Definition setdefault (d : pydict) (k : string) (v : json) : pydict :=
  match assoc k d with
  | Some _ => d
  | None => d ++ [(k, v)]
  end.

Definition config_defaults : pydict :=
  [("token", JStr ""); ("owner", JStr ""); ("repo", JStr "");
   ("branch", JStr "main"); ("pages_branch", JStr "gh-pages");
   ("auto_commit_message", JStr "Auto upload via gtfa Tool");
   ("sync_ignore", JList [JStr ".git"; JStr "__pycache__"])].

Definition ensure_config (cfg : pydict) : pydict :=
  fold_left (fun c kv => setdefault c (fst kv) (snd kv)) config_defaults cfg.

(** [isinstance(data, dict) and data.get("type") == "file"] *)
Definition is_file_entry (data : json) : bool :=
  isinstance_dict data
  && match dict_get data "type" with
     | Ret ty => eq_str ty "file"
     | Raise _ => false
     end.

(** What the user answers at the prompts of [op_upload_file]. *)
Record upload_file_answers : Type := {
  uf_local_path : path;
  uf_repo_path : string;
  uf_overwrite : bool;
  uf_message : string
}.

(** What the user answers at the prompts of [op_delete]; [del_target] is the
    answer after [strip()]. *)
Record delete_answers : Type := {
  del_target : string;
  del_confirm_file : bool;
  del_confirm_all : bool;
  del_message : string
}.

(** What the user answers at the prompts of [op_rename]; the two paths are
    the answers after [strip()]. *)
Record rename_answers : Type := {
  rn_old : string;
  rn_new : string;
  rn_message_create : string;
  rn_message_delete : string
}.

Section Commands.

Variable St : Type.
Variable serve : request -> St -> result response * St.

(** [base64.b64decode] of the [content] field of a contents answer; it
    raises on what is not base64 text. *)
Variable b64decode : json -> result string.

Definition download_file_contents (token owner repo : string) (pth : json)
    (branch : string) : M St (bool * option string) :=
  '(ok, data) <- get_repo_contents serve token owner repo pth branch ;;
  if ok && isinstance_dict data
     && match dict_get data "content" with Ret c => truthy c | Raise _ => false end
  then
    catch
      (c <- lift (subscript data "content") ;;
       raw <- lift (b64decode c) ;;
       ret (true, Some raw))
      (fun _ => ret (false, None))
  else ret (false, None).

Definition op_upload_file (fs : node) (cfg : config) (ans : upload_file_answers)
    : M St unit :=
  let token := cfg_token cfg in
  let owner := cfg_owner cfg in
  let repo := cfg_repo cfg in
  let branch := cfg_branch cfg in
  let local_path := uf_local_path ans in
  if negb (path_exists fs local_path)
     || negb (match lookup fs local_path with Some n => node_is_file n | None => false end)
  then print "File tidak ditemukan." []
  else
  let repo_path := uf_repo_path ans in
  sha <- get_file_sha serve token owner repo (JStr repo_path) branch ;;
  let go :=
    content_b64 <- lift (file_to_base64 fs local_path) ;;
    '(ok, resp) <- create_or_update_file serve token owner repo (JStr repo_path)
                     content_b64 (uf_message ans) branch sha ;;
    if ok : bool
    then print "Berhasil upload {local_path} -> {repo_path}" [APath local_path; AStr repo_path]
    else print "Gagal upload: {resp}" [AJson resp] in
  if truthy sha then
    print "File sudah ada di repo (sha: {sha})." [AJson sha] ;;;
    if negb (uf_overwrite ans) then print "Batal overwrite." [] else go
  else go.

(** The deletion loop of [op_delete] over the gathered paths. *)
Fixpoint delete_each (token owner repo branch msg : string) (file_paths : list json)
    (failures : list (json * json)) : M St (list (json * json)) :=
  match file_paths with
  | [] => ret failures
  | p :: rest =>
      sha <- get_file_sha serve token owner repo p branch ;;
      '(ok2, resp) <- delete_file serve token owner repo p msg branch sha ;;
      if ok2 : bool
      then delete_each token owner repo branch msg rest failures
      else delete_each token owner repo branch msg rest (failures ++ [(p, resp)])
  end.

Fixpoint print_path_failures (failures : list (json * json)) : M St unit :=
  match failures with
  | [] => ret tt
  | (p, r) :: rest => print "- {p}: {r}" [AJson p; AJson r] ;;; print_path_failures rest
  end.

(** [op_delete]; [depth] is the recursion depth left to [gather_rec]. *)
Definition op_delete (depth : nat) (cfg : config) (ans : delete_answers) : M St unit :=
  let token := cfg_token cfg in
  let owner := cfg_owner cfg in
  let repo := cfg_repo cfg in
  let branch := cfg_branch cfg in
  let target := del_target ans in
  if target =? "" then print "Path kosong." [] else
  '(ok, data) <- get_repo_contents serve token owner repo (JStr target) branch ;;
  if negb ok then print "Gagal mengakses path: {data}" [AJson data] else
  if is_file_entry data then
    sha <- lift (dict_get data "sha") ;;
    pth <- lift (dict_get data "path") ;;
    size <- lift (dict_get data "size") ;;
    print "File detected: {data.get('path')} size={data.get('size')}" [AJson pth; AJson size] ;;;
    if del_confirm_file ans then
      '(ok2, resp) <- delete_file serve token owner repo (JStr target) (del_message ans)
                        branch sha ;;
      if ok2 : bool
      then print "File {target} berhasil dihapus." [AStr target]
      else print "Gagal hapus: {resp}" [AJson resp]
    else ret tt
  else
    print "Directory detected. Gathering files under {target}..." [AStr target] ;;;
    file_paths <- gather_rec serve depth token owner repo branch (JStr target) [] ;;
    let total_files := List.length file_paths in
    print "Akan menghapus {total_files} file di bawah '{target}' secara rekursif."
      [ANat total_files; AStr target] ;;;
    if (total_files =? 0)%nat then print "Tidak ada file untuk dihapus." [] else
    if negb (del_confirm_all ans) then print "Dibatalkan." [] else
    failures <- delete_each token owner repo branch (del_message ans) file_paths [] ;;
    print "Selesai. Gagal: {len(failures)}" [ANat (List.length failures)] ;;;
    print_path_failures failures.

Definition op_rename (cfg : config) (ans : rename_answers) : M St unit :=
  let token := cfg_token cfg in
  let owner := cfg_owner cfg in
  let repo := cfg_repo cfg in
  let branch := cfg_branch cfg in
  let old := rn_old ans in
  if old =? "" then print "Path lama kosong." [] else
  '(ok, data) <- get_repo_contents serve token owner repo (JStr old) branch ;;
  if negb ok then print "Gagal mengakses: {data}" [AJson data] else
  if is_file_entry data then
    let new := rn_new ans in
    if new =? "" then print "Path baru kosong." [] else
    '(raw_ok, raw) <- download_file_contents token owner repo (JStr old) branch ;;
    match raw_ok, raw with
    | true, Some raw_bytes =>
        let content_b64 := b64encode raw_bytes in
        sha_new <- get_file_sha serve token owner repo (JStr new) branch ;;
        '(ok2, resp2) <- create_or_update_file serve token owner repo (JStr new)
                           content_b64 (rn_message_create ans) branch sha_new ;;
        if negb ok2 then print "Gagal membuat file baru: {resp2}" [AJson resp2] else
        sha_old <- lift (dict_get data "sha") ;;
        '(ok3, resp3) <- delete_file serve token owner repo (JStr old)
                           (rn_message_delete ans) branch sha_old ;;
        if ok3 : bool
        then print "Rename berhasil: {old} -> {new}" [AStr old; AStr new]
        else print "Buat file baru berhasil tetapi gagal hapus file lama: {resp3}"
               [AJson resp3]
    | _, _ => print "Gagal baca file lama." []
    end
  else print "Path lama bukan file atau tidak ditemukan." [].

End Commands.

Definition created_locked : fs_event :=
  {| is_directory := false; src_path := ["site"; "sub"; "locked"] |}.

Definition created_a : fs_event :=
  {| is_directory := false; src_path := ["site"; "a.txt"] |}.

Definition tree_world : world rnode := {| remote := rtree_pages; log := [] |}.

(** A name a file system gives an entry: a proper name other than [.] and
    [..]. *)
Definition entry_name (s : string) : bool := good_name s && negb (dot_segment s).

(** A local tree whose entries all have such names. *)
Fixpoint proper_node (n : node) : bool :=
  match n with
  | File _ => true
  | Dir ch => forallb (fun nc => entry_name (fst nc) && proper_node (snd nc)) ch
  end.

(** A run from [w] that only read the remote through the contents API, and
    whose result, when it has one, extends the list [acc] it was given. *)
Definition reads_only (St : Type) (token owner repo branch : string)
    (acc : list json) (w : world St) (run : result (list json) * world St) : Prop :=
  exists tr,
    log (snd run) = log w ++ tr /\
    Forall (fun ev => exists p out,
                ev = Call (contents_request token owner repo p branch) out) tr /\
    forall res, fst run = Ret res -> exists more, res = acc ++ more.

(** A remote that accepts every blob: from the states of [Inv] on, each
    blob creation is answered 201 with a JSON object, and leaves the remote
    in [Inv]. *)
Definition accepts_blobs (St : Type) (serve : request -> St -> result response * St)
    (token owner repo : string) (Inv : St -> Prop) : Prop :=
  forall c s, Inv s ->
    exists d s',
      serve (blob_request token owner repo c) s
      = (Ret {| status_code := 201; content := Json (JDict d) |}, s') /\ Inv s'.

(** A request that forces a ref: its payload holds [force: true]. *)
Definition forced (rq : request) : bool :=
  match payload rq with
  | Some (JDict d) =>
      match assoc "force" d with
      | Some (JBool true) => true
      | _ => false
      end
  | _ => false
  end.

(** A request that neither deletes nor forces. *)
Definition safe_request (rq : request) : bool :=
  negb (method rq =? "DELETE") && negb (forced rq).

(** The calls of the per-file loops: lookups and PUTs of file contents. *)
Definition lookup_or_put (ev : event) : Prop :=
  exists rq out, ev = Call rq out /\
                 (method rq = "GET" \/ method rq = "PUT") /\ forced rq = false.

(** The world in which the per-file mode starts its loop: the announcement
    has been printed. *)
Definition upload_start (St : Type) (cfg : config) (ans : upload_answers)
    (files : list path) (w : world St) : world St :=
  printed "Mulai upload {len(files)} file dari {local_folder} -> {repo}/{target_repo_base or '/'} on branch {branch} (mode {mode})"
    [ANat (List.length files); APath (ans_local_folder ans); AStr (cfg_repo cfg);
     AStr (if ans_target_repo_base ans =? "" then "/" else ans_target_repo_base ans);
     AStr (cfg_branch cfg); AStr (ans_mode ans)] w.

(** What the per-file mode prints once its loop is done. *)
Definition per_file_report (successes : nat) (failures : list (path * arg)) : list event :=
  Print "Selesai. Berhasil: {successes}. Gagal: {len(failures)}"
    [ANat successes; ANat (List.length failures)]
  :: match failures with
     | [] => []
     | _ :: _ => Print "List failures:" [] :: failure_lines failures
     end.

Definition ans_git_each : upload_answers :=
  {| ans_local_folder := ["site"; ".git"]; ans_mode := "1";
     ans_target_repo_base := "pages"; ans_message := "msg" |}.

Definition ans_site_each : upload_answers :=
  {| ans_local_folder := ["site"]; ans_mode := "1";
     ans_target_repo_base := "pages"; ans_message := "msg" |}.

(** The request that creates the branch [branch_name] at the commit [sha]. *)
Definition create_ref_request (token owner repo branch_name : string) (sha : json)
    : request :=
  request_for "POST" (EGitRefs owner repo) token
    (Some (JDict [("ref", JStr ("refs/heads/" ++ branch_name)%string); ("sha", sha)])).

(** The runs of [ensure_pages_branch], by the calls made and the result:
    the branch is looked up; when it is there nothing else is done; when it
    is not, the base branch is looked up, and only with its head in hand is
    the new branch posted, at that head; the result then tells whether the
    answer was 201. *)
Inductive branch_run (token owner repo base branch_name : string)
    : list (request * result response) -> result bool -> Prop :=
| branch_looked_up o1 :
    refused_lookup o1 = false ->
    branch_run token owner repo base branch_name
      [(ref_request token owner repo branch_name, o1)]
      (x <-? lookup_reads o1 ;; Ret true)
| base_unusable o1 o2 res :
    refused_lookup o1 = true ->
    ref_head o2 = None ->
    (refused_lookup o2 = true -> res = Ret false) ->
    (refused_lookup o2 = false -> exists e, res = Raise e) ->
    branch_run token owner repo base branch_name
      [(ref_request token owner repo branch_name, o1);
       (ref_request token owner repo base, o2)] res
| branch_posted o1 o2 c o3 :
    refused_lookup o1 = true ->
    ref_head o2 = Some c ->
    branch_run token owner repo base branch_name
      [(ref_request token owner repo branch_name, o1);
       (ref_request token owner repo base, o2);
       (create_ref_request token owner repo branch_name c, o3)]
      (r <-? o3 ;; Ret (status_code r =? 201)%Z).

(** What [create_or_update_file] and [delete_file] make of the transport's
    outcome: the body is read whatever the status, and the status tells
    success. *)
Definition put_reads (out : result response) : result (bool * json) :=
  r <-? out ;;
  j <-? json_or_status r ;;
  Ret ((status_code r =? 200)%Z || (status_code r =? 201)%Z, j).

Definition delete_reads (out : result response) : result (bool * json) :=
  r <-? out ;;
  j <-? json_or_status r ;;
  Ret ((status_code r =? 200)%Z, j).

(** What [get_file_sha] makes of the outcome of its lookup. *)
Definition sha_reads (out : result response) : result json :=
  '(ok, data) <-? lookup_reads out ;;
  if ok && isinstance_dict data then dict_get data "sha" else Ret JNull.

(** The transport answered 200 or 201. *)
Definition created (out : result response) : bool :=
  match out with
  | Ret r => (status_code r =? 200)%Z || (status_code r =? 201)%Z
  | Raise _ => false
  end.

(** A remote that holds files by path, each with a hash and its content in
    base64: the contents API for single files.  A lookup answers with the
    entry of the file, a PUT stores the content it is given, a DELETE
    removes the path. *)
Definition store : Type := list (string * (string * string)).

Fixpoint store_get (p : string) (s : store) : option (string * string) :=
  match s with
  | [] => None
  | (k, f) :: s' => if k =? p then Some f else store_get p s'
  end.

Definition store_remove (p : string) (s : store) : store :=
  filter (fun kf => negb (fst kf =? p)) s.

Definition file_json (p : string) (f : string * string) : json :=
  JDict [("type", JStr "file"); ("path", JStr p); ("sha", JStr (fst f));
         ("size", JNum (Z.of_nat (String.length (snd f)))); ("content", JStr (snd f))].

Definition serve_files (rq : request) (s : store) : result response * store :=
  match url rq with
  | EContents _ _ (Some (JStr p)) _ =>
      match store_get p s with
      | Some f => (Ret (json_response 200 (file_json p f)), s)
      | None => (Ret not_found, s)
      end
  | EContentsFile _ _ (JStr p) =>
      if method rq =? "PUT" then
        match payload rq with
        | Some (JDict d) =>
            match assoc "content" d with
            | Some (JStr c) =>
                (Ret (json_response (match store_get p s with Some _ => 200 | None => 201 end)
                        (JDict [("content", file_json p (("sha:" ++ c)%string, c))])),
                 (p, (("sha:" ++ c)%string, c)) :: store_remove p s)
            | _ => (Ret (json_response 422 (JDict [("message", JStr "bad content")])), s)
            end
        | _ => (Ret (json_response 422 (JDict [("message", JStr "bad content")])), s)
        end
      else if method rq =? "DELETE" then
        match store_get p s with
        | Some _ => (Ret (json_response 200 (JDict [("commit", JDict [])])), store_remove p s)
        | None => (Ret not_found, s)
        end
      else (Ret not_found, s)
  | _ => (Ret not_found, s)
  end.

Definition files_world : world store :=
  {| remote := [("old.txt", ("s1", "aGk=")); ("a.txt", ("s2", "eA=="))]; log := [] |}.

(** The hash [get_file_sha] reads from the outcome of its lookup; [None]
    when it finds none. *)
Definition sha_of (out : result response) : json :=
  match sha_reads out with Ret s => s | Raise _ => JNull end.

(** The two calls the bulk deletion makes for the path [p], with their
    outcomes [o] and [o']: the lookup, and the DELETE with the hash the
    lookup gave. *)
Definition delete_step (token owner repo branch msg : string)
    (x : json * (result response * result response))
    : list (request * result response) :=
  [(contents_request token owner repo (fst x) branch, fst (snd x));
   (delete_request token owner repo (fst x) msg branch (sha_of (fst (snd x))),
    snd (snd x))].

(** What the bulk deletion records for the path: nothing when the DELETE
    was answered 200, the path and the answer otherwise. *)
Definition delete_failure (x : json * (result response * result response))
    : list (json * json) :=
  match delete_reads (snd (snd x)) with
  | Ret (false, resp) => [(fst x, resp)]
  | _ => []
  end.

(** The branch a request writes to, as its payload names it. *)
Definition payload_branch (rq : request) : option json :=
  match payload rq with
  | Some (JDict d) => assoc "branch" d
  | _ => None
  end.

(** The calls of the Pages add: reads, the creation of the Pages branch,
    and PUTs of files to that branch. *)
Definition pages_call (token owner repo pages_branch : string) (rq : request) : Prop :=
  method rq = "GET" \/
  (exists c, rq = create_ref_request token owner repo pages_branch c) \/
  (method rq = "PUT" /\ payload_branch rq = Some (JStr pages_branch)).

Definition ans_rename : rename_answers :=
  {| rn_old := "old.txt"; rn_new := "new.txt";
     rn_message_create := "Rename create new.txt";
     rn_message_delete := "Rename delete old.txt" |}.

(** The blob request of a file, with its outcome; none when the bytes of
    the file cannot be read. *)
Definition blob_call (fs : node) (token owner repo : string)
    (fo : path * result response) : list (request * result response) :=
  match read_bytes fs (fst fo) with
  | Ret d => [(blob_request token owner repo (b64encode d), snd fo)]
  | Raise _ => []
  end.

(** The blob of a file fails: its bytes cannot be read, or its blob request
    is not answered 201 with an object to take the hash from. *)
Definition blob_fails (fs : node) (fo : path * result response) : bool :=
  match read_bytes fs (fst fo) with
  | Raise _ => true
  | Ret _ => match created_sha (snd fo) with Some _ => false | None => true end
  end.

(** A call as the log holds it. *)
Definition call_event (c : request * result response) : event := Call (fst c) (snd c).

(** The two calls a per-file upload makes for a file, with their outcomes:
    the lookup of the file's mapped path on the branch, and the PUT there of
    the file's base64 content, with the hash that lookup gave.  None when
    the path does not map or the bytes cannot be read. *)
Definition upload_step (fs : node) (token owner repo branch message : string)
    (local_folder : path) (target_repo_base : string)
    (x : path * (result response * result response))
    : list (request * result response) :=
  match path_to_repo_path local_folder (fst x) target_repo_base,
        read_bytes fs (fst x) with
  | Ret rp, Ret d =>
      [(contents_request token owner repo (JStr rp) branch, fst (snd x));
       (put_request token owner repo (JStr rp) (b64encode d) message branch
          (sha_of (fst (snd x))), snd (snd x))]
  | _, _ => []
  end.

(** What a per-file upload records for the file: nothing when its PUT was
    answered 200 or 201, the file and the answer otherwise. *)
Definition upload_failure (x : path * (result response * result response))
    : list (path * arg) :=
  match put_reads (snd (snd x)) with
  | Ret (false, resp) => [(fst x, AJson resp)]
  | _ => []
  end.

(** The download read the bytes [raw] from the answer [o] to its lookup:
    the answer is a 200 that holds an object whose [content] is truthy and
    decodes to [raw]. *)
Definition downloaded (b64decode : json -> result string) (o : result response)
    (raw : string) : Prop :=
  exists r d c,
    o = Ret r /\ status_code r = 200%Z /\ content r = Json (JDict d) /\
    assoc "content" d = Some c /\ truthy c = true /\ b64decode c = Ret raw.

(** * Properties *)

(** ** The empty batch *)

(** C8. When the scan of the local folder yields no file, [op_upload_folder]
    (whatever the mode) prints its no-file message and returns: the log gains
    that message and no remote call, and the remote state is untouched. *)
Theorem empty_folder_aborts :
  forall (St : Type) (serve : request -> St -> result response * St)
         (fs : node) (cfg : config) (ans : upload_answers) (w : world St),
    path_exists fs (ans_local_folder ans) = true ->
    is_dir fs (ans_local_folder ans) = true ->
    gather_files_for_folder fs (ans_local_folder ans) None = [] ->
    op_upload_folder serve fs cfg ans w =
      (Ret tt, {| remote := remote w;
                  log := log w ++ [Print "Tidak ada file didalam folder." []] |}).
Proof.
  intros St serve fs cfg ans w Hex Hdir Hnil.
  unfold op_upload_folder.
  rewrite Hex, Hdir, Hnil. reflexivity.
Qed.

Lemma empty_folder_aborts_witness :
  op_upload_folder serve_mock fs_demo cfg_demo
    {| ans_local_folder := ["empty"]; ans_mode := "2";
       ans_target_repo_base := ""; ans_message := "msg" |} mock_demo =
  (Ret tt, {| remote := remote mock_demo;
              log := log mock_demo ++ [Print "Tidak ada file didalam folder." []] |}).
Proof.
  apply empty_folder_aborts; reflexivity.
Defined.

(** ** Remote Content Client *)

Section ClientFacts.

Variable St : Type.
Variable serve : request -> St -> result response * St.

Lemma api_request_run (meth : string) (ep : endpoint) (token : string)
    (js : option json) (w : world St) :
  api_request serve meth ep token js w =
    (fst (serve (request_for meth ep token js) (remote w)),
     served serve (request_for meth ep token js) w).
Proof.
  unfold api_request, request_for, served.
  destruct (serve _ (remote w)) as [out s']. reflexivity.
Qed.

Lemma requests_of_app (l1 l2 : list event) :
  requests_of (l1 ++ l2) = requests_of l1 ++ requests_of l2.
Proof.
  induction l1 as [|[rq out|t a] l1 IH]; simpl; rewrite ?IH; reflexivity.
Qed.

(** Once the transport has answered, a wrapper only reads the response. *)

Ltac wrapper_world :=
  intros;
  unfold get_repo_contents, get_ref, create_or_update_file, delete_file,
    create_blob, create_tree, create_commit, update_ref, on_status, bind, lift, ret;
  rewrite api_request_run;
  match goal with
  | |- context [fst (serve ?rq ?s)] => destruct (fst (serve rq s)) as [? | ?]
  end;
  [ unfold json_or_status, r_content, r_json;
    match goal with
    | |- context [content ?r] => destruct (content r)
    end;
    repeat match goal with
           | |- context [(?a =? ?b)%Z] => destruct (a =? b)%Z
           end;
    reflexivity
  | reflexivity ].

Lemma get_repo_contents_world token owner repo pth branch (w : world St) :
  snd (get_repo_contents serve token owner repo pth branch w)
  = served serve (contents_request token owner repo pth branch) w.
Proof. wrapper_world. Qed.

Lemma get_ref_world token owner repo branch (w : world St) :
  snd (get_ref serve token owner repo branch w)
  = served serve (ref_request token owner repo branch) w.
Proof. wrapper_world. Qed.

Lemma create_or_update_file_world token owner repo pth c m branch sha (w : world St) :
  snd (create_or_update_file serve token owner repo pth c m branch sha w)
  = served serve (put_request token owner repo pth c m branch sha) w.
Proof. wrapper_world. Qed.

Lemma delete_file_world token owner repo pth m branch sha (w : world St) :
  snd (delete_file serve token owner repo pth m branch sha w)
  = served serve (delete_request token owner repo pth m branch sha) w.
Proof. wrapper_world. Qed.

Lemma create_blob_world token owner repo c (w : world St) :
  snd (create_blob serve token owner repo c "base64" w)
  = served serve (blob_request token owner repo c) w.
Proof. wrapper_world. Qed.

Lemma create_tree_world token owner repo tree base (w : world St) :
  snd (create_tree serve token owner repo tree base w)
  = served serve (tree_request token owner repo tree base) w.
Proof. wrapper_world. Qed.

Lemma create_commit_world token owner repo m t ps (w : world St) :
  snd (create_commit serve token owner repo m t ps w)
  = served serve (commit_request token owner repo m t ps) w.
Proof. wrapper_world. Qed.

Lemma update_ref_world token owner repo branch c force (w : world St) :
  snd (update_ref serve token owner repo branch c force w)
  = served serve (update_ref_request token owner repo branch c force) w.
Proof. wrapper_world. Qed.

Lemma get_file_sha_world token owner repo pth branch (w : world St) :
  snd (get_file_sha serve token owner repo pth branch w)
  = served serve (contents_request token owner repo pth branch) w.
Proof.
  unfold get_file_sha, bind.
  pose proof (get_repo_contents_world token owner repo pth branch w) as H.
  destruct (get_repo_contents serve token owner repo pth branch w) as [[[ok d]|e] w'];
    cbn [snd] in H; subst w'; [|reflexivity].
  destruct (ok && isinstance_dict d); unfold lift, ret; reflexivity.
Qed.

End ClientFacts.

Lemma calls_of_app (l1 l2 : list event) :
  calls_of (l1 ++ l2) = calls_of l1 ++ calls_of l2.
Proof.
  induction l1 as [|[rq out|t a] l1 IH]; simpl; rewrite ?IH; reflexivity.
Qed.

Lemma requests_of_calls (l : list event) : requests_of l = map fst (calls_of l).
Proof.
  induction l as [|[rq out|t a] l IH]; simpl; rewrite ?IH; reflexivity.
Qed.

(** ** Running the monad *)

Lemma bind_run (St A B : Type) (m : M St A) (k : A -> M St B) (w : world St) :
  bind m k w = match m w with
               | (Ret a, w') => k a w'
               | (Raise e, w') => (Raise e, w')
               end.
Proof. reflexivity. Qed.

Lemma bind_lift (St A B : Type) (r : result A) (k : A -> M St B) (w : world St) :
  bind (lift r) k w = match r with Ret a => k a w | Raise e => (Raise e, w) end.
Proof. unfold bind, lift. destruct r; reflexivity. Qed.

Lemma bind_print (St B : Type) (text : string) (args : list arg) (k : unit -> M St B)
    (w : world St) :
  bind (print text args) k w = k tt (printed text args w).
Proof. reflexivity. Qed.

(** ** The client operations, by the outcome of their call *)

Section ClientRuns.

Variable St : Type.
Variable serve : request -> St -> result response * St.

Lemma get_repo_contents_run token owner repo pth branch (w : world St) :
  get_repo_contents serve token owner repo pth branch w
  = (lookup_reads (fst (serve (contents_request token owner repo pth branch) (remote w))),
     served serve (contents_request token owner repo pth branch) w).
Proof.
  unfold get_repo_contents, bind, lift, ret, lookup_reads, rbind, contents_request.
  rewrite api_request_run.
  match goal with
  | |- context [fst (serve ?rq ?s)] => destruct (fst (serve rq s)) as [r|e]
  end; [|reflexivity].
  unfold r_json. destruct (content r); destruct (status_code r =? 200)%Z; reflexivity.
Qed.

Lemma create_blob_run token owner repo (c : string) (w : world St) :
  create_blob serve token owner repo c "base64" w
  = (status_reads 201 (fst (serve (blob_request token owner repo c) (remote w))),
     served serve (blob_request token owner repo c) w).
Proof.
  unfold create_blob, on_status, bind, lift, ret, status_reads, rbind, blob_request.
  rewrite api_request_run.
  match goal with
  | |- context [fst (serve ?rq ?s)] => destruct (fst (serve rq s)) as [r|e]
  end; [|reflexivity].
  unfold json_or_status, r_content, r_json.
  destruct (content r); destruct (status_code r =? 201)%Z; reflexivity.
Qed.

Lemma create_or_update_file_run token owner repo pth c m branch sha (w : world St) :
  create_or_update_file serve token owner repo pth c m branch sha w
  = (put_reads (fst (serve (put_request token owner repo pth c m branch sha) (remote w))),
     served serve (put_request token owner repo pth c m branch sha) w).
Proof.
  unfold create_or_update_file, put_reads, put_request.
  rewrite bind_run, api_request_run.
  match goal with
  | |- context [fst (serve ?rq ?s)] => destruct (fst (serve rq s)) as [r|e]
  end; [|reflexivity].
  rewrite bind_lift. unfold rbind. destruct (json_or_status r); reflexivity.
Qed.

Lemma delete_file_run token owner repo pth m branch sha (w : world St) :
  delete_file serve token owner repo pth m branch sha w
  = (delete_reads (fst (serve (delete_request token owner repo pth m branch sha) (remote w))),
     served serve (delete_request token owner repo pth m branch sha) w).
Proof.
  unfold delete_file, delete_reads, delete_request.
  rewrite bind_run, api_request_run.
  match goal with
  | |- context [fst (serve ?rq ?s)] => destruct (fst (serve rq s)) as [r|e]
  end; [|reflexivity].
  rewrite bind_lift. unfold rbind. destruct (json_or_status r); reflexivity.
Qed.

Lemma get_file_sha_run token owner repo pth branch (w : world St) :
  get_file_sha serve token owner repo pth branch w
  = (sha_reads (fst (serve (contents_request token owner repo pth branch) (remote w))),
     served serve (contents_request token owner repo pth branch) w).
Proof.
  unfold get_file_sha, sha_reads.
  rewrite bind_run, get_repo_contents_run. unfold rbind.
  destruct (lookup_reads _) as [[ok d]|e]; [|reflexivity].
  destruct (ok && isinstance_dict d); reflexivity.
Qed.

End ClientRuns.

Section ClientResults.

Variable St : Type.
Variable serve : request -> St -> result response * St.

Ltac client_run :=
  intros;
  unfold client_result, get_repo_contents, get_ref, create_or_update_file,
    delete_file, create_blob, create_tree, create_commit, update_ref,
    on_status, bind, lift, ret;
  rewrite api_request_run; unfold served;
  match goal with
  | |- context [serve ?rq ?s] =>
      exists rq, (fst (serve rq s)); destruct (serve rq s) as [[? | ?] ?]
  end;
  cbn [fst snd log remote];
  [ unfold json_or_message, json_or_status, r_content, r_json;
    match goal with
    | |- context [content ?r] => destruct (content r)
    end;
    repeat match goal with
           | |- context [(?a =? ?b)%Z] => destruct (a =? b)%Z
           end;
    cbn; (split; [reflexivity|]);
    (split;
     [ let Hj := fresh in
       intros ? Hj; try discriminate Hj; inversion Hj; subst; reflexivity
     | let Hg := fresh in let Hs := fresh in
       intros Hg Hs; try discriminate Hg; try discriminate Hs; eexists; reflexivity ])
  | split; reflexivity ].

(** C2, as the code has it.  Every wrapper of the client makes exactly one
    call.  When the transport answers with a response whose body is JSON, the
    wrapper returns the explicit pair (status test, decoded body);
    [get_repo_contents] and [get_ref] also return a failure pair for any
    other status than 200, whatever the body.  When the transport raises (a
    network-level error), nothing catches it: [api_request] and every wrapper
    raise that same exception to the caller. *)
Theorem client_operations_results :
  forall (w : world St),
    (forall meth ep token js,
        api_request serve meth ep token js w =
          (fst (serve (request_for meth ep token js) (remote w)),
           served serve (request_for meth ep token js) w)) /\
    (forall token owner repo pth branch,
        client_result true (fun c => (c =? 200)%Z) w
          (get_repo_contents serve token owner repo pth branch w)) /\
    (forall token owner repo branch,
        client_result true (fun c => (c =? 200)%Z) w
          (get_ref serve token owner repo branch w)) /\
    (forall token owner repo pth content_b64 message branch sha,
        client_result false (fun c => (c =? 200)%Z || (c =? 201)%Z) w
          (create_or_update_file serve token owner repo pth content_b64 message branch sha w)) /\
    (forall token owner repo pth message branch sha,
        client_result false (fun c => (c =? 200)%Z) w
          (delete_file serve token owner repo pth message branch sha w)) /\
    (forall token owner repo content_b64 encoding,
        client_result false (fun c => (c =? 201)%Z) w
          (create_blob serve token owner repo content_b64 encoding w)) /\
    (forall token owner repo tree base_tree,
        client_result false (fun c => (c =? 201)%Z) w
          (create_tree serve token owner repo tree base_tree w)) /\
    (forall token owner repo message tree_sha parents,
        client_result false (fun c => (c =? 201)%Z) w
          (create_commit serve token owner repo message tree_sha parents w)) /\
    (forall token owner repo branch commit_sha force,
        client_result false (fun c => (c =? 200)%Z) w
          (update_ref serve token owner repo branch commit_sha force w)).
Proof.
  intros w.
  split; [intros; apply api_request_run|].
  repeat split; client_run.
Qed.

End ClientResults.

(** C2, the claim as stated fails: with the network down, [get_ref] (like
    [api_request] under it) hands no result value to its caller, it raises
    [ConnectionError] across the client boundary. *)
Lemma client_raises_on_network_error :
  fst (api_request serve_down "GET" (EGitRef "o" "r" "main") "t" None
         {| remote := tt; log := [] |}) = Raise ConnectionError /\
  fst (get_ref serve_down "t" "o" "r" "main" {| remote := tt; log := [] |})
    = Raise ConnectionError /\
  forall v, fst (get_ref serve_down "t" "o" "r" "main" {| remote := tt; log := [] |})
            <> Ret v.
Proof.
  repeat split. intros v H. discriminate H.
Qed.

(** ** The version-token lookup *)

(** C10, as the code has it.  [get_file_sha] makes one GET of the path.  It
    returns [None] for every response whose status is not 200 (missing path,
    conflict, any HTTP error, whatever the body) and for a 200 response whose
    JSON is not an object (a directory listing); for a 200 object it returns
    the object's [sha] entry ([None] when there is none).  A transport that
    raises is not turned into [None]: the exception passes through, as does
    the decoding error of a 200 response whose body is not JSON. *)
Theorem get_file_sha_outcomes :
  forall (St : Type) (serve : request -> St -> result response * St)
         (token owner repo : string) (pth : json) (branch : string) (w : world St),
    let rq := contents_request token owner repo pth branch in
    let res := fst (get_file_sha serve token owner repo pth branch w) in
    snd (get_file_sha serve token owner repo pth branch w) = served serve rq w /\
    match fst (serve rq (remote w)) with
    | Raise e => res = Raise e
    | Ret r =>
        if (status_code r =? 200)%Z then
          match content r with
          | Json (JDict d) =>
              res = Ret (match assoc "sha" d with Some v => v | None => JNull end)
          | Json _ => res = Ret JNull
          | _ => res = Raise JSONDecodeError
          end
        else res = Ret JNull
    end.
Proof.
  intros St serve token owner repo pth branch w rq res.
  split; [apply get_file_sha_world|].
  subst res. unfold get_file_sha, get_repo_contents, bind, lift, ret.
  rewrite api_request_run. fold (contents_request token owner repo pth branch). fold rq.
  destruct (fst (serve rq (remote w))) as [r|e]; cbn [fst snd].
  - destruct (status_code r =? 200)%Z.
    + unfold r_json. destruct (content r) as [|j|t]; cbn; auto.
      destruct j; cbn; auto.
    + cbn. auto.
  - auto.
Qed.

(** C10, the claim as stated fails: a lookup that fails at the transport does
    not come back as [None]; [get_file_sha] raises, and [on_deleted] then
    reports an error instead of its file-not-found warning, so this caller
    does tell the failed lookup from an absent file. *)
Lemma get_file_sha_raises_on_network_error :
  fst (get_file_sha serve_down "t" "o" "r" (JStr "a.txt") "main"
         {| remote := tt; log := [] |}) = Raise ConnectionError /\
  fst (get_file_sha serve_down "t" "o" "r" (JStr "a.txt") "main"
         {| remote := tt; log := [] |}) <> Ret JNull /\
  In (Print "Error on deleted: {e}" [AExn ConnectionError])
     (log (snd (on_deleted serve_down markup_any
                  (SyncEventHandler_init cfg_demo ["site"] "" "gh-pages")
                  {| is_directory := false; src_path := ["site"; "a.txt"] |}
                  {| remote := tt; log := [] |}))).
Proof.
  repeat split.
  - intros H. discriminate H.
  - cbn. auto.
Qed.

(** ** Filesystem Watch Sync Loop *)


(** ** Path mapping *)

Section PathFacts.

Lemma drop_base_app (base rel : path) : drop_base (base ++ rel) base = Ret rel.
Proof.
  induction base as [|b base IH]; simpl.
  - destruct rel; reflexivity.
  - rewrite String.eqb_refl. exact IH.
Qed.

Lemma relative_to_app (base rel : path) :
  (base = [] -> anchored rel = false) ->
  relative_to (base ++ rel) base = Ret rel.
Proof.
  intros H. unfold relative_to. destruct base as [|b base].
  - cbn [app]. rewrite (H eq_refl). reflexivity.
  - apply (drop_base_app (b :: base)).
Qed.

Lemma relative_to_app_ret (base rel r : path) :
  relative_to (base ++ rel) base = Ret r -> r = rel.
Proof.
  unfold relative_to. destruct base as [|b base].
  - cbn [app]. destruct (anchored rel); [discriminate|]. intros H. inversion H. reflexivity.
  - rewrite (drop_base_app (b :: base)). intros H. inversion H. reflexivity.
Qed.

Lemma has_slash_anchored (x : string) (rel : path) :
  has_slash x = false -> anchored (x :: rel) = false.
Proof.
  destruct x as [|c x]; [reflexivity|]. cbn [has_slash anchored].
  intros H. apply orb_false_iff in H. apply H.
Qed.

Lemma good_name_anchored (x : string) (rel : path) :
  good_name x = true -> anchored (x :: rel) = false.
Proof.
  unfold good_name. intros H. apply andb_prop in H. destruct H as [_ H].
  apply negb_true_iff in H. apply has_slash_anchored. exact H.
Qed.

Lemma good_names_anchored (rel : path) :
  Forall (fun p => good_name p = true) rel -> anchored rel = false.
Proof.
  intros H. destruct H as [|x rel Hx _]; [reflexivity|].
  apply good_name_anchored. exact Hx.
Qed.

Lemma split_slash_cons (s : string) : exists seg segs, split_slash s = seg :: segs.
Proof.
  induction s as [|c s [seg [segs IH]]]; simpl.
  - eauto.
  - destruct (is_slash c); [eauto|]. rewrite IH. eauto.
Qed.

Lemma split_slash_app (a b : string) :
  split_slash (a ++ String "/" b) = split_slash a ++ split_slash b.
Proof.
  induction a as [|c a IH]; simpl.
  - reflexivity.
  - destruct (is_slash c).
    + rewrite IH. reflexivity.
    + rewrite IH. destruct (split_slash_cons a) as [seg [segs E]]. rewrite E.
      reflexivity.
Qed.

Lemma split_slash_name (s : string) : has_slash s = false -> split_slash s = [s].
Proof.
  induction s as [|c s IH]; simpl; intros H.
  - reflexivity.
  - apply orb_false_iff in H. destruct H as [Hc Hs].
    rewrite Hc, (IH Hs). reflexivity.
Qed.

Lemma split_join_slash (p : string) (ps : list string) :
  Forall (fun x => has_slash x = false) (p :: ps) ->
  split_slash (join_slash (p :: ps)) = p :: ps.
Proof.
  revert p. induction ps as [|q ps IH]; intros p H.
  - simpl. apply split_slash_name. inversion H; assumption.
  - inversion H as [|x l Hp Hrest]; subst.
    change (join_slash (p :: q :: ps)) with (p ++ String "/" (join_slash (q :: ps)))%string.
    rewrite split_slash_app, (IH q Hrest), (split_slash_name _ Hp). reflexivity.
Qed.

Lemma leading_slash_lstrip (s : string) : leading_slash (lstrip_slash s) = false.
Proof.
  induction s as [|c s IH]; simpl; auto.
  destruct (is_slash c) eqn:E; [exact IH|]. simpl. exact E.
Qed.

Lemma leading_slash_rstrip (s : string) :
  leading_slash s = false -> leading_slash (rstrip_slash s) = false.
Proof.
  destruct s as [|c s]; simpl; intros H; auto.
  destruct (rstrip_slash s); simpl; rewrite ?H; auto.
Qed.

Lemma leading_slash_strip (s : string) : leading_slash (strip_slash s) = false.
Proof.
  unfold strip_slash. apply leading_slash_rstrip, leading_slash_lstrip.
Qed.

Lemma leading_slash_append (a b : string) :
  a <> "" -> leading_slash (a ++ b) = leading_slash a.
Proof.
  destruct a; simpl; intros H; [contradiction H|]; reflexivity.
Qed.

Lemma leading_slash_name (s : string) : has_slash s = false -> leading_slash s = false.
Proof.
  destruct s as [|c s]; simpl; intros H; auto.
  apply orb_false_iff in H. tauto.
Qed.

Lemma good_name_parts (s : string) :
  good_name s = true -> s <> "" /\ has_slash s = false.
Proof.
  unfold good_name. intros H. apply andb_true_iff in H. destruct H as [H1 H2].
  apply negb_true_iff in H1, H2. split; [|assumption].
  intros ->. discriminate H1.
Qed.

Lemma dot_segment_filter (rel : path) :
  Forall (fun seg => dot_segment seg = false)
         (filter (fun p => negb (dot_segment p)) rel).
Proof.
  apply Forall_forall. intros x Hx. apply filter_In in Hx.
  destruct Hx as [_ Hx]. apply negb_true_iff in Hx. exact Hx.
Qed.

Lemma join_slash_cons (p : string) (ps : list string) :
  ps <> [] -> join_slash (p :: ps) = (p ++ String "/" (join_slash ps))%string.
Proof.
  destruct ps; [intros H; contradiction H; reflexivity|]. reflexivity.
Qed.

End PathFacts.

(** C4, the claim as stated fails: the remote base prefix is only stripped of
    its outer slashes, its own segments are not normalised, so a base of
    [..] comes out as the first segment of the result. *)
Lemma path_mapping_keeps_dots_of_base :
  path_to_repo_path ["site"] ["site"; "a.txt"] ".." = Ret "../a.txt" /\
  In ".." (split_slash "../a.txt") /\
  ~ no_dot_segment "../a.txt".
Proof.
  repeat split.
  - simpl. auto.
  - unfold no_dot_segment. simpl. intros H. inversion H as [|x l Hd _]; subst.
    discriminate Hd.
Qed.

(** C4, as the code has it.  For a file path under the local root (its parts
    below the root being proper names, as [pathlib] gives them) and a remote
    base that is empty, or that has something left once its outer slashes
    are stripped and has no [.] or [..] segment itself, [path_to_repo_path]
    returns the slash-joined path of the stripped base and of the parts that
    are not [.] or [..]; that path has no [.] or [..] segment and no leading
    slash; and the result is a function of the three inputs. *)
Theorem path_mapping_normalized :
  forall (local_base rel : path) (repo_base : string),
    Forall (fun p => good_name p = true) rel ->
    repo_base = "" \/
      (strip_slash repo_base <> "" /\ no_dot_segment (strip_slash repo_base)) ->
    exists r,
      path_to_repo_path local_base (local_base ++ rel) repo_base = Ret r /\
      r = join_slash ((if repo_base =? "" then [] else [strip_slash repo_base])
                      ++ filter (fun p => negb (dot_segment p)) rel) /\
      no_dot_segment r /\
      leading_slash r = false /\
      forall r', path_to_repo_path local_base (local_base ++ rel) repo_base = Ret r' ->
                 r' = r.
Proof.
  intros local_base rel repo_base Hrel Hbase.
  unfold path_to_repo_path.
  rewrite relative_to_app by (intros _; apply good_names_anchored; exact Hrel).
  cbn [rbind].
  set (parts := filter (fun p => negb (dot_segment p)) rel).
  assert (Hdots : Forall (fun seg => dot_segment seg = false) parts)
    by apply dot_segment_filter.
  assert (Hgood : Forall (fun p => good_name p = true) parts).
  { apply Forall_forall. intros x Hx. apply filter_In in Hx.
    rewrite Forall_forall in Hrel. apply Hrel. tauto. }
  assert (Hns : Forall (fun x => has_slash x = false) parts).
  { eapply Forall_impl; [|exact Hgood]. intros a Ha.
    apply good_name_parts in Ha. tauto. }
  destruct Hbase as [-> | [Hne Hnd]].
  - (* no remote base *)
    cbn [String.eqb negb app].
    exists (join_slash parts). split; [reflexivity|]. split; [reflexivity|].
    split; [|split; [|intros r' H; inversion H; reflexivity]].
    + unfold no_dot_segment. destruct parts as [|p ps].
      * simpl. constructor; [reflexivity|constructor].
      * rewrite split_join_slash by assumption. assumption.
    + destruct parts as [|p ps]; [reflexivity|].
      inversion Hgood as [|x l Hp _]; subst. apply good_name_parts in Hp.
      destruct Hp as [Hp1 Hp2].
      destruct ps as [|q ps].
      * simpl. apply leading_slash_name; assumption.
      * rewrite join_slash_cons by discriminate.
        rewrite leading_slash_append by assumption.
        apply leading_slash_name; assumption.
  - (* a remote base *)
    assert (Hb : (repo_base =? "") = false).
    { apply String.eqb_neq. intros ->. apply Hne. reflexivity. }
    rewrite Hb. cbn [negb app].
    exists (join_slash (strip_slash repo_base :: parts)).
    split; [reflexivity|]. split; [reflexivity|].
    split; [|split; [|intros r' H; inversion H; reflexivity]].
    + unfold no_dot_segment in *. destruct parts as [|p ps].
      * simpl. assumption.
      * rewrite join_slash_cons by discriminate.
        rewrite split_slash_app, split_join_slash by assumption.
        apply Forall_app. split; assumption.
    + destruct parts as [|p ps].
      * simpl. apply leading_slash_strip.
      * rewrite join_slash_cons by discriminate.
        rewrite leading_slash_append by assumption.
        apply leading_slash_strip.
Qed.

Lemma path_mapping_normalized_witness :
  exists r,
    path_to_repo_path ["site"] (["site"] ++ ["sub"; ".."; "b.txt"]) "/docs/v1/" = Ret r /\
    r = "docs/v1/sub/b.txt" /\
    no_dot_segment r /\
    leading_slash r = false /\
    forall r', path_to_repo_path ["site"] (["site"] ++ ["sub"; ".."; "b.txt"]) "/docs/v1/"
               = Ret r' -> r' = r.
Proof.
  apply (@path_mapping_normalized ["site"] ["sub"; ".."; "b.txt"] "/docs/v1/").
  - repeat constructor.
  - right. split; [discriminate|]. unfold no_dot_segment. simpl. repeat constructor.
Defined.

(** The prefix is tested before it is stripped: a base made of slashes only
    passes the test, strips to nothing, and leaves a leading slash in the
    result.  ([SyncEventHandler] strips first and tests afterwards.) *)
Example path_mapping_slash_base :
  path_to_repo_path ["site"] ["site"; "a.txt"] "/" = Ret "/a.txt" /\
  _repo_path (SyncEventHandler_init cfg_demo ["site"] "/" "gh-pages") ["site"; "a.txt"]
    = Ret "a.txt".
Proof. split; reflexivity. Qed.

(** ** Local Tree Scanner *)

Section ScannerFacts.

Lemma node_nested_ind (P : node -> Prop) :
  (forall d, P (File d)) ->
  (forall ch, Forall (fun nc => P (snd nc)) ch -> P (Dir ch)) ->
  forall n, P n.
Proof.
  intros HF HD. fix IH 1. intros [d|ch].
  - apply HF.
  - apply HD. induction ch as [|nc ch IHch]; constructor.
    + apply IH.
    + exact IHch.
Qed.

Lemma in_parts_In (part : string) (p : path) : in_parts part p = true <-> In part p.
Proof.
  unfold in_parts. rewrite existsb_exists. split.
  - intros [x [Hx E]]. apply String.eqb_eq in E. subst. exact Hx.
  - intros H. exists part. split; [exact H|apply String.eqb_refl].
Qed.

Lemma file_at_nil (n : node) : file_at n [] = false.
Proof. destruct n; reflexivity. Qed.

(** What [rglob] yields that is a file, is what [file_at] finds. *)
Lemma rglob_file_at_1 (n : node) :
  forall at_ p nd,
    In (p, nd) (rglob at_ n) -> node_is_file nd = true ->
    exists rel, p = at_ ++ rel /\ file_at n rel = true.
Proof.
  induction n as [d|ch IH] using node_nested_ind; intros at_ p nd Hin Hf.
  - destruct Hin.
  - simpl in Hin. apply in_app_or in Hin. destruct Hin as [Hin|Hin].
    + apply in_map_iff in Hin. destruct Hin as [[name c] [E Hc]].
      cbn [fst snd] in E. inversion E; subst.
      exists [name]. split; [reflexivity|].
      simpl. apply existsb_exists. exists (name, nd). split; [exact Hc|].
      cbn [fst snd]. rewrite String.eqb_refl, Hf. reflexivity.
    + apply in_flat_map in Hin. destruct Hin as [[name c] [Hc Hin]].
      cbn [fst snd] in Hin. rewrite Forall_forall in IH.
      destruct (IH (name, c) Hc (at_ ++ [name]) p nd Hin Hf) as [rel [E Hrel]].
      exists (name :: rel). split.
      * rewrite E, <- app_assoc. reflexivity.
      * destruct rel as [|x rel]; [rewrite file_at_nil in Hrel; discriminate|].
        cbn [file_at]. apply existsb_exists. exists (name, c). split; [exact Hc|].
        cbn [fst snd]. rewrite String.eqb_refl. exact Hrel.
Qed.

Lemma rglob_file_at_2 (rel : path) :
  forall n at_,
    file_at n rel = true ->
    exists nd, In (at_ ++ rel, nd) (rglob at_ n) /\ node_is_file nd = true.
Proof.
  induction rel as [|name rel IH]; intros n at_ H.
  - rewrite file_at_nil in H. discriminate.
  - destruct n as [d|ch]; [discriminate|].
    cbn [file_at] in H. apply existsb_exists in H.
    destruct H as [[name' c] [Hc H]]. cbn [fst snd] in H.
    apply andb_true_iff in H. destruct H as [E H].
    apply String.eqb_eq in E. subst name'.
    destruct rel as [|x rel].
    + exists c. split; [|exact H]. simpl. apply in_or_app. left.
      apply in_map_iff. exists (name, c). split; [reflexivity|exact Hc].
    + destruct (IH c (at_ ++ [name]) H) as [nd [Hin Hf]].
      exists nd. split; [|exact Hf]. simpl. apply in_or_app. right.
      apply in_flat_map. exists (name, c). split; [exact Hc|].
      cbn [fst snd]. rewrite <- app_assoc in Hin. exact Hin.
Qed.

Lemma distinct_child (ch : list (string * node)) (name : string) (c : node) :
  distinct (map fst ch) = true ->
  (child name ch = Some c <-> In (name, c) ch).
Proof.
  induction ch as [|[n x] ch IH]; simpl; intros Hd.
  - split; [discriminate|tauto].
  - apply andb_true_iff in Hd. destruct Hd as [Hn Hd].
    apply negb_true_iff in Hn.
    destruct (name =? n) eqn:E.
    + apply String.eqb_eq in E. subst n. split.
      * intros H. inversion H. left. reflexivity.
      * intros [H|H]; [inversion H; reflexivity|].
        exfalso. assert (Hex : existsb (fun y => name =? y) (map fst ch) = true).
        { apply existsb_exists. exists name. split; [|apply String.eqb_refl].
          apply in_map_iff. exists (name, c). split; [reflexivity|exact H]. }
        rewrite Hex in Hn. discriminate.
    + rewrite (IH Hd). split; [tauto|].
      intros [H|H]; [|exact H]. inversion H; subst.
      rewrite String.eqb_refl in E. discriminate.
Qed.

(** In a file system, [file_at] is the lookup of a file. *)
Lemma file_at_lookup (rel : path) :
  forall n, wf_node n = true ->
            (file_at n rel = true <->
             rel <> [] /\ exists d, lookup n rel = Some (File d)).
Proof.
  induction rel as [|name rel IH]; intros n Hwf.
  - rewrite file_at_nil. split; [discriminate|]. intros [H _]. contradiction H; reflexivity.
  - destruct n as [d|ch].
    + simpl. split; [discriminate|]. intros [_ [d' H]]. discriminate.
    + cbn [wf_node] in Hwf. apply andb_true_iff in Hwf. destruct Hwf as [Hd Hall].
      rewrite forallb_forall in Hall.
      cbn [file_at lookup]. rewrite existsb_exists. split.
      * intros [[name' c] [Hc H]]. cbn [fst snd] in H.
        apply andb_true_iff in H. destruct H as [E H].
        apply String.eqb_eq in E. subst name'.
        split; [discriminate|].
        rewrite (proj2 (distinct_child ch name c Hd) Hc).
        destruct rel as [|x rel].
        -- destruct c; [eexists; reflexivity|discriminate].
        -- apply (IH c (Hall (name, c) Hc)) in H. tauto.
      * intros [_ [d H]].
        destruct (child name ch) as [c|] eqn:Ec; [|discriminate].
        apply (distinct_child ch name c Hd) in Ec.
        exists (name, c). split; [exact Ec|]. cbn [fst snd].
        rewrite String.eqb_refl. cbn [andb].
        destruct rel as [|x rel].
        -- simpl in H. inversion H. reflexivity.
        -- apply (IH c (Hall (name, c) Ec)). split; [discriminate|eauto].
Qed.

Lemma lookup_app (fs : node) (folder rel : path) (n : node) :
  lookup fs folder = Some n -> lookup fs (folder ++ rel) = lookup n rel.
Proof.
  revert fs. induction folder as [|name folder IH]; intros fs H.
  - simpl in H. inversion H. reflexivity.
  - simpl in *. destruct fs as [d|ch]; [discriminate|].
    destruct (child name ch); [|discriminate]. apply IH. exact H.
Qed.

(** The scan, by membership. *)
Lemma gather_files_In (fs : node) (folder : path) (n : node)
    (skip_patterns : option (list string)) (p : path) :
  lookup fs folder = Some n ->
  (In p (gather_files_for_folder fs folder skip_patterns) <->
   (exists rel, p = folder ++ rel /\ file_at n rel = true) /\
   forall part, In part (match skip_patterns with Some l => l | None => [] end) ->
                ~ In part p).
Proof.
  intros Hn. unfold gather_files_for_folder. rewrite Hn.
  set (skip := match skip_patterns with Some l => l | None => [] end).
  rewrite in_map_iff. split.
  - intros [[p' nd] [E Hin]]. cbn [fst] in E. subst p'.
    apply filter_In in Hin. destruct Hin as [Hin H]. cbn [fst snd] in H.
    apply andb_true_iff in H. destruct H as [Hf Hs].
    split; [eapply rglob_file_at_1; eassumption|].
    intros part Hpart Hp. apply negb_true_iff in Hs.
    assert (Hex : existsb (fun part => in_parts part p) skip = true).
    { apply existsb_exists. exists part. split; [exact Hpart|].
      apply in_parts_In. exact Hp. }
    rewrite Hex in Hs. discriminate.
  - intros [[rel [E Hrel]] Hskip]. subst p.
    destruct (rglob_file_at_2 rel n folder Hrel) as [nd [Hin Hf]].
    exists (folder ++ rel, nd). split; [reflexivity|].
    apply filter_In. split; [exact Hin|]. cbn [fst snd]. rewrite Hf. cbn [andb].
    apply negb_true_iff. destruct (existsb _ skip) eqn:Hex; [|reflexivity].
    apply existsb_exists in Hex. destruct Hex as [part [Hpart Hp]].
    apply in_parts_In in Hp. exfalso. exact (Hskip part Hpart Hp).
Qed.

End ScannerFacts.

(** C5. For a folder of the local tree and an ignore set, a path is in the
    output of [gather_files_for_folder] exactly when it names a file beneath
    the folder and no part of it (the parts of the path as the scan yields
    it: the folder's own parts, then the parts below it) is a member of the
    ignore set.  Whatever is in the output is a file, never a directory. *)
Theorem scan_ignore_correct :
  forall (fs : node) (folder : path) (n : node)
         (skip_patterns : option (list string)) (p : path),
    lookup fs folder = Some n ->
    wf_node n = true ->
    (In p (gather_files_for_folder fs folder skip_patterns) <->
     (exists rel d, rel <> [] /\ p = folder ++ rel /\ lookup fs p = Some (File d)) /\
     forall part, In part (match skip_patterns with Some l => l | None => [] end) ->
                  ~ In part p) /\
    (In p (gather_files_for_folder fs folder skip_patterns) -> is_dir fs p = false).
Proof.
  intros fs folder n skip_patterns p Hn Hwf.
  assert (Hiff : In p (gather_files_for_folder fs folder skip_patterns) <->
     (exists rel d, rel <> [] /\ p = folder ++ rel /\ lookup fs p = Some (File d)) /\
     forall part, In part (match skip_patterns with Some l => l | None => [] end) ->
                  ~ In part p).
  { rewrite (gather_files_In fs folder skip_patterns p Hn). split.
    - intros [[rel [E Hrel]] Hskip]. split; [|exact Hskip].
      apply (file_at_lookup rel n Hwf) in Hrel. destruct Hrel as [Hne [d Hd]].
      exists rel, d. subst p. rewrite (lookup_app fs folder rel Hn). auto.
    - intros [[rel [d [Hne [E Hd]]]] Hskip]. split; [|exact Hskip].
      exists rel. split; [exact E|]. apply (file_at_lookup rel n Hwf).
      split; [exact Hne|]. exists d. subst p.
      rewrite (lookup_app fs folder rel Hn) in Hd. exact Hd. }
  split; [exact Hiff|].
  intros Hin. apply Hiff in Hin. destruct Hin as [[rel [d [_ [_ Hd]]]] _].
  unfold is_dir. rewrite Hd. reflexivity.
Qed.

Lemma scan_ignore_correct_witness :
  (In ["site"; "sub"; "b.txt"] (gather_files_for_folder fs_demo ["site"] (Some [".git"])) <->
   (exists rel d, rel <> [] /\ ["site"; "sub"; "b.txt"] = ["site"] ++ rel
                  /\ lookup fs_demo ["site"; "sub"; "b.txt"] = Some (File d)) /\
   forall part, In part [".git"] -> ~ In part ["site"; "sub"; "b.txt"]) /\
  (In ["site"; "sub"; "b.txt"] (gather_files_for_folder fs_demo ["site"] (Some [".git"])) ->
   is_dir fs_demo ["site"; "sub"; "b.txt"] = false).
Proof.
  exact (@scan_ignore_correct fs_demo ["site"]
           (Dir [("a.txt", File (Some "0123456789"));
                 ("sub", Dir [("b.txt", File (Some "x")); ("locked", File None)]);
                 (".git", Dir [("config", File (Some "cfg"))])])
           (Some [".git"]) ["site"; "sub"; "b.txt"] eq_refl eq_refl).
Defined.

(** The scan of the sample tree with [.git] ignored. *)
Example scan_demo :
  gather_files_for_folder fs_demo ["site"] (Some [".git"])
  = [["site"; "a.txt"]; ["site"; "sub"; "b.txt"]; ["site"; "sub"; "locked"]].
Proof. reflexivity. Qed.

(** ** Batch Commit Builder *)

Section BatchFacts.

Variable St : Type.
Variable serve : request -> St -> result response * St.
Variable fs : node.
Variables token owner repo : string.
Variable local_folder : path.
Variable target_repo_base : string.

Lemma create_blobs_cons (f : path) (rest : list path) (te : list json)
    (fl : list (path * arg)) :
  create_blobs serve fs token owner repo local_folder target_repo_base (f :: rest) te fl
  = bind (blob_step serve fs token owner repo local_folder target_repo_base f te fl)
      (fun x => match x with
                | (te', fl') =>
                    create_blobs serve fs token owner repo local_folder
                      target_repo_base rest te' fl'
                end).
Proof. reflexivity. Qed.

(** One file: either its bytes cannot be read and it fails without a call,
    or one blob creation is made and the file yields a tree entry or a
    failure. *)
Lemma blob_step_run (f : path) (te : list json) (fl : list (path * arg))
    (w : world St) :
  (exists e, read_bytes fs f = Raise e /\
             blob_step serve fs token owner repo local_folder target_repo_base f te fl w
             = (Ret (te, fl ++ [(f, AExn e)]), w)) \/
  (exists d, read_bytes fs f = Ret d /\
             ((exists rp sha,
                  blob_step serve fs token owner repo local_folder target_repo_base f te fl w
                  = (Ret (te ++ [tree_entry rp sha], fl),
                     served serve (blob_request token owner repo (b64encode d)) w)) \/
              (exists r,
                  blob_step serve fs token owner repo local_folder target_repo_base f te fl w
                  = (Ret (te, fl ++ [(f, r)]),
                     served serve (blob_request token owner repo (b64encode d)) w)))).
Proof.
  unfold blob_step, catch, bind, lift, ret.
  destruct (read_bytes fs f) as [d|e].
  2:{ left. exists e. split; reflexivity. }
  right. exists d. split; [reflexivity|].
  pose proof (create_blob_world serve token owner repo (b64encode d) w) as Hw.
  destruct (create_blob serve token owner repo (b64encode d) "base64" w)
    as [[[ok resp]|e] w1]; cbn [snd] in Hw; subst w1.
  2:{ right. eexists. reflexivity. }
  destruct ok; cbn [negb].
  2:{ right. eexists. reflexivity. }
  destruct (dict_get resp "sha") as [sha|e].
  2:{ right. eexists. reflexivity. }
  destruct (path_to_repo_path local_folder f target_repo_base) as [rp|e].
  2:{ right. eexists. reflexivity. }
  left. exists rp, sha. reflexivity.
Qed.

Lemma create_blobs_run (files : list path) :
  forall (te : list json) (fl : list (path * arg)) (w : world St),
  exists te' new tr w',
    create_blobs serve fs token owner repo local_folder target_repo_base files te fl w
      = (Ret (te', fl ++ new), w') /\
    log w' = log w ++ tr /\
    blob_calls token owner repo tr /\
    requests_of tr = map (blob_request token owner repo) (readable fs files) /\
    List.length te' + List.length new = List.length te + List.length files /\
    incl (map fst new) files /\
    (forall f e, In f files -> read_bytes fs f = Raise e -> In (f, AExn e) new) /\
    (forall I : St -> Prop,
        (forall c s, I s -> I (snd (serve (blob_request token owner repo c) s))) ->
        I (remote w) -> I (remote w')).
Proof.
  induction files as [|f rest IH]; intros te fl w.
  - exists te, [], [], w. simpl. rewrite !app_nil_r.
    repeat split; auto; try constructor; try lia;
      try (intros x Hx; destruct Hx); try (intros f e []).
  - rewrite create_blobs_cons. unfold bind.
    destruct (blob_step_run f te fl w) as [[e [Hr Hs]] | [d [Hr [[rp [sha Hs]] | [r Hs]]]]];
      rewrite Hs.
    + destruct (IH te (fl ++ [(f, AExn e)]) w)
        as [te' [new [tr [w' [E [Hl [Hc [Hq [Hn [Hi [Hu HI]]]]]]]]]]].
      exists te', ((f, AExn e) :: new), tr, w'.
      rewrite E, <- app_assoc. cbn [app].
      split; [reflexivity|]. split; [exact Hl|]. split; [exact Hc|].
      split; [unfold readable in *; cbn [flat_map]; rewrite Hr; exact Hq|].
      split; [cbn [List.length]; lia|].
      split; [intros x Hx; destruct Hx as [Hx|Hx]; [left; exact Hx|right; apply Hi; exact Hx]|].
      split; [|exact HI].
      intros f' e' [Hf|Hf] Hr'.
      * subst f'. rewrite Hr in Hr'. inversion Hr'. left. reflexivity.
      * right. eapply Hu; eassumption.
    + destruct (IH (te ++ [tree_entry rp sha]) fl
                  (served serve (blob_request token owner repo (b64encode d)) w))
        as [te' [new [tr [w' [E [Hl [Hc [Hq [Hn [Hi [Hu HI]]]]]]]]]]].
      exists te', new,
        (Call (blob_request token owner repo (b64encode d))
              (fst (serve (blob_request token owner repo (b64encode d)) (remote w))) :: tr), w'.
      rewrite E.
      split; [reflexivity|].
      split; [rewrite Hl; unfold served; cbn [log]; rewrite <- app_assoc; reflexivity|].
      split; [constructor; [eexists; eexists; reflexivity|exact Hc]|].
      split; [unfold readable in *; cbn [flat_map requests_of]; rewrite Hr; cbn [app map];
              rewrite Hq; reflexivity|].
      split; [rewrite length_app in Hn; cbn [List.length] in *; lia|].
      split; [intros x Hx; right; apply Hi; exact Hx|].
      split.
      * intros f' e' [Hf|Hf] Hr'.
        -- subst f'. rewrite Hr in Hr'. discriminate.
        -- eapply Hu; eassumption.
      * intros I HIs HIw. apply (HI I HIs). unfold served. cbn [remote].
        apply HIs. exact HIw.
    + destruct (IH te (fl ++ [(f, r)])
                  (served serve (blob_request token owner repo (b64encode d)) w))
        as [te' [new [tr [w' [E [Hl [Hc [Hq [Hn [Hi [Hu HI]]]]]]]]]]].
      exists te', ((f, r) :: new),
        (Call (blob_request token owner repo (b64encode d))
              (fst (serve (blob_request token owner repo (b64encode d)) (remote w))) :: tr), w'.
      rewrite E, <- app_assoc. cbn [app].
      split; [reflexivity|].
      split; [rewrite Hl; unfold served; cbn [log]; rewrite <- app_assoc; reflexivity|].
      split; [constructor; [eexists; eexists; reflexivity|exact Hc]|].
      split; [unfold readable in *; cbn [flat_map requests_of]; rewrite Hr; cbn [app map];
              rewrite Hq; reflexivity|].
      split; [cbn [List.length]; lia|].
      split; [intros x Hx; destruct Hx as [Hx|Hx]; [left; exact Hx|right; apply Hi; exact Hx]|].
      split.
      * intros f' e' [Hf|Hf] Hr'.
        -- subst f'. rewrite Hr in Hr'. discriminate.
        -- right. eapply Hu; eassumption.
      * intros I HIs HIw. apply (HI I HIs). unfold served. cbn [remote].
        apply HIs. exact HIw.
Qed.

Lemma status_reads_created (o : result response) (resp sha : json) :
  status_reads 201 o = Ret (true, resp) ->
  dict_get resp "sha" = Ret sha ->
  created_sha o = Some sha.
Proof.
  unfold status_reads, created_sha, rbind. destruct o as [r|e]; [|discriminate].
  destruct (status_code r =? 201)%Z.
  - destruct (r_json r) as [j|e]; [|discriminate].
    intros H Hs. inversion H; subst j. rewrite Hs. reflexivity.
  - destruct (json_or_status r); discriminate.
Qed.

(** The blob loop, file by file: each file that can be read has its blob
    request made, in order; a file whose blob fails is among the failures;
    and when there is no failure, each file has its tree entry, at its
    mapped path and with the hash of its own answer. *)
Lemma create_blobs_outcomes (files : list path) :
  forall (te : list json) (fl : list (path * arg)) (w : world St),
  exists te' new outs w',
    create_blobs serve fs token owner repo local_folder target_repo_base files te fl w
      = (Ret (te ++ te', fl ++ new), w') /\
    List.length outs = List.length files /\
    calls_of (log w')
      = calls_of (log w) ++ flat_map (blob_call fs token owner repo) (combine files outs) /\
    (forall fo, In fo (combine files outs) -> blob_fails fs fo = true ->
                exists r, In (fst fo, r) new) /\
    (new = [] ->
     Forall2 (fun fo e => exists rp sha,
                  path_to_repo_path local_folder (fst fo) target_repo_base = Ret rp /\
                  created_sha (snd fo) = Some sha /\
                  e = tree_entry rp sha)
       (combine files outs) te').
Proof.
  induction files as [|f rest IH]; intros te fl w.
  - exists [], [], [], w. cbn. rewrite !app_nil_r.
    split; [reflexivity|]. split; [reflexivity|]. split; [reflexivity|].
    split; [intros fo []|constructor].
  - rewrite create_blobs_cons, bind_run.
    assert (Hfail : forall (r : arg) (o : result response) (w1 : world St),
               calls_of (log w1)
               = calls_of (log w) ++ blob_call fs token owner repo (f, o) ->
               exists te' new outs w',
                 create_blobs serve fs token owner repo local_folder target_repo_base
                   rest te (fl ++ [(f, r)]) w1
                 = (Ret (te ++ te', fl ++ new), w') /\
                 List.length outs = List.length (f :: rest) /\
                 calls_of (log w')
                 = calls_of (log w)
                   ++ flat_map (blob_call fs token owner repo) (combine (f :: rest) outs) /\
                 (forall fo, In fo (combine (f :: rest) outs) -> blob_fails fs fo = true ->
                             exists r', In (fst fo, r') new) /\
                 (new = [] ->
                  Forall2 (fun fo e => exists rp sha,
                               path_to_repo_path local_folder (fst fo) target_repo_base
                               = Ret rp /\
                               created_sha (snd fo) = Some sha /\
                               e = tree_entry rp sha)
                    (combine (f :: rest) outs) te')).
    { intros r o w1 Hw1.
      destruct (IH te (fl ++ [(f, r)]) w1) as (te' & new & outs & w' & E & Hn & Hc & Hf & _).
      exists te', ((f, r) :: new), (o :: outs), w'.
      split; [rewrite E, <- app_assoc; reflexivity|].
      split; [cbn [List.length]; rewrite Hn; reflexivity|].
      split; [cbn [combine flat_map]; rewrite Hc, Hw1, <- app_assoc; reflexivity|].
      split; [|discriminate].
      intros fo [Hfo|Hfo] Hb.
      - subst fo. exists r. left. reflexivity.
      - destruct (Hf fo Hfo Hb) as [r' Hr']. exists r'. right. exact Hr'. }
    unfold blob_step, catch. rewrite bind_lift.
    destruct (read_bytes fs f) as [d|e] eqn:Hr.
    2:{ cbn [ret]. apply (Hfail (AExn e) (Raise e) w).
        unfold blob_call. cbn [fst]. rewrite Hr, app_nil_r. reflexivity. }
    rewrite bind_run, create_blob_run. unfold served.
    destruct (serve (blob_request token owner repo (b64encode d)) (remote w)) as [o s1].
    cbn [fst snd].
    assert (Hcall : forall l,
               calls_of (l ++ [Call (blob_request token owner repo (b64encode d)) o])
               = calls_of l ++ blob_call fs token owner repo (f, o)).
    { intros l. rewrite calls_of_app. unfold blob_call. cbn [fst snd calls_of].
      rewrite Hr. reflexivity. }
    destruct (status_reads 201 o) as [[ok resp]|e] eqn:Hs.
    2:{ cbn [ret]. apply (Hfail (AExn e) o). cbn [log]. apply Hcall. }
    destruct ok; cbn [negb].
    2:{ cbn [ret]. apply (Hfail (AJson resp) o). cbn [log]. apply Hcall. }
    rewrite bind_lift. destruct (dict_get resp "sha") as [sha|e] eqn:Hsha.
    2:{ cbn [ret]. apply (Hfail (AExn e) o). cbn [log]. apply Hcall. }
    rewrite bind_lift.
    destruct (path_to_repo_path local_folder f target_repo_base) as [rp|e] eqn:Hrp.
    2:{ cbn [ret]. apply (Hfail (AExn e) o). cbn [log]. apply Hcall. }
    cbn [ret]. clear Hfail.
    pose proof (status_reads_created o Hs Hsha) as Hcr.
    match goal with
    | |- context [create_blobs serve fs token owner repo local_folder target_repo_base
                    rest ?te1 fl ?w1] =>
        destruct (IH te1 fl w1) as (te' & new & outs & w' & E & Hn & Hc & Hf & H2)
    end.
    exists (tree_entry rp sha :: te'), new, (o :: outs), w'.
    split; [rewrite E, <- app_assoc; reflexivity|].
    split; [cbn [List.length]; rewrite Hn; reflexivity|].
    split; [cbn [combine flat_map]; rewrite Hc; cbn [log]; rewrite Hcall, <- app_assoc;
            reflexivity|].
    split.
    + intros fo [Hfo|Hfo] Hb.
      * subst fo. unfold blob_fails in Hb. cbn [fst snd] in Hb. rewrite Hr, Hcr in Hb.
        discriminate Hb.
      * exact (Hf fo Hfo Hb).
    + intros Hnew. cbn [combine]. constructor; [|exact (H2 Hnew)].
      exists rp, sha. cbn [fst snd]. repeat split; assumption.
Qed.

End BatchFacts.

Lemma print_failures_run (St : Type) (failures : list (path * arg)) :
  forall w : world St,
    print_failures failures w
    = (Ret tt, {| remote := remote w; log := log w ++ failure_lines failures |}).
Proof.
  induction failures as [|[p r] failures IH]; intros w.
  - simpl. rewrite app_nil_r. destruct w; reflexivity.
  - cbn [print_failures]. unfold bind, print. rewrite IH. cbn [remote log].
    rewrite <- app_assoc. reflexivity.
Qed.

Lemma requests_of_failure_lines (failures : list (path * arg)) :
  requests_of (failure_lines failures) = [].
Proof.
  induction failures as [|x failures IH]; [reflexivity|exact IH].
Qed.

Lemma is_dir_exists (fs : node) (p : path) : is_dir fs p = true -> path_exists fs p = true.
Proof.
  unfold is_dir, path_exists. destruct (lookup fs p); [reflexivity|discriminate].
Qed.


(** The sample folder holds a file that cannot be read: the batch stops after
    the three blob creations, and the head stays [h0]. *)
Example batch_demo_aborts :
  let run := op_upload_folder serve_mock fs_demo cfg_demo ans_batch mock_demo in
  fst run = Ret tt /\
  map url (requests_of (log (snd run)))
    = [EGitBlobs "o" "r"; EGitBlobs "o" "r"; EGitBlobs "o" "r"] /\
  In (Print "- {p}: {r}" [APath ["site"; "sub"; "locked"]; AExn OSError]) (log (snd run)) /\
  m_head (remote (snd run)) = "h0".
Proof.
  vm_compute. repeat split. auto 10.
Qed.

Section BatchOrder.

Variable St : Type.
Variable serve : request -> St -> result response * St.

Ltac wrapper_run :=
  intros;
  unfold get_ref, create_tree, create_commit, update_ref, on_status, bind, lift, ret,
    lookup_reads, status_reads, rbind, ref_request, tree_request, commit_request,
    update_ref_request;
  rewrite api_request_run;
  match goal with
  | |- context [fst (serve ?rq ?s)] => destruct (fst (serve rq s)) as [? | ?]
  end;
  [ unfold json_or_status, r_content, r_json;
    match goal with
    | |- context [content ?r] => destruct (content r)
    end;
    repeat match goal with
           | |- context [(?a =? ?b)%Z] => destruct (a =? b)%Z
           end;
    reflexivity
  | reflexivity ].

Lemma get_ref_run token owner repo branch (w : world St) :
  get_ref serve token owner repo branch w
  = (lookup_reads (fst (serve (ref_request token owner repo branch) (remote w))),
     served serve (ref_request token owner repo branch) w).
Proof. wrapper_run. Qed.

Lemma create_tree_run token owner repo tree base (w : world St) :
  create_tree serve token owner repo tree base w
  = (status_reads 201 (fst (serve (tree_request token owner repo tree base) (remote w))),
     served serve (tree_request token owner repo tree base) w).
Proof. wrapper_run. Qed.

Lemma create_commit_run token owner repo m t ps (w : world St) :
  create_commit serve token owner repo m t ps w
  = (status_reads 201 (fst (serve (commit_request token owner repo m t ps) (remote w))),
     served serve (commit_request token owner repo m t ps) w).
Proof. wrapper_run. Qed.

Lemma update_ref_run token owner repo branch c force (w : world St) :
  update_ref serve token owner repo branch c force w
  = (status_reads 200
       (fst (serve (update_ref_request token owner repo branch c force) (remote w))),
     served serve (update_ref_request token owner repo branch c force) w).
Proof. wrapper_run. Qed.

End BatchOrder.

Ltac use_equations :=
  repeat match goal with
         | H : ?x = _ |- context [?x] => rewrite H
         end.

Ltac reads_goal :=
  unfold ref_head, commit_tree, created_sha, r_json, rbind;
  use_equations; cbn [rbind]; use_equations; reflexivity.

Ltac refusal_goal :=
  unfold refused_lookup, refused, accepted; use_equations; cbn [negb andb];
  let H := fresh in
  intros H; first [reflexivity | discriminate H | destruct H as [H|H]; discriminate H].

Ltac batch_leaf :=
  cbn [fst snd]; unfold print, printed; cbn [fst snd remote log];
  rewrite ?calls_of_app; cbn [calls_of]; rewrite <- ?app_assoc, ?app_nil_r; cbn [app];
  eexists; split; [reflexivity|];
  econstructor; first [reads_goal | refusal_goal].

Lemma commit_batch_run (St : Type) (serve : request -> St -> result response * St)
    (token owner repo branch message : string) (entries : list json) (w : world St) :
  exists tr,
    calls_of (log (snd (commit_batch serve token owner repo branch message entries w)))
      = calls_of (log w) ++ tr /\
    batch_run token owner repo branch message entries tr
      (fst (commit_batch serve token owner repo branch message entries w)).
Proof.
  unfold commit_batch, bind, lift.
  (* the ref lookup *)
  rewrite get_ref_run. unfold served, lookup_reads, rbind, r_json.
  destruct (serve (ref_request token owner repo branch) (remote w)) as [[r1|e1] s1] eqn:E1;
    cbn [fst snd remote log]; [|batch_leaf].
  destruct (status_code r1 =? 200)%Z eqn:S1; cbn [negb]; [|batch_leaf].
  destruct (content r1) as [|j1|g1] eqn:C1; cbn [negb]; [batch_leaf| |batch_leaf].
  destruct (subscript j1 "object") as [ob|e] eqn:J1; cbn [rbind]; [|batch_leaf].
  destruct (subscript ob "sha") as [c|e] eqn:J1'; [|batch_leaf].
  (* the head commit *)
  rewrite api_request_run. fold (commit_object_request token owner repo c).
  unfold served. cbn [remote log].
  destruct (serve (commit_object_request token owner repo c) s1) as [[r2|e2] s2] eqn:E2;
    cbn [fst snd remote log]; [|batch_leaf].
  destruct (status_code r2 =? 200)%Z eqn:S2; cbn [negb]; [|batch_leaf].
  destruct (content r2) as [|j2|g2] eqn:C2; [batch_leaf| |batch_leaf].
  destruct (subscript j2 "tree") as [tr2|e] eqn:J2; [|batch_leaf].
  destruct (subscript tr2 "sha") as [t|e] eqn:J2'; [|batch_leaf].
  (* the new tree *)
  rewrite create_tree_run. unfold served, status_reads, rbind, json_or_status,
    r_content, r_json. cbn [remote log].
  destruct (serve (tree_request token owner repo entries t) s2) as [[r3|e3] s3] eqn:E3;
    cbn [fst snd remote log]; [|batch_leaf].
  destruct (status_code r3 =? 201)%Z eqn:S3;
    destruct (content r3) as [|j3|g3] eqn:C3; cbn [negb]; try batch_leaf.
  destruct (dict_get j3 "sha") as [t'|e] eqn:J3; [|batch_leaf].
  (* the new commit *)
  rewrite create_commit_run. unfold served, status_reads, rbind, json_or_status,
    r_content, r_json. cbn [remote log].
  destruct (serve (commit_request token owner repo message t' [c]) s3)
    as [[r4|e4] s4] eqn:E4; cbn [fst snd remote log]; [|batch_leaf].
  destruct (status_code r4 =? 201)%Z eqn:S4;
    destruct (content r4) as [|j4|g4] eqn:C4; cbn [negb]; try batch_leaf.
  destruct (dict_get j4 "sha") as [c'|e] eqn:J4; [|batch_leaf].
  (* the ref update *)
  rewrite update_ref_run. unfold served, status_reads, rbind, json_or_status,
    r_content, r_json. cbn [remote log].
  destruct (serve (update_ref_request token owner repo branch c' false) s4)
    as [[r5|e5] s5] eqn:E5; cbn [fst snd remote log]; [|batch_leaf].
  destruct (status_code r5 =? 200)%Z eqn:S5;
    destruct (content r5) as [|j5|g5] eqn:C5; cbn [negb]; batch_leaf.
Qed.

(** C3.  In batch mode, once the blob loop has gone through every file
    without a failure, [op_upload_folder] goes on with exactly the steps of
    [commit_batch], and its remote calls from there on are a run of
    [batch_run]: the ref lookup, the lookup of the head commit it names, the
    creation of the tree of the new entries on that commit's tree, the
    creation of the commit whose only parent is that head commit, and one
    ref update that is not forced; each step is made only when every step
    before it succeeded, and a step that the remote refuses ends the
    operation by a plain return. *)
Theorem batch_commit_order :
  forall (St : Type) (serve : request -> St -> result response * St)
         (fs : node) (cfg : config) (ans : upload_answers) (w : world St)
         (te : list json),
    is_dir fs (ans_local_folder ans) = true ->
    ans_mode ans <> "1" ->
    let files := gather_files_for_folder fs (ans_local_folder ans) None in
    let blobs := create_blobs serve fs (cfg_token cfg) (cfg_owner cfg) (cfg_repo cfg)
                   (ans_local_folder ans) (ans_target_repo_base ans) files [] []
                   (batch_start cfg ans files w) in
    files <> [] ->
    fst blobs = Ret (te, []) ->
    let run := op_upload_folder serve fs cfg ans w in
    run = commit_batch serve (cfg_token cfg) (cfg_owner cfg) (cfg_repo cfg)
            (cfg_branch cfg) (ans_message ans) te (snd blobs) /\
    exists tr,
      calls_of (log (snd run)) = calls_of (log (snd blobs)) ++ tr /\
      batch_run (cfg_token cfg) (cfg_owner cfg) (cfg_repo cfg) (cfg_branch cfg)
        (ans_message ans) te tr (fst run).
Proof.
  intros St serve fs cfg ans w te Hdir Hmode files blobs Hfiles Hblobs run.
  assert (Hrun : run = commit_batch serve (cfg_token cfg) (cfg_owner cfg) (cfg_repo cfg)
                         (cfg_branch cfg) (ans_message ans) te (snd blobs)).
  { subst run. unfold op_upload_folder.
    rewrite Hdir, (is_dir_exists _ _ Hdir). cbn [negb orb].
    fold files. subst blobs. destruct files as [|f0 files'] eqn:Ef.
    - contradiction Hfiles; reflexivity.
    - apply String.eqb_neq in Hmode. rewrite Hmode.
      unfold bind at 1. cbn [print].
      unfold bind at 1. cbn [print remote log].
      unfold bind at 1.
      unfold batch_start, printed in Hblobs |- *. cbn [remote log] in Hblobs |- *.
      destruct (create_blobs serve fs (cfg_token cfg) (cfg_owner cfg) (cfg_repo cfg)
                  (ans_local_folder ans) (ans_target_repo_base ans) (f0 :: files') [] [] _)
        as [res w1].
      cbn [fst snd] in Hblobs |- *. subst res. reflexivity. }
  split; [exact Hrun|].
  rewrite Hrun. apply commit_batch_run.
Qed.

Lemma batch_commit_order_witness :
  let files := gather_files_for_folder fs_demo ["site"; ".git"] None in
  let blobs := create_blobs serve_mock fs_demo "t" "o" "r" ["site"; ".git"] "backup"
                 files [] [] (batch_start cfg_demo ans_git files mock_demo) in
  let te := [tree_entry "backup/config" (JStr "blob:Y2Zn")] in
  let run := op_upload_folder serve_mock fs_demo cfg_demo ans_git mock_demo in
  run = commit_batch serve_mock "t" "o" "r" "main" "msg" te (snd blobs) /\
  exists tr,
    calls_of (log (snd run)) = calls_of (log (snd blobs)) ++ tr /\
    batch_run "t" "o" "r" "main" "msg" te tr (fst run).
Proof.
  apply (@batch_commit_order mock serve_mock fs_demo cfg_demo ans_git mock_demo
           [tree_entry "backup/config" (JStr "blob:Y2Zn")]).
  - reflexivity.
  - discriminate.
  - discriminate.
  - reflexivity.
Defined.

(** The batch of the sample [.git] folder on the sample remote: the five
    steps in order, the commit on the observed head [h0], the update not
    forced, and the head moved to the new commit. *)
Example batch_demo_commits :
  let run := op_upload_folder serve_mock fs_demo cfg_demo ans_git mock_demo in
  fst run = Ret tt /\
  map (fun rq => (method rq, url rq)) (requests_of (log (snd run)))
    = [("POST", EGitBlobs "o" "r"); ("GET", EGitRef "o" "r" "main");
       ("GET", EGitCommit "o" "r" (JStr "h0")); ("POST", EGitTrees "o" "r");
       ("POST", EGitCommits "o" "r"); ("PATCH", EGitRefsHeads "o" "r" "main")] /\
  In (commit_request "t" "o" "r" "msg" (JStr "new-tree") [JStr "h0"])
     (requests_of (log (snd run))) /\
  In (update_ref_request "t" "o" "r" "main" (JStr "new-commit") false)
     (requests_of (log (snd run))) /\
  m_head (remote (snd run)) = "new-commit".
Proof.
  vm_compute. repeat split; auto 10.
Qed.

(** ** The ignore set and the folder uploads *)

(** The batch mode, from the blob loop on. *)
Lemma op_upload_folder_batch (St : Type)
    (serve : request -> St -> result response * St) (fs : node) (cfg : config)
    (ans : upload_answers) (w : world St) :
  is_dir fs (ans_local_folder ans) = true ->
  ans_mode ans <> "1" ->
  gather_files_for_folder fs (ans_local_folder ans) None <> [] ->
  op_upload_folder serve fs cfg ans w
  = bind (create_blobs serve fs (cfg_token cfg) (cfg_owner cfg) (cfg_repo cfg)
            (ans_local_folder ans) (ans_target_repo_base ans)
            (gather_files_for_folder fs (ans_local_folder ans) None) [] [])
      (fun x =>
         match x with
         | (tree_entries, failures) =>
             match failures with
             | _ :: _ =>
                 print "Beberapa blob gagal dibuat: {len(failures)}. Batal commit batch."
                   [ANat (List.length failures)] ;;;
                 print_failures failures
             | [] => commit_batch serve (cfg_token cfg) (cfg_owner cfg) (cfg_repo cfg)
                       (cfg_branch cfg) (ans_message ans) tree_entries
             end
         end)
      (batch_start cfg ans (gather_files_for_folder fs (ans_local_folder ans) None) w).
Proof.
  intros Hdir Hmode Hfiles. unfold op_upload_folder.
  rewrite Hdir, (is_dir_exists _ _ Hdir). cbn [negb orb].
  destruct (gather_files_for_folder fs (ans_local_folder ans) None) as [|f0 files'] eqn:Ef.
  - contradiction Hfiles; reflexivity.
  - apply String.eqb_neq in Hmode. rewrite Hmode.
    unfold bind at 1. cbn [print].
    unfold bind at 1. cbn [print remote log].
    reflexivity.
Qed.


(** ** Batch atomicity *)




(** With the default configuration, which ignores [.git], the batch upload
    of the sample folder creates a blob for [.git/config]; the watch handler
    drops an event on that same file. *)
Example folder_upload_demo :
  In (blob_request "t" "o" "r" (b64encode "cfg"))
     (requests_of (log (snd (op_upload_folder serve_mock fs_demo cfg_demo ans_batch
                               mock_demo)))) /\
  _is_ignored handler_demo ["site"; ".git"; "config"] = true.
Proof.
  vm_compute. split; auto 10.
Qed.

(** ** Recursive Remote Walker *)

Section WalkerFacts.

Variable St : Type.
Variable serve : request -> St -> result response * St.

Lemma gather_rec_S (depth : nat) (token owner repo branch : string) (pth : json)
    (file_paths : list json) :
  gather_rec serve (S depth) token owner repo branch pth file_paths
  = ('(ok2, dat) <- get_repo_contents serve token owner repo pth branch ;;
     if negb ok2 then ret file_paths
     else
       match dat with
       | JDict _ =>
           ty <- lift (dict_get dat "type") ;;
           if eq_str ty "file"
           then p <- lift (dict_get dat "path") ;; ret (file_paths ++ [p])
           else ret file_paths
       | JList items =>
           walk_items (gather_rec serve depth token owner repo branch) items file_paths
       | _ => ret file_paths
       end).
Proof. reflexivity. Qed.


End WalkerFacts.

Section WalkTree.

Variables token owner repo branch : string.
Variable t : rnode.

Lemma rnode_nested_ind (P : rnode -> Prop) :
  (forall s, P (RFile s)) ->
  (forall s, P (RSymlink s)) ->
  (forall s ch, Forall (fun nc => P (snd nc)) ch -> P (RDir s ch)) ->
  forall n, P n.
Proof.
  intros HF HL HD. fix IH 1. intros [s|s|s ch].
  - apply HF.
  - apply HL.
  - apply HD. induction ch as [|nc ch IHch]; constructor.
    + apply IH.
    + exact IHch.
Qed.

Lemma entry_type (segs : list string) (n : rnode) :
  dict_get (entry_json segs n) "type" = Ret (JStr (rtype n)).
Proof. reflexivity. Qed.

Lemma entry_path (segs : list string) (n : rnode) :
  dict_get (entry_json segs n) "path" = Ret (JStr (join_slash segs)).
Proof. reflexivity. Qed.

Lemma join_slash_not_empty (p : string) (ps : list string) :
  p <> "" -> (join_slash (p :: ps) =? "") = false.
Proof.
  intros Hp. apply String.eqb_neq. destruct ps as [|q ps].
  - exact Hp.
  - rewrite join_slash_cons by discriminate.
    destruct p; [contradiction Hp; reflexivity|discriminate].
Qed.

Lemma serve_tree_contents (segs : list string) (n : rnode) :
  Forall (fun x => good_name x = true) segs ->
  rlookup t segs = Some n ->
  serve_tree (contents_request token owner repo (JStr (join_slash segs)) branch) t
  = (Ret (contents_response segs n), t).
Proof.
  intros Hgood Hn. unfold contents_request, request_for, serve_tree. cbn [url method truthy].
  destruct segs as [|p ps].
  - simpl in Hn. inversion Hn. reflexivity.
  - inversion Hgood as [|x l Hp Hps]; subst.
    destruct (good_name_parts _ Hp) as [Hp1 Hp2].
    rewrite (join_slash_not_empty ps Hp1). cbn [negb].
    change ("GET" =? "GET") with true. cbn iota.
    rewrite split_join_slash.
    + rewrite Hn. reflexivity.
    + eapply Forall_impl; [|exact Hgood]. intros a Ha.
      apply good_name_parts in Ha. tauto.
Qed.

Lemma rchild_In (ch : list (string * rnode)) (name : string) (c : rnode) :
  rchild name ch = Some c -> In (name, c) ch.
Proof.
  induction ch as [|[n x] ch IH]; simpl; [discriminate|].
  destruct (name =? n) eqn:E.
  - apply String.eqb_eq in E. subst. intros H. inversion H. left. reflexivity.
  - intros H. right. apply IH. exact H.
Qed.

Lemma In_rchild (ch : list (string * rnode)) (name : string) (c : rnode) :
  distinct (map fst ch) = true -> In (name, c) ch -> rchild name ch = Some c.
Proof.
  induction ch as [|[n x] ch IH]; simpl; intros Hd Hin; [contradiction|].
  apply andb_true_iff in Hd. destruct Hd as [Hn Hd]. apply negb_true_iff in Hn.
  destruct Hin as [Hin|Hin].
  - inversion Hin; subst. rewrite String.eqb_refl. reflexivity.
  - destruct (name =? n) eqn:E.
    + apply String.eqb_eq in E. subst n. exfalso.
      assert (Hex : existsb (fun y => name =? y) (map fst ch) = true).
      { apply existsb_exists. exists name. split; [|apply String.eqb_refl].
        apply in_map_iff. exists (name, c). split; [reflexivity|exact Hin]. }
      rewrite Hex in Hn. discriminate.
    + apply IH; assumption.
Qed.

Lemma rlookup_snoc (segs : list string) (s name : string)
    (ch : list (string * rnode)) (c : rnode) :
  rlookup t segs = Some (RDir s ch) -> rchild name ch = Some c ->
  rlookup t (segs ++ [name]) = Some c.
Proof.
  generalize t. induction segs as [|x segs IH]; intros t0 Hn Hc.
  - simpl in Hn. inversion Hn. subst. simpl. rewrite Hc. reflexivity.
  - simpl in *. destruct t0 as [s0|s0|s0 ch0]; try discriminate.
    destruct (rchild x ch0); [|discriminate]. apply IH; assumption.
Qed.

Lemma rdepth_child (s name : string) (ch : list (string * rnode)) (c : rnode)
    (depth : nat) :
  In (name, c) ch -> rdepth (RDir s ch) <= S depth -> rdepth c <= depth.
Proof.
  cbn [rdepth]. intros Hin H. apply le_S_n in H.
  induction ch as [|nc ch IH]; [contradiction|].
  cbn [fold_right] in H. destruct Hin as [Hin|Hin].
  - subst nc. cbn [snd] in H. lia.
  - apply IH; [exact Hin|lia].
Qed.

End WalkTree.

Lemma rfiles_dir (at_ : list string) (s : string) (ch : list (string * rnode)) :
  rfiles at_ (RDir s ch) = flat_map (rfiles_of_entry at_) ch.
Proof. reflexivity. Qed.

Lemma rfiles_of_entry_rwalk (at_ : list string) (nc : string * rnode) :
  rfiles_of_entry at_ nc = rwalk (at_ ++ [fst nc]) (snd nc).
Proof. unfold rfiles_of_entry, rwalk. destruct (snd nc); reflexivity. Qed.

(** The loop over a listing of the tree, given that the walker does its job
    one level down. *)
Lemma walk_items_tree (t : rnode)
    (rec : json -> list json -> M rnode (list json)) (segs : list string)
    (ch : list (string * rnode)) :
  (forall name c acc w,
      In (name, c) ch -> rtype c = "dir" -> remote w = t ->
      exists w', rec (JStr (join_slash (segs ++ [name]))) acc w
                 = (Ret (acc ++ map JStr (rwalk (segs ++ [name]) c)), w')
                 /\ remote w' = t) ->
  forall acc w,
    remote w = t ->
    exists w',
      walk_items rec (map (fun nc => entry_json (segs ++ [fst nc]) (snd nc)) ch) acc w
      = (Ret (acc ++ map JStr (flat_map (rfiles_of_entry segs) ch)), w')
      /\ remote w' = t.
Proof.
  induction ch as [|[name c] ch IH]; intros Hrec acc w Hw.
  - exists w. cbn. rewrite app_nil_r. auto.
  - assert (Hrec' : forall name c acc w,
               In (name, c) ch -> rtype c = "dir" -> remote w = t ->
               exists w', rec (JStr (join_slash (segs ++ [name]))) acc w
                          = (Ret (acc ++ map JStr (rwalk (segs ++ [name]) c)), w')
                          /\ remote w' = t).
    { intros n0 c0 a0 w0 Hin. apply Hrec. right. exact Hin. }
    cbn [map walk_items fst snd flat_map]. unfold bind at 1. unfold lift at 1.
    rewrite entry_type.
    rewrite map_app, app_assoc, rfiles_of_entry_rwalk. cbn [fst snd].
    destruct c as [s|s|s ch0]; cbn [rtype eq_str rwalk].
    + change ("file" =? "file") with true. cbn iota.
      unfold bind at 1. unfold lift at 1. rewrite entry_path.
      apply (IH Hrec' _ w Hw).
    + change ("symlink" =? "file") with false. change ("symlink" =? "dir") with false.
      cbn iota. cbn [map]. rewrite app_nil_r. apply (IH Hrec' _ w Hw).
    + change ("dir" =? "file") with false. change ("dir" =? "dir") with true.
      cbn iota. unfold bind at 1. unfold lift at 1. rewrite entry_path.
      unfold bind at 1.
      destruct (Hrec name (RDir s ch0) acc w (or_introl eq_refl) eq_refl Hw)
        as [w1 [E1 Hw1]].
      rewrite E1. apply (IH Hrec' _ w1 Hw1).
Qed.

Lemma wf_rnode_child (s name : string) (ch : list (string * rnode)) (c : rnode) :
  wf_rnode (RDir s ch) = true -> In (name, c) ch ->
  good_name name = true /\ wf_rnode c = true /\ rchild name ch = Some c.
Proof.
  cbn [wf_rnode]. intros H Hin. apply andb_true_iff in H. destruct H as [Hd Hall].
  rewrite forallb_forall in Hall. specialize (Hall (name, c) Hin). cbn [fst snd] in Hall.
  apply andb_true_iff in Hall. destruct Hall as [Hg Hw].
  split; [exact Hg|]. split; [exact Hw|]. apply In_rchild; assumption.
Qed.

(** The walker over the tree remote, from the entry [n] at [segs]. *)
Lemma gather_rec_tree (token owner repo branch : string) (t : rnode) (n : rnode) :
  forall (segs : list string) (depth : nat) (acc : list json) (w : world rnode),
    wf_rnode n = true ->
    Forall (fun x => good_name x = true) segs ->
    remote w = t ->
    rlookup t segs = Some n ->
    rdepth n <= depth ->
    exists w',
      gather_rec serve_tree depth token owner repo branch (JStr (join_slash segs)) acc w
      = (Ret (acc ++ map JStr (rwalk segs n)), w')
      /\ remote w' = t.
Proof.
  induction n as [s|s|s ch IH] using rnode_nested_ind;
    intros segs depth acc w Hwf Hgood Hw Hn Hdepth;
    (destruct depth as [|depth]; [cbn [rdepth] in Hdepth; lia|]);
    rewrite gather_rec_S; unfold bind at 1;
    rewrite get_repo_contents_run, Hw, (@serve_tree_contents token owner repo branch t segs _ Hgood Hn);
    unfold served; rewrite Hw,
      (@serve_tree_contents token owner repo branch t segs _ Hgood Hn); cbn [fst snd].
  - (* a file *)
    eexists. split; [reflexivity|reflexivity].
  - (* a symlink *)
    eexists. split; [cbn; rewrite app_nil_r; reflexivity|reflexivity].
  - (* a directory *)
    cbn [contents_response lookup_reads rbind status_code content r_json negb].
    change (200 =? 200)%Z with true. cbn iota. cbn [rbind negb].
    cbn [rwalk]. rewrite rfiles_dir.
    apply walk_items_tree; [|reflexivity].
    intros name c acc0 w0 Hin _ Hw0.
    destruct (wf_rnode_child s name ch c Hwf Hin) as [Hg [Hwc Hc]].
    rewrite Forall_forall in IH.
    apply (IH (name, c) Hin).
    + exact Hwc.
    + apply Forall_app. split; [exact Hgood|]. constructor; [exact Hg|constructor].
    + exact Hw0.
    + eapply rlookup_snoc; eassumption.
    + eapply rdepth_child; eassumption.
Qed.

Lemma rlookup_wf (segs : list string) :
  forall t n,
    wf_rnode t = true -> rlookup t segs = Some n ->
    Forall (fun x => good_name x = true) segs /\ wf_rnode n = true.
Proof.
  induction segs as [|x segs IH]; intros t n Hwf Hn.
  - simpl in Hn. inversion Hn. subst. split; [constructor|exact Hwf].
  - simpl in Hn. destruct t as [s|s|s ch]; try discriminate.
    destruct (rchild x ch) as [c|] eqn:Ec; [|discriminate].
    destruct (wf_rnode_child s x ch c Hwf (rchild_In _ _ Ec)) as [Hg [Hwc _]].
    destruct (IH c n Hwc Hn) as [Hgs Hwn].
    split; [constructor; assumption|exact Hwn].
Qed.

(** What a walk is to list, by membership: the paths that lead to a file
    entry. *)
Lemma rwalk_In (n : rnode) :
  forall (segs : list string) (p : string),
    wf_rnode n = true ->
    (In p (rwalk segs n) <->
     exists rel sha, p = join_slash (segs ++ rel) /\ rlookup n rel = Some (RFile sha)).
Proof.
  induction n as [s|s|s ch IH] using rnode_nested_ind; intros segs p Hwf.
  - cbn [rwalk]. split.
    + intros [H|[]]. subst p. exists [], s. rewrite app_nil_r. auto.
    + intros [rel [sha [E H]]]. destruct rel; [|discriminate].
      rewrite app_nil_r in E. left. symmetry. exact E.
  - cbn [rwalk]. split; [intros []|].
    intros [rel [sha [E H]]]. destruct rel; discriminate.
  - cbn [rwalk]. rewrite rfiles_dir, in_flat_map. rewrite Forall_forall in IH. split.
    + intros [[name c] [Hin Hp]]. rewrite rfiles_of_entry_rwalk in Hp. cbn [fst snd] in Hp.
      destruct (wf_rnode_child s name ch c Hwf Hin) as [_ [Hwc Hc]].
      apply (IH (name, c) Hin (segs ++ [name]) p Hwc) in Hp.
      destruct Hp as [rel [sha [E H]]].
      exists (name :: rel), sha. split.
      * rewrite E, <- app_assoc. reflexivity.
      * cbn [rlookup]. rewrite Hc. exact H.
    + intros [rel [sha [E H]]]. destruct rel as [|name rel]; [discriminate|].
      cbn [rlookup] in H. destruct (rchild name ch) as [c|] eqn:Ec; [|discriminate].
      pose proof (rchild_In _ _ Ec) as Hin.
      destruct (wf_rnode_child s name ch c Hwf Hin) as [_ [Hwc _]].
      exists (name, c). split; [exact Hin|].
      rewrite rfiles_of_entry_rwalk. cbn [fst snd].
      apply (IH (name, c) Hin (segs ++ [name]) p Hwc).
      exists rel, sha. split; [|exact H].
      rewrite E, <- app_assoc. reflexivity.
Qed.

(** C6, the claim as stated fails: what the walker returns are the bare
    paths.  Two remotes that hold [a.txt] under different version tokens
    give the same list, which holds neither token. *)
Lemma walk_entries_carry_no_token :
  fst (gather_rec serve_tree 2 "t" "o" "r" "main" (JStr "") []
         {| remote := rtree_a1; log := [] |}) = Ret [JStr "a.txt"] /\
  fst (gather_rec serve_tree 2 "t" "o" "r" "main" (JStr "") []
         {| remote := rtree_a2; log := [] |}) = Ret [JStr "a.txt"] /\
  rlookup rtree_a1 ["a.txt"] = Some (RFile "s1") /\
  rlookup rtree_a2 ["a.txt"] = Some (RFile "s2").
Proof. repeat split. Qed.

(** C6, as the code has it.  Over a remote that serves a tree, the walker
    started at the path of an entry, with recursion depth to spare for the
    tree beneath it, returns the flat list of the paths that lead to a
    file-typed entry at or beneath that entry, in listing order, appended to
    what it was given; it goes down every directory entry and skips entries
    of other types; it does not change the remote.  The entries of the list
    are paths only.  [gather], the walk of the Pages backup from the root,
    returns the same list. *)
Theorem remote_walk_lists_file_paths :
  forall (token owner repo branch : string) (t : rnode) (segs : list string)
         (n : rnode) (depth : nat) (acc : list json) (w : world rnode),
    wf_rnode t = true ->
    remote w = t ->
    rlookup t segs = Some n ->
    rdepth n <= depth ->
    let run := gather_rec serve_tree depth token owner repo branch
                 (JStr (join_slash segs)) acc w in
    fst run = Ret (acc ++ map JStr (rwalk segs n)) /\
    remote (snd run) = t /\
    (forall p, In p (rwalk segs n) <->
               exists rel sha, p = join_slash (segs ++ rel)
                               /\ rlookup n rel = Some (RFile sha)) /\
    (forall cfg, rdepth t <= depth ->
                 fst (gather serve_tree depth cfg (JStr "") acc w)
                 = Ret (acc ++ map JStr (rwalk [] t))).
Proof.
  intros token owner repo branch t segs n depth acc w Hwf Hw Hn Hdepth run.
  destruct (rlookup_wf segs t Hwf Hn) as [Hgood Hwn].
  destruct (@gather_rec_tree token owner repo branch t n segs depth acc w Hwn Hgood Hw Hn Hdepth)
    as [w' [E Hw']].
  subst run. rewrite E. cbn [fst snd].
  split; [reflexivity|]. split; [exact Hw'|]. split.
  - intros p. apply rwalk_In. exact Hwn.
  - intros cfg Hdt. unfold gather.
    destruct (@gather_rec_tree (cfg_token cfg) (cfg_owner cfg) (cfg_repo cfg)
                (cfg_pages_branch cfg) t t [] depth acc w Hwf (Forall_nil _) Hw eq_refl Hdt)
      as [w2 [E2 _]].
    change (join_slash []) with "" in E2. rewrite E2. reflexivity.
Qed.

Lemma remote_walk_lists_file_paths_witness :
  let run := gather_rec serve_tree 4 "t" "o" "r" "main" (JStr (join_slash ["docs"])) []
               {| remote := rtree_demo; log := [] |} in
  let n := RDir "d" [("x.md", RFile "s2"); ("l", RSymlink "s3");
                     ("in", RDir "e" [("y", RFile "s4")])] in
  fst run = Ret ([] ++ map JStr (rwalk ["docs"] n)) /\
  remote (snd run) = rtree_demo /\
  (forall p, In p (rwalk ["docs"] n) <->
             exists rel sha, p = join_slash (["docs"] ++ rel)
                             /\ rlookup n rel = Some (RFile sha)) /\
  (forall cfg, rdepth rtree_demo <= 4 ->
               fst (gather serve_tree 4 cfg (JStr "") []
                      {| remote := rtree_demo; log := [] |})
               = Ret ([] ++ map JStr (rwalk [] rtree_demo))).
Proof.
  apply (@remote_walk_lists_file_paths "t" "o" "r" "main" rtree_demo ["docs"]
           (RDir "d" [("x.md", RFile "s2"); ("l", RSymlink "s3");
                      ("in", RDir "e" [("y", RFile "s4")])])
           4 [] {| remote := rtree_demo; log := [] |}).
  - reflexivity.
  - reflexivity.
  - reflexivity.
  - cbn. lia.
Defined.

(** The walk of the sample remote, from the root and from [docs]. *)
Example walk_demo :
  fst (gather serve_tree 4 cfg_demo (JStr "") [] {| remote := rtree_demo; log := [] |})
    = Ret [JStr "a.txt"; JStr "docs/x.md"; JStr "docs/in/y"] /\
  fst (gather_rec serve_tree 3 "t" "o" "r" "main" (JStr "docs") []
         {| remote := rtree_demo; log := [] |})
    = Ret [JStr "docs/x.md"; JStr "docs/in/y"].
Proof. split; reflexivity. Qed.

(** * Further properties of the code *)

(** ** The watch handlers *)

Section HandlerFacts.

Variable St : Type.
Variable serve : request -> St -> result response * St.
Variable markup : string -> list arg -> bool.

Lemma bind_console_print (B : Type) (text : string) (args : list arg)
    (k : unit -> M St B) (w : world St) :
  bind (console_print markup text args) k w
  = if markup text args then k tt (printed text args w) else (Raise MarkupError, w).
Proof.
  unfold bind, console_print. destruct (markup text args); reflexivity.
Qed.

(** A line of the console, rendered or refused, makes no call and leaves the
    remote alone. *)
Lemma console_print_quiet (text : string) (args : list arg) (w : world St) :
  calls_of (log (snd (console_print markup text args w))) = calls_of (log w) /\
  remote (snd (console_print markup text args w)) = remote w.
Proof.
  unfold console_print. destruct (markup text args); cbn.
  - rewrite calls_of_app. cbn. rewrite app_nil_r. split; reflexivity.
  - split; reflexivity.
Qed.

(** A body whose errors are caught and printed. *)
Lemma catch_print_quiet (m : M St unit) (text : string) (w : world St) :
  calls_of (log (snd (catch m (fun e => console_print markup text [AExn e]) w)))
  = calls_of (log (snd (m w))) /\
  remote (snd (catch m (fun e => console_print markup text [AExn e]) w))
  = remote (snd (m w)).
Proof.
  unfold catch. destruct (m w) as [[[]|e] w']; cbn [snd]; [split; reflexivity|].
  apply console_print_quiet.
Qed.



End HandlerFacts.


Section UploadHandlers.

Variable St : Type.
Variable serve : request -> St -> result response * St.
Variable markup : string -> list arg -> bool.
Variable fs : node.
Variable h : SyncEventHandler.

(** The body [on_created] and [on_modified] share, up to their texts. *)
Let upload_body (src : path) (prefix t_ok t_failed t_error : string) : M St unit :=
  catch
    (content_b64 <- lift (file_to_base64 fs src) ;;
     repo_path <- lift (_repo_path h src) ;;
     sha <- get_file_sha serve (h_token h) (h_owner h) (h_repo h) (JStr repo_path)
              (h_pages_branch h) ;;
     '(ok, resp) <- create_or_update_file serve (h_token h) (h_owner h) (h_repo h)
                      (JStr repo_path) content_b64
                      (prefix ++ repo_path)%string (h_pages_branch h) sha ;;
     if ok : bool then console_print markup t_ok [AStr repo_path]
     else console_print markup t_failed [AJson resp])
    (fun e => console_print markup t_error [AExn e]).

Lemma upload_body_unreadable (src : path) (prefix t_ok t_failed t_error : string)
    (e : exn) (w : world St) :
  read_bytes fs src = Raise e ->
  upload_body src prefix t_ok t_failed t_error w
  = console_print markup t_error [AExn e] w.
Proof.
  intros Hr. unfold upload_body, catch. rewrite bind_lift.
  unfold file_to_base64, rbind. rewrite Hr. reflexivity.
Qed.

(** The calls of the body on a file that can be read and whose path maps:
    the lookup of the mapped path, and then, when the lookup gave a result,
    the PUT of the content with the hash it gave. *)
Lemma upload_body_calls (src : path) (prefix t_ok t_failed t_error : string)
    (d : string) (repo_path : string) (w : world St) :
  read_bytes fs src = Ret d ->
  _repo_path h src = Ret repo_path ->
  let lookup_rq := contents_request (h_token h) (h_owner h) (h_repo h) (JStr repo_path)
                     (h_pages_branch h) in
  let put sha := put_request (h_token h) (h_owner h) (h_repo h) (JStr repo_path)
                   (b64encode d) (prefix ++ repo_path)%string (h_pages_branch h) sha in
  let o1 := fst (serve lookup_rq (remote w)) in
  let s1 := snd (serve lookup_rq (remote w)) in
  let run := upload_body src prefix t_ok t_failed t_error w in
  calls_of (log (snd run))
  = calls_of (log w)
    ++ (lookup_rq, o1)
       :: match sha_reads o1 with
          | Ret sha => [(put sha, fst (serve (put sha) s1))]
          | Raise _ => []
          end /\
  remote (snd run)
  = match sha_reads o1 with
    | Ret sha => snd (serve (put sha) s1)
    | Raise _ => s1
    end.
Proof.
  intros Hr Hp lookup_rq put o1 s1 run. subst run.
  unfold upload_body.
  match goal with
  | |- context [catch ?m ?hd w] =>
      destruct (catch_print_quiet markup m t_error w) as [Hc Hrem]
  end.
  rewrite Hc, Hrem. clear Hc Hrem.
  rewrite bind_lift. unfold file_to_base64, rbind. rewrite Hr.
  rewrite bind_lift, Hp, bind_run, get_file_sha_run.
  fold lookup_rq. unfold served. fold o1 s1.
  destruct (sha_reads o1) as [sha|e]; cbn [fst snd log remote].
  2:{ rewrite calls_of_app. split; reflexivity. }
  rewrite bind_run, create_or_update_file_run. fold (put sha). unfold served.
  cbn [remote log].
  assert (Hq : forall text args (w2 : world St),
             calls_of (log (snd (console_print markup text args w2))) = calls_of (log w2) /\
             remote (snd (console_print markup text args w2)) = remote w2)
    by (intros; apply console_print_quiet).
  destruct (put_reads (fst (serve (put sha) s1))) as [[ok resp]|e].
  - destruct ok;
      match goal with
      | |- context [console_print markup ?t ?a ?w2] =>
          destruct (Hq t a w2) as [Hc Hrem]; rewrite Hc, Hrem
      end; cbn [log remote]; rewrite !calls_of_app, <- app_assoc; split; reflexivity.
  - cbn [snd log remote]. rewrite !calls_of_app, <- app_assoc. split; reflexivity.
Qed.

(** X2. An event on a file that cannot be read (it is gone again, or locked)
    reaches the remote with nothing: whatever the console does with the
    lines, [on_created] and [on_modified] make no call and leave the remote
    as it was; and when the console renders the announcement and the error
    line, they return after printing the two. *)
Theorem upload_event_unreadable_file :
  forall (ev : fs_event) (w : world St) (e : exn),
    is_directory ev = false ->
    _is_ignored h (src_path ev) = false ->
    read_bytes fs (src_path ev) = Raise e ->
    (calls_of (log (snd (on_created serve markup fs h ev w))) = calls_of (log w) /\
     remote (snd (on_created serve markup fs h ev w)) = remote w) /\
    (calls_of (log (snd (on_modified serve markup fs h ev w))) = calls_of (log w) /\
     remote (snd (on_modified serve markup fs h ev w)) = remote w) /\
    (markup "Detected created: {src} -> uploading..." [APath (src_path ev)] = true ->
     markup "Error on created: {e}" [AExn e] = true ->
     on_created serve markup fs h ev w
     = (Ret tt, printed "Error on created: {e}" [AExn e]
                  (printed "Detected created: {src} -> uploading..."
                     [APath (src_path ev)] w))) /\
    (markup "Detected modified: {src} -> uploading..." [APath (src_path ev)] = true ->
     markup "Error on modified: {e}" [AExn e] = true ->
     on_modified serve markup fs h ev w
     = (Ret tt, printed "Error on modified: {e}" [AExn e]
                  (printed "Detected modified: {src} -> uploading..."
                     [APath (src_path ev)] w))).
Proof.
  intros ev w e Hdir Hign Hr. unfold on_created, on_modified.
  rewrite Hdir, Hign, !bind_console_print.
  pose proof (upload_body_unreadable (src_path ev) "Auto-sync add " "Uploaded {repo_path}"
                "Upload failed: {resp}" "Error on created: {e}") as Hc.
  pose proof (upload_body_unreadable (src_path ev) "Auto-sync update " "Updated {repo_path}"
                "Update failed: {resp}" "Error on modified: {e}") as Hm.
  unfold upload_body in Hc, Hm.
  split; [|split; [|split]].
  - destruct (markup "Detected created: {src} -> uploading..." [APath (src_path ev)]);
      [|split; reflexivity].
    rewrite (Hc e _ Hr).
    match goal with
    | |- context [console_print markup ?t ?a ?w2] =>
        destruct (console_print_quiet markup t a w2) as [H1 H2]; rewrite H1, H2
    end.
    unfold printed. cbn [log remote]. rewrite calls_of_app. cbn [calls_of].
    rewrite app_nil_r. split; reflexivity.
  - destruct (markup "Detected modified: {src} -> uploading..." [APath (src_path ev)]);
      [|split; reflexivity].
    rewrite (Hm e _ Hr).
    match goal with
    | |- context [console_print markup ?t ?a ?w2] =>
        destruct (console_print_quiet markup t a w2) as [H1 H2]; rewrite H1, H2
    end.
    unfold printed. cbn [log remote]. rewrite calls_of_app. cbn [calls_of].
    rewrite app_nil_r. split; reflexivity.
  - intros Ha He. rewrite Ha, (Hc e _ Hr). unfold console_print. rewrite He. reflexivity.
  - intros Ha He. rewrite Ha, (Hm e _ Hr). unfold console_print. rewrite He. reflexivity.
Qed.

(** X3. An event on a readable file whose path maps, once the console has
    rendered the announcement: the calls of [on_created] and [on_modified]
    are the lookup of the mapped path on the Pages branch, served by the
    remote as it is now, and then, when the lookup gave a result, the PUT at
    that path of the file's base64 content, with the message
    [Auto-sync add] or [Auto-sync update] and the hash the lookup gave (none
    when it gave none).  When the lookup raises, no PUT is made.  The
    remote is left as these calls leave it. *)
Theorem upload_event_puts_with_fresh_token :
  forall (ev : fs_event) (w : world St) (d : string) (repo_path : string),
    is_directory ev = false ->
    _is_ignored h (src_path ev) = false ->
    read_bytes fs (src_path ev) = Ret d ->
    _repo_path h (src_path ev) = Ret repo_path ->
    let lookup_rq := contents_request (h_token h) (h_owner h) (h_repo h)
                       (JStr repo_path) (h_pages_branch h) in
    let put prefix sha :=
      put_request (h_token h) (h_owner h) (h_repo h) (JStr repo_path) (b64encode d)
        (prefix ++ repo_path)%string (h_pages_branch h) sha in
    let o1 := fst (serve lookup_rq (remote w)) in
    let s1 := snd (serve lookup_rq (remote w)) in
    let uploads prefix :=
      (lookup_rq, o1)
      :: match sha_reads o1 with
         | Ret sha => [(put prefix sha, fst (serve (put prefix sha) s1))]
         | Raise _ => []
         end in
    let left_by prefix :=
      match sha_reads o1 with
      | Ret sha => snd (serve (put prefix sha) s1)
      | Raise _ => s1
      end in
    (markup "Detected created: {src} -> uploading..." [APath (src_path ev)] = true ->
     calls_of (log (snd (on_created serve markup fs h ev w)))
     = calls_of (log w) ++ uploads "Auto-sync add " /\
     remote (snd (on_created serve markup fs h ev w)) = left_by "Auto-sync add ") /\
    (markup "Detected modified: {src} -> uploading..." [APath (src_path ev)] = true ->
     calls_of (log (snd (on_modified serve markup fs h ev w)))
     = calls_of (log w) ++ uploads "Auto-sync update " /\
     remote (snd (on_modified serve markup fs h ev w)) = left_by "Auto-sync update ").
Proof.
  intros ev w d repo_path Hdir Hign Hr Hp lookup_rq put o1 s1 uploads left_by.
  unfold on_created, on_modified. rewrite Hdir, Hign, !bind_console_print.
  assert (Hstart : forall text,
             calls_of (log (printed text [APath (src_path ev)] w)) = calls_of (log w))
    by (intros; unfold printed; cbn [log]; rewrite calls_of_app; cbn [calls_of];
        apply app_nil_r).
  split; intros Ha; rewrite Ha.
  - pose proof (upload_body_calls (src_path ev) "Auto-sync add " "Uploaded {repo_path}"
                  "Upload failed: {resp}" "Error on created: {e}"
                  (printed "Detected created: {src} -> uploading..."
                     [APath (src_path ev)] w) Hr Hp) as Hb.
    cbv zeta in Hb. unfold upload_body in Hb. rewrite Hstart in Hb. exact Hb.
  - pose proof (upload_body_calls (src_path ev) "Auto-sync update " "Updated {repo_path}"
                  "Update failed: {resp}" "Error on modified: {e}"
                  (printed "Detected modified: {src} -> uploading..."
                     [APath (src_path ev)] w) Hr Hp) as Hb.
    cbv zeta in Hb. unfold upload_body in Hb. rewrite Hstart in Hb. exact Hb.
Qed.

End UploadHandlers.

Lemma upload_event_unreadable_file_witness :
  on_created serve_tree markup_any fs_demo handler_demo created_locked tree_world
  = (Ret tt, printed "Error on created: {e}" [AExn OSError]
               (printed "Detected created: {src} -> uploading..."
                  [APath ["site"; "sub"; "locked"]] tree_world)).
Proof.
  apply (@upload_event_unreadable_file rnode serve_tree markup_any fs_demo handler_demo
           created_locked tree_world OSError eq_refl eq_refl eq_refl); reflexivity.
Defined.

Lemma upload_event_puts_with_fresh_token_witness :
  calls_of (log (snd (on_created serve_tree markup_any fs_demo handler_demo created_a
                        tree_world)))
  = [(contents_request "t" "o" "r" (JStr "pages/a.txt") "gh-pages",
      Ret (json_response 200 (entry_json ["pages"; "a.txt"] (RFile "s1"))));
     (put_request "t" "o" "r" (JStr "pages/a.txt") (b64encode "0123456789")
        "Auto-sync add pages/a.txt" "gh-pages" (JStr "s1"),
      Ret not_found)].
Proof.
  exact (proj1 (proj1 (@upload_event_puts_with_fresh_token rnode serve_tree markup_any
                         fs_demo handler_demo created_a tree_world "0123456789"
                         "pages/a.txt" eq_refl eq_refl eq_refl eq_refl)
                  eq_refl)).
Defined.

Section DeleteHandler.

Variable St : Type.
Variable serve : request -> St -> result response * St.
Variable markup : string -> list arg -> bool.

(** X20. A deleted-event on a path that is no directory, is not ignored and
    lies under the watched root, once the console has rendered the
    announcement: [on_deleted] looks the mapped remote path up on the Pages
    branch, with a GET served by the remote as it is now.  When the lookup
    gives a hash, the next and last call is the DELETE of that path
    carrying that very hash; when it gives none (or any falsy value), or
    raises, there is no other call.  And when it gives none and the console
    renders the warning, the handler returns with the warning printed. *)
Theorem on_deleted_resolves_then_deletes :
  forall (h : SyncEventHandler) (ev : fs_event) (w : world St) (rel : path),
    is_directory ev = false ->
    _is_ignored h (src_path ev) = false ->
    relative_to (src_path ev) (h_local_root h) = Ret rel ->
    markup "Detected deleted: {src} -> deleting from repo..." [APath (src_path ev)]
    = true ->
    let repo_path :=
      if negb (h_target_repo_base h =? "")
      then (h_target_repo_base h ++ "/" ++ join_slash rel)%string
      else join_slash rel in
    let lookup_rq := contents_request (h_token h) (h_owner h) (h_repo h) (JStr repo_path)
                       (h_pages_branch h) in
    let del sha := delete_request (h_token h) (h_owner h) (h_repo h) (JStr repo_path)
                     ("Auto-sync delete " ++ repo_path)%string (h_pages_branch h) sha in
    let w0 := printed "Detected deleted: {src} -> deleting from repo..."
                [APath (src_path ev)] w in
    let o1 := fst (serve lookup_rq (remote w)) in
    let s1 := snd (serve lookup_rq (remote w)) in
    let run := on_deleted serve markup h ev w in
    calls_of (log (snd run))
    = calls_of (log w)
      ++ (lookup_rq, o1)
         :: match sha_reads o1 with
            | Ret sha => if truthy sha then [(del sha, fst (serve (del sha) s1))] else []
            | Raise _ => []
            end /\
    (forall sha,
        sha_reads o1 = Ret sha -> truthy sha = false ->
        markup "File not found in repo: {repo_path}" [AStr repo_path] = true ->
        run = (Ret tt, printed "File not found in repo: {repo_path}" [AStr repo_path]
                         (served serve lookup_rq w0))).
Proof.
  intros h ev w rel Hdir Hign Hrel Ha repo_path lookup_rq del w0 o1 s1 run.
  assert (Hpath : _repo_path h (src_path ev) = Ret repo_path).
  { unfold _repo_path. rewrite Hrel. cbn [rbind]. subst repo_path.
    destruct (negb (h_target_repo_base h =? "")); reflexivity. }
  subst run. unfold on_deleted. rewrite Hdir, Hign, bind_console_print, Ha.
  fold w0. split.
  - match goal with
    | |- context [catch ?m ?hd w0] =>
        destruct (catch_print_quiet markup m "Error on deleted: {e}" w0) as [Hc _]
    end.
    rewrite Hc. clear Hc.
    rewrite bind_lift, Hpath, bind_run, get_file_sha_run. fold lookup_rq.
    unfold served, w0, printed. cbn [remote log]. fold o1 s1.
    assert (Hstart : forall l : list event,
               calls_of ((log w ++ [Print "Detected deleted: {src} -> deleting from repo..."
                                      [APath (src_path ev)]]) ++ l)
               = calls_of (log w) ++ calls_of l).
    { intros l. rewrite !calls_of_app. cbn [calls_of]. rewrite app_nil_r. reflexivity. }
    destruct (sha_reads o1) as [sha|e]; cbn [fst snd log]; [|apply Hstart].
    destruct (truthy sha); cbn [negb].
    2:{ destruct (console_print_quiet markup "File not found in repo: {repo_path}"
                    [AStr repo_path]
                    {| remote := s1;
                       log := (log w ++ [Print "Detected deleted: {src} -> deleting from repo..."
                                           [APath (src_path ev)]])
                              ++ [Call lookup_rq o1] |}) as [Hc _].
        rewrite Hc. cbn [log]. apply Hstart. }
    rewrite bind_run, delete_file_run. fold (del sha). unfold served. cbn [remote log].
    destruct (delete_reads (fst (serve (del sha) s1))) as [[ok resp]|e].
    + destruct ok;
        match goal with
        | |- context [console_print markup ?t ?a ?w2] =>
            destruct (console_print_quiet markup t a w2) as [Hc _]; rewrite Hc
        end; cbn [log]; rewrite <- app_assoc; apply Hstart.
    + cbn [snd log]. rewrite <- app_assoc. apply Hstart.
  - intros sha Hsha Ht Hw.
    unfold catch. rewrite bind_lift, Hpath, bind_run, get_file_sha_run.
    fold lookup_rq. replace (remote w0) with (remote w) by reflexivity.
    fold o1. rewrite Hsha, Ht. cbn [negb]. unfold console_print. rewrite Hw.
    reflexivity.
Qed.

End DeleteHandler.

Lemma on_deleted_resolves_then_deletes_witness :
  calls_of (log (snd (on_deleted serve_tree markup_demo handler_demo deleted_demo
                        {| remote := rtree_pages; log := [] |})))
  = [(contents_request "t" "o" "r" (JStr "pages/docs/x.md") "gh-pages",
      Ret (json_response 200 (entry_json ["pages"; "docs"; "x.md"] (RFile "s2"))));
     (delete_request "t" "o" "r" (JStr "pages/docs/x.md")
        "Auto-sync delete pages/docs/x.md" "gh-pages" (JStr "s2"),
      Ret not_found)].
Proof.
  exact (proj1 (@on_deleted_resolves_then_deletes rnode serve_tree markup_demo handler_demo
                  deleted_demo {| remote := rtree_pages; log := [] |} ["docs"; "x.md"]
                  eq_refl eq_refl eq_refl eq_refl)).
Defined.

(** ** Path mapping and the scan *)

Lemma filter_dot_free (rel : path) :
  Forall (fun p => dot_segment p = false) rel ->
  filter (fun p => negb (dot_segment p)) rel = rel.
Proof.
  induction 1 as [|x l Hx Hl IH]; simpl; [reflexivity|].
  rewrite Hx, IH. reflexivity.
Qed.

(** X4. The mapping of the watch handler and the mapping of the folder uploads
    send a file below the root to the same remote path, for a base that is
    empty or has something left once its outer slashes are stripped, when
    no part below the root is [.] or [..]. *)
Theorem watch_and_upload_map_alike :
  forall (cfg : config) (root rel : path) (base branch : string),
    rel <> [] ->
    Forall (fun p => dot_segment p = false) rel ->
    base = "" \/ strip_slash base <> "" ->
    _repo_path (SyncEventHandler_init cfg root base branch) (root ++ rel)
    = path_to_repo_path root (root ++ rel) base.
Proof.
  intros cfg root rel base branch Hne Hdots Hbase.
  unfold _repo_path, path_to_repo_path. cbn [h_local_root h_target_repo_base
    SyncEventHandler_init].
  destruct (relative_to (root ++ rel) root) as [r|e] eqn:Hr; [|reflexivity].
  apply relative_to_app_ret in Hr. subst r. cbn [rbind].
  rewrite (filter_dot_free Hdots).
  destruct Hbase as [-> | Hs].
  - reflexivity.
  - assert (Hb : (base =? "") = false).
    { apply String.eqb_neq. intros ->. apply Hs. reflexivity. }
    apply String.eqb_neq in Hs. rewrite Hb, Hs. cbn [negb].
    rewrite join_slash_cons by assumption. reflexivity.
Qed.

Lemma watch_and_upload_map_alike_witness :
  _repo_path (SyncEventHandler_init cfg_demo ["site"] "/docs/" "gh-pages")
    (["site"] ++ ["sub"; "b.txt"])
  = path_to_repo_path ["site"] (["site"] ++ ["sub"; "b.txt"]) "/docs/".
Proof.
  apply watch_and_upload_map_alike.
  - discriminate.
  - repeat constructor.
  - right. discriminate.
Defined.

Lemma append_cancel_l (s a b : string) : (s ++ a = s ++ b)%string -> a = b.
Proof.
  induction s as [|c s IH]; simpl; intros H; [exact H|].
  inversion H. apply IH. assumption.
Qed.

Lemma append_self (s a : string) : (s = s ++ a)%string -> a = "".
Proof.
  induction s as [|c s IH]; simpl; intros H; [symmetry; exact H|].
  inversion H. apply IH. assumption.
Qed.

Lemma join_slash_injective (rel1 rel2 : path) :
  Forall (fun p => good_name p = true) rel1 ->
  Forall (fun p => good_name p = true) rel2 ->
  join_slash rel1 = join_slash rel2 -> rel1 = rel2.
Proof.
  intros H1 H2 E.
  assert (Hs : forall rel, Forall (fun p => good_name p = true) rel ->
                           Forall (fun x => has_slash x = false) rel).
  { intros rel Hr. eapply Forall_impl; [|exact Hr]. intros a Ha.
    apply good_name_parts in Ha. tauto. }
  destruct rel1 as [|p ps], rel2 as [|q qs].
  - reflexivity.
  - exfalso. inversion H2 as [|x l Hq _]; subst. apply good_name_parts in Hq.
    pose proof (join_slash_not_empty qs (proj1 Hq)) as Hn.
    rewrite <- E in Hn. discriminate.
  - exfalso. inversion H1 as [|x l Hp _]; subst. apply good_name_parts in Hp.
    pose proof (join_slash_not_empty ps (proj1 Hp)) as Hn.
    rewrite E in Hn. discriminate.
  - rewrite <- (split_join_slash (Hs _ H1)), <- (split_join_slash (Hs _ H2)), E.
    reflexivity.
Qed.

(** Two paths below the root whose parts are entry names are mapped to the
    same remote path only when they are the same path, whatever the base. *)
Lemma path_mapping_injective (root rel1 rel2 : path) (base : string) :
  Forall (fun p => entry_name p = true) rel1 ->
  Forall (fun p => entry_name p = true) rel2 ->
  path_to_repo_path root (root ++ rel1) base = path_to_repo_path root (root ++ rel2) base ->
  rel1 = rel2.
Proof.
  intros H1 H2.
  assert (Hg : forall rel, Forall (fun p => entry_name p = true) rel ->
                           Forall (fun p => good_name p = true) rel
                           /\ Forall (fun p => dot_segment p = false) rel).
  { intros rel Hr. split; (eapply Forall_impl; [|exact Hr]); intros a Ha;
      unfold entry_name in Ha; apply andb_true_iff in Ha; destruct Ha as [Ha Hb];
      [exact Ha|apply negb_true_iff in Hb; exact Hb]. }
  destruct (Hg _ H1) as [G1 D1]. destruct (Hg _ H2) as [G2 D2].
  unfold path_to_repo_path.
  rewrite !relative_to_app by (intros _; apply good_names_anchored; assumption).
  cbn [rbind].
  rewrite (filter_dot_free D1), (filter_dot_free D2).
  destruct (negb (base =? "")); intros E; inversion E as [E'].
  - destruct rel1 as [|p ps], rel2 as [|q qs].
    + reflexivity.
    + exfalso. rewrite (join_slash_cons (strip_slash base) (ps := q :: qs)) in E'
        by discriminate.
      cbn [join_slash String.concat] in E'. apply append_self in E'. discriminate.
    + exfalso. rewrite (join_slash_cons (strip_slash base) (ps := p :: ps)) in E'
        by discriminate.
      cbn [join_slash String.concat] in E'. symmetry in E'.
      apply append_self in E'. discriminate.
    + rewrite !(join_slash_cons (strip_slash base)) in E' by discriminate.
      apply append_cancel_l in E'. inversion E' as [E''].
      apply join_slash_injective; assumption.
  - apply join_slash_injective; assumption.
Qed.

Lemma rglob_entry_names (n : node) :
  forall at_ p nd,
    proper_node n = true ->
    In (p, nd) (rglob at_ n) ->
    exists rel, p = at_ ++ rel /\ Forall (fun x => entry_name x = true) rel.
Proof.
  induction n as [d|ch IH] using node_nested_ind; intros at_ p nd Hp Hin.
  - destruct Hin.
  - cbn [proper_node] in Hp. rewrite forallb_forall in Hp.
    simpl in Hin. apply in_app_or in Hin. destruct Hin as [Hin|Hin].
    + apply in_map_iff in Hin. destruct Hin as [[name c] [E Hc]].
      cbn [fst snd] in E. inversion E; subst.
      specialize (Hp (name, nd) Hc). cbn [fst snd] in Hp.
      apply andb_true_iff in Hp. destruct Hp as [Hn _].
      exists [name]. split; [reflexivity|]. constructor; [exact Hn|constructor].
    + apply in_flat_map in Hin. destruct Hin as [[name c] [Hc Hin]].
      cbn [fst snd] in Hin. rewrite Forall_forall in IH.
      specialize (Hp (name, c) Hc). cbn [fst snd] in Hp.
      apply andb_true_iff in Hp. destruct Hp as [Hn Hpc].
      destruct (IH (name, c) Hc (at_ ++ [name]) p nd Hpc Hin) as [rel [E Hrel]].
      exists (name :: rel). split.
      * rewrite E, <- app_assoc. reflexivity.
      * constructor; assumption.
Qed.

Lemma gather_files_below (fs : node) (folder : path) (n : node)
    (skip_patterns : option (list string)) (f : path) :
  lookup fs folder = Some n ->
  proper_node n = true ->
  In f (gather_files_for_folder fs folder skip_patterns) ->
  exists rel, f = folder ++ rel /\ Forall (fun x => entry_name x = true) rel.
Proof.
  intros Hn Hp Hin. unfold gather_files_for_folder in Hin. rewrite Hn in Hin.
  apply in_map_iff in Hin. destruct Hin as [[p nd] [E Hin]]. cbn [fst] in E. subst p.
  apply filter_In in Hin. destruct Hin as [Hin _].
  eapply rglob_entry_names; eassumption.
Qed.

(** X5. The scan and the mapping together: every scanned file is mapped to a
    remote path (the mapping does not raise on it), and two scanned files
    are mapped to the same remote path only when they are the same file;
    so the tree of a batch never holds two entries for one path. *)
Theorem scanned_files_map_apart :
  forall (fs : node) (folder : path) (n : node)
         (skip_patterns : option (list string)) (base : string) (f1 f2 : path),
    lookup fs folder = Some n ->
    proper_node n = true ->
    In f1 (gather_files_for_folder fs folder skip_patterns) ->
    In f2 (gather_files_for_folder fs folder skip_patterns) ->
    (exists r, path_to_repo_path folder f1 base = Ret r) /\
    (path_to_repo_path folder f1 base = path_to_repo_path folder f2 base -> f1 = f2).
Proof.
  intros fs folder n skip_patterns base f1 f2 Hn Hp H1 H2.
  destruct (@gather_files_below fs folder n skip_patterns f1 Hn Hp H1) as [rel1 [E1 G1]].
  destruct (@gather_files_below fs folder n skip_patterns f2 Hn Hp H2) as [rel2 [E2 G2]].
  subst f1 f2. split.
  - unfold path_to_repo_path.
    rewrite relative_to_app
      by (intros _; apply good_names_anchored;
          eapply Forall_impl; [|exact G1]; intros a Ha; unfold entry_name in Ha;
          apply andb_true_iff in Ha; apply Ha).
    cbn [rbind].
    destruct (negb (base =? "")); eexists; reflexivity.
  - intros E. f_equal. eapply path_mapping_injective; eassumption.
Qed.

Lemma scanned_files_map_apart_witness :
  (exists r, path_to_repo_path ["site"] ["site"; "a.txt"] "docs" = Ret r) /\
  (path_to_repo_path ["site"] ["site"; "a.txt"] "docs"
   = path_to_repo_path ["site"] ["site"; "sub"; "b.txt"] "docs" ->
   ["site"; "a.txt"] = ["site"; "sub"; "b.txt"]).
Proof.
  apply (@scanned_files_map_apart fs_demo ["site"]
           (Dir [("a.txt", File (Some "0123456789"));
                 ("sub", Dir [("b.txt", File (Some "x")); ("locked", File None)]);
                 (".git", Dir [("config", File (Some "cfg"))])])
           None "docs" ["site"; "a.txt"] ["site"; "sub"; "b.txt"]).
  - reflexivity.
  - reflexivity.
  - simpl. auto.
  - simpl. auto.
Defined.

Lemma filter_scan (A B : Type) (f : B -> bool) (g : A -> bool) (l : list (A * B)) :
  map fst (filter (fun pn => f (snd pn) && g (fst pn)) l)
  = filter g (map fst (filter (fun pn => f (snd pn) && true) l)).
Proof.
  induction l as [|[a b] l IH]; simpl; [reflexivity|].
  destruct (f b); simpl; [|exact IH].
  destruct (g a); simpl; rewrite IH; reflexivity.
Qed.

(** X6. The scan with the configured ignore set is the full scan without the
    files the watch handler ignores, in the order of the full scan: the two
    components agree on what is ignored. *)
Theorem scan_agrees_with_watch_ignore :
  forall (fs : node) (folder : path) (cfg : config) (root : path)
         (base branch : string),
    gather_files_for_folder fs folder (Some (cfg_sync_ignore cfg))
    = filter (fun p => negb (_is_ignored (SyncEventHandler_init cfg root base branch) p))
        (gather_files_for_folder fs folder None).
Proof.
  intros fs folder cfg root base branch. unfold gather_files_for_folder.
  destruct (lookup fs folder) as [n|]; [|reflexivity].
  unfold _is_ignored. cbn [h_ignore SyncEventHandler_init existsb negb].
  apply (filter_scan node_is_file
           (fun p => negb (existsb (fun part => in_parts part p) (cfg_sync_ignore cfg)))).
Qed.

(** ** The walker, over any remote *)

Section WalkerReads.

Variable St : Type.
Variable serve : request -> St -> result response * St.
Variables token owner repo branch : string.

Lemma reads_only_ret (acc : list json) (w : world St) :
  reads_only token owner repo branch acc w (Ret acc, w).
Proof.
  exists []. cbn [fst snd]. rewrite app_nil_r. split; [reflexivity|].
  split; [constructor|]. intros res H. inversion H. exists []. rewrite app_nil_r.
  reflexivity.
Qed.

Lemma reads_only_raise (acc : list json) (w : world St) (e : exn) :
  reads_only token owner repo branch acc w (Raise e, w).
Proof.
  exists []. cbn [fst snd]. rewrite app_nil_r. split; [reflexivity|].
  split; [constructor|]. intros res H. discriminate H.
Qed.

Lemma reads_only_trans (acc acc' : list json) (w w' : world St)
    (run : result (list json) * world St) (tr : list event) :
  log w' = log w ++ tr ->
  Forall (fun ev => exists p out,
              ev = Call (contents_request token owner repo p branch) out) tr ->
  (exists more, acc' = acc ++ more) ->
  reads_only token owner repo branch acc' w' run ->
  reads_only token owner repo branch acc w run.
Proof.
  intros Hl Hc [m Hm] [tr' [Hl' [Hc' Hres]]].
  exists (tr ++ tr'). split; [rewrite Hl', Hl, app_assoc; reflexivity|].
  split; [apply Forall_app; split; assumption|].
  intros res Hr. destruct (Hres res Hr) as [m' Hm']. exists (m ++ m').
  rewrite Hm', Hm, app_assoc. reflexivity.
Qed.

Lemma walk_items_reads (rec : json -> list json -> M St (list json)) :
  (forall p acc w, reads_only token owner repo branch acc w (rec p acc w)) ->
  forall items acc w,
    reads_only token owner repo branch acc w (walk_items rec items acc w).
Proof.
  intros Hrec. induction items as [|it rest IH]; intros acc w.
  - apply reads_only_ret.
  - cbn [walk_items]. unfold bind at 1. unfold lift at 1.
    destruct (dict_get it "type") as [ty|e]; [|apply reads_only_raise].
    destruct (eq_str ty "file").
    + unfold bind at 1. unfold lift at 1.
      destruct (dict_get it "path") as [p|e]; [|apply reads_only_raise].
      eapply reads_only_trans with (tr := []); [rewrite app_nil_r; reflexivity|constructor| |apply IH].
      eexists; reflexivity.
    + destruct (eq_str ty "dir"); [|apply IH].
      unfold bind at 1. unfold lift at 1.
      destruct (dict_get it "path") as [p|e]; [|apply reads_only_raise].
      unfold bind at 1.
      destruct (Hrec p acc w) as [tr [Hl [Hc Hres]]].
      destruct (rec p acc w) as [[acc'|e] w1]; cbn [fst snd] in *.
      * eapply reads_only_trans; [exact Hl|exact Hc|apply Hres; reflexivity|apply IH].
      * exists tr. cbn [fst snd]. split; [exact Hl|]. split; [exact Hc|].
        intros res H. discriminate H.
Qed.

Lemma gather_rec_reads :
  forall (depth : nat) (pth : json) (acc : list json) (w : world St),
    reads_only token owner repo branch acc w
      (gather_rec serve depth token owner repo branch pth acc w).
Proof.
  induction depth as [|depth IH]; intros pth acc w.
  - apply reads_only_raise.
  - rewrite gather_rec_S. unfold bind at 1. rewrite get_repo_contents_run.
    assert (Hstep : forall run,
               reads_only token owner repo branch acc
                 (served serve (contents_request token owner repo pth branch) w) run ->
               reads_only token owner repo branch acc w run).
    { intros run. apply reads_only_trans
        with (tr := [Call (contents_request token owner repo pth branch)
                       (fst (serve (contents_request token owner repo pth branch) (remote w)))]).
      - reflexivity.
      - constructor; [eexists; eexists; reflexivity|constructor].
      - exists []. rewrite app_nil_r. reflexivity. }
    destruct (lookup_reads (fst (serve (contents_request token owner repo pth branch)
                                   (remote w)))) as [[ok dat]|e].
    2:{ apply Hstep, reads_only_raise. }
    apply Hstep. destruct ok; cbn [negb]; [|apply reads_only_ret].
    destruct dat; try apply reads_only_ret.
    + apply walk_items_reads. exact IH.
    + unfold bind, lift. cbn [dict_get].
      match goal with |- context [eq_str ?x "file"] => destruct (eq_str x "file") end.
      * eapply reads_only_trans with (tr := []);
          [rewrite app_nil_r; reflexivity|constructor|eexists; reflexivity|].
        apply reads_only_ret.
      * apply reads_only_ret.
Qed.

(** X7. Whatever the remote answers, and however deep the walk is allowed to
    go, [gather_rec] only reads: every call it makes is a GET of the
    contents of a path on the branch it was given.  When it returns, the
    list it returns starts with the list it was given. *)
Theorem walker_only_reads :
  forall (depth : nat) (pth : json) (acc : list json) (w : world St),
    reads_only token owner repo branch acc w
      (gather_rec serve depth token owner repo branch pth acc w).
Proof.
  exact gather_rec_reads.
Qed.

End WalkerReads.

(** ** The configuration defaults *)

Lemma assoc_app (k : string) (d1 d2 : pydict) :
  assoc k (d1 ++ d2) = match assoc k d1 with Some v => Some v | None => assoc k d2 end.
Proof.
  induction d1 as [|[k' v] d1 IH]; simpl; [reflexivity|].
  destruct (k =? k'); [reflexivity|exact IH].
Qed.

Lemma assoc_setdefault (k k' : string) (v : json) (d : pydict) :
  assoc k (setdefault d k' v)
  = match assoc k d with
    | Some x => Some x
    | None => if k =? k' then Some v else None
    end.
Proof.
  unfold setdefault. destruct (assoc k' d) as [x|] eqn:E.
  - destruct (assoc k d) eqn:Ek; [reflexivity|].
    destruct (k =? k') eqn:Ekk; [|reflexivity].
    apply String.eqb_eq in Ekk. subst k'. rewrite E in Ek. discriminate.
  - rewrite assoc_app. simpl. reflexivity.
Qed.

Lemma assoc_fill (k : string) (defaults : pydict) :
  forall cfg,
    assoc k (fold_left (fun c kv => setdefault c (fst kv) (snd kv)) defaults cfg)
    = match assoc k cfg with Some v => Some v | None => assoc k defaults end.
Proof.
  induction defaults as [|[k' v] defaults IH]; intros cfg; simpl.
  - destruct (assoc k cfg); reflexivity.
  - rewrite IH, assoc_setdefault. destruct (assoc k cfg); [reflexivity|].
    destruct (k =? k'); reflexivity.
Qed.

Lemma fill_extends (defaults : pydict) :
  forall cfg, exists added,
    fold_left (fun c kv => setdefault c (fst kv) (snd kv)) defaults cfg = cfg ++ added.
Proof.
  induction defaults as [|[k v] defaults IH]; intros cfg; simpl.
  - exists []. rewrite app_nil_r. reflexivity.
  - destruct (IH (setdefault cfg k v)) as [added E]. rewrite E.
    unfold setdefault. destruct (assoc k cfg).
    + exists added. reflexivity.
    + exists ((k, v) :: added). rewrite <- app_assoc. reflexivity.
Qed.

Lemma fill_filled (defaults : pydict) :
  forall cfg,
    (forall kv, In kv defaults -> assoc (fst kv) cfg <> None) ->
    fold_left (fun c kv => setdefault c (fst kv) (snd kv)) defaults cfg = cfg.
Proof.
  induction defaults as [|[k v] defaults IH]; intros cfg H; simpl; [reflexivity|].
  assert (Hk : setdefault cfg k v = cfg).
  { unfold setdefault. destruct (assoc k cfg) eqn:E; [reflexivity|].
    exfalso. apply (H (k, v)); [left; reflexivity|exact E]. }
  rewrite Hk. apply IH. intros kv Hin. apply H. right. exact Hin.
Qed.

Lemma assoc_In (k : string) (v : json) (d : pydict) :
  In (k, v) d -> assoc k d <> None.
Proof.
  induction d as [|[k' v'] d IH]; simpl; [tauto|].
  intros [H|H].
  - inversion H. subst. rewrite String.eqb_refl. discriminate.
  - destruct (k =? k'); [discriminate|apply IH; exact H].
Qed.

(** X8. [ensure_config] only fills gaps: a key the configuration holds keeps its
    value (an empty token stays empty, a [null] stays [null]) and its place,
    a key it lacks gets the default, the new keys come after the old ones;
    and applying it a second time changes nothing. *)
Theorem ensure_config_fills_gaps :
  forall (cfg : pydict) (k : string),
    assoc k (ensure_config cfg)
      = match assoc k cfg with Some v => Some v | None => assoc k config_defaults end /\
    (exists added, ensure_config cfg = cfg ++ added) /\
    ensure_config (ensure_config cfg) = ensure_config cfg.
Proof.
  intros cfg k. unfold ensure_config.
  split; [apply assoc_fill|]. split; [apply fill_extends|].
  apply fill_filled. intros [k' v'] Hin. cbn [fst]. rewrite assoc_fill.
  destruct (assoc k' cfg); [discriminate|]. eapply assoc_In. exact Hin.
Qed.

(** A configuration file that holds an empty token and nothing else. *)
Example ensure_config_demo :
  ensure_config [("token", JStr "")]
  = [("token", JStr ""); ("owner", JStr ""); ("repo", JStr "");
     ("branch", JStr "main"); ("pages_branch", JStr "gh-pages");
     ("auto_commit_message", JStr "Auto upload via gtfa Tool");
     ("sync_ignore", JList [JStr ".git"; JStr "__pycache__"])].
Proof. reflexivity. Qed.

(** ** The batch, when everything goes through *)

Section BatchSuccess.

Variable St : Type.
Variable serve : request -> St -> result response * St.
Variable fs : node.
Variables token owner repo : string.
Variable local_folder : path.
Variable target_repo_base : string.


Variable Inv : St -> Prop.

Lemma create_blobs_all_good (files : list path) :
  (forall f, In f files -> exists d, read_bytes fs f = Ret d) ->
  (forall f, In f files ->
             exists rp, path_to_repo_path local_folder f target_repo_base = Ret rp) ->
  (forall c s, Inv s -> exists d s',
      serve (blob_request token owner repo c) s
      = (Ret {| status_code := 201; content := Json (JDict d) |}, s') /\ Inv s') ->
  forall (te : list json) (w : world St),
  Inv (remote w) ->
  exists new w',
    create_blobs serve fs token owner repo local_folder target_repo_base files te [] w
      = (Ret (te ++ new, []), w') /\
    Forall2 (fun f e => exists rp sha,
                 path_to_repo_path local_folder f target_repo_base = Ret rp /\
                 e = tree_entry rp sha) files new.
Proof.
  intros Hread Hmap Hserve. induction files as [|f rest IH]; intros te w Hw.
  - exists [], w. simpl. rewrite app_nil_r. split; [reflexivity|constructor].
  - destruct (Hread f (or_introl eq_refl)) as [d Hd].
    destruct (Hmap f (or_introl eq_refl)) as [rp Hrp].
    destruct (Hserve (b64encode d) (remote w) Hw) as [dd [s' [Hs Hs']]].
    rewrite create_blobs_cons. unfold bind at 1, blob_step, catch, bind, lift.
    rewrite Hd, create_blob_run. unfold served. rewrite Hs.
    cbn [fst snd status_reads rbind status_code content r_json negb dict_get].
    change (201 =? 201)%Z with true. cbn iota. cbn [rbind negb].
    rewrite Hrp. unfold ret.
    change (dict_get (JDict dd) "sha")
      with (Ret (match assoc "sha" dd with Some v => v | None => JNull end)).
    cbn iota. cbn [app].
    set (w1 := {| remote := s';
                  log := log w ++ [Call (blob_request token owner repo (b64encode d))
                                     (Ret {| status_code := 201; content := Json (JDict dd) |})] |}).
    destruct (IH (fun f' Hf' => Hread f' (or_intror Hf')) (fun f' Hf' => Hmap f' (or_intror Hf'))
                (te ++ [tree_entry rp (match assoc "sha" dd with Some v => v | None => JNull end)])
                w1 Hs') as [new [w' [E HF]]].
    rewrite E. eexists (_ :: new), w'. rewrite <- app_assoc. split; [reflexivity|].
    constructor; [|exact HF]. exists rp. eexists. split; [exact Hrp|reflexivity].
Qed.

End BatchSuccess.

(** X9. When every file of the scan can be read and the remote accepts
    every blob, the blob loop makes one blob request per scanned file, in
    scan order, ends without a failure, and returns one tree entry per
    file, in the same order: a blob of mode 100644 at the file's mapped
    remote path, whose hash is the [sha] of the answer to that file's own
    blob request. *)
Theorem batch_tree_has_one_entry_per_file :
  forall (St : Type) (serve : request -> St -> result response * St)
         (Inv : St -> Prop)
         (fs : node) (token owner repo : string) (folder : path) (n : node)
         (base : string) (w : world St),
    lookup fs folder = Some n ->
    proper_node n = true ->
    (forall f, In f (gather_files_for_folder fs folder None) ->
               exists d, read_bytes fs f = Ret d) ->
    accepts_blobs serve token owner repo Inv ->
    Inv (remote w) ->
    let files := gather_files_for_folder fs folder None in
    exists te w1 outs,
      create_blobs serve fs token owner repo folder base files [] [] w
      = (Ret (te, []), w1) /\
      List.length outs = List.length files /\
      calls_of (log w1)
      = calls_of (log w) ++ flat_map (blob_call fs token owner repo) (combine files outs) /\
      Forall2 (fun fo e => exists rp sha,
                   path_to_repo_path folder (fst fo) base = Ret rp /\
                   created_sha (snd fo) = Some sha /\
                   e = JDict [("path", JStr rp); ("mode", JStr "100644");
                              ("type", JStr "blob"); ("sha", sha)])
        (combine files outs) te.
Proof.
  intros St serve Inv fs token owner repo folder n base w Hn Hp Hread Hserve Hw files.
  destruct (@create_blobs_all_good St serve fs token owner repo folder base Inv
              files Hread) with (te := @nil json) (w := w)
    as [new0 [w0 [E0 _]]].
  - intros f Hf.
    destruct (@gather_files_below fs folder n None f Hn Hp Hf) as [rel [Ef Hrel]].
    subst f. unfold path_to_repo_path.
    rewrite relative_to_app
      by (intros _; apply good_names_anchored;
          eapply Forall_impl; [|exact Hrel]; intros a Ha; unfold entry_name in Ha;
          apply andb_true_iff in Ha; apply Ha).
    cbn [rbind]. destruct (negb (base =? "")); eexists; reflexivity.
  - exact Hserve.
  - exact Hw.
  - destruct (create_blobs_outcomes serve fs token owner repo folder base files [] [] w)
      as (te & new & outs & w1 & E & Hlen & Hc & _ & H2).
    rewrite E in E0. cbn [app] in E, E0. inversion E0 as [[Ht Hnew Hw1]].
    exists te, w1, outs. split; [rewrite E, Hnew; reflexivity|].
    split; [exact Hlen|]. split; [exact Hc|].
    exact (H2 Hnew).
Qed.

Lemma batch_tree_has_one_entry_per_file_witness :
  let files := gather_files_for_folder fs_demo ["site"; ".git"] None in
  exists te w1 outs,
    create_blobs serve_mock fs_demo "t" "o" "r" ["site"; ".git"] "backup" files [] []
      mock_demo
    = (Ret (te, []), w1) /\
    List.length outs = List.length files /\
    calls_of (log w1)
    = calls_of (log mock_demo)
      ++ flat_map (blob_call fs_demo "t" "o" "r") (combine files outs) /\
    Forall2 (fun fo e => exists rp sha,
                 path_to_repo_path ["site"; ".git"] (fst fo) "backup" = Ret rp /\
                 created_sha (snd fo) = Some sha /\
                 e = JDict [("path", JStr rp); ("mode", JStr "100644");
                            ("type", JStr "blob"); ("sha", sha)])
      (combine files outs) te.
Proof.
  apply (@batch_tree_has_one_entry_per_file mock serve_mock (fun s => m_reject s = [])
           fs_demo "t" "o" "r" ["site"; ".git"] (Dir [("config", File (Some "cfg"))])
           "backup" mock_demo).
  - reflexivity.
  - reflexivity.
  - intros f [Hf|[]]. subst f. eexists. reflexivity.
  - intros c s Hs. unfold serve_mock, blob_request, request_for. cbn [url payload].
    rewrite Hs. cbn [existsb]. eexists. eexists. split; [reflexivity|exact Hs].
  - reflexivity.
Defined.

(** ** The per-file mode *)

Section PerFile.

Variable St : Type.
Variable serve : request -> St -> result response * St.
Variable fs : node.
Variables token owner repo branch message : string.
Variable local_folder : path.
Variable target_repo_base : string.

Lemma lookup_or_put_contents (p : json) (out : result response) :
  lookup_or_put (Call (contents_request token owner repo p branch) out).
Proof. eexists; eexists. split; [reflexivity|]. split; [left|]; reflexivity. Qed.

Lemma lookup_or_put_put (p : json) (c m b : string) (sha : json) (out : result response) :
  lookup_or_put (Call (put_request token owner repo p c m b sha) out).
Proof.
  eexists; eexists. split; [reflexivity|]. split; [right; reflexivity|].
  unfold forced, put_request, request_for. cbn [payload].
  destruct (truthy sha); reflexivity.
Qed.

Lemma upload_each_run (files : list path) :
  forall (successes : nat) (failures : list (path * arg)) (w : world St),
    let run := upload_each serve fs token owner repo branch message local_folder
                 target_repo_base files successes failures w in
    exists tr,
      log (snd run) = log w ++ tr /\
      Forall lookup_or_put tr /\
      forall s' fl',
        fst run = Ret (s', fl') ->
        s' + List.length fl' = successes + List.length failures + List.length files /\
        (forall f, In f files -> exists d, read_bytes fs f = Ret d) /\
        map method (requests_of tr) = flat_map (fun _ => ["GET"; "PUT"]) files.
Proof.
  induction files as [|f rest IH]; intros successes failures w run; subst run.
  - exists []. cbn. rewrite app_nil_r. split; [reflexivity|]. split; [constructor|].
    intros s' fl' H. inversion H; subst. split; [lia|]. split; [intros f []|reflexivity].
  - cbn [upload_each]. rewrite bind_lift.
    destruct (path_to_repo_path local_folder f target_repo_base) as [rp|e].
    2:{ exists []. cbn [fst snd]. rewrite app_nil_r. split; [reflexivity|].
        split; [constructor|]. intros s' fl' H. discriminate H. }
    rewrite bind_run.
    pose proof (get_file_sha_world serve token owner repo (JStr rp) branch w) as Hw.
    destruct (get_file_sha serve token owner repo (JStr rp) branch w) as [[sha|e] w1];
      cbn [snd] in Hw; subst w1.
    2:{ eexists [_]. cbn [fst snd served log]. split; [reflexivity|].
        split; [constructor; [apply lookup_or_put_contents|constructor]|].
        intros s' fl' H. discriminate H. }
    rewrite bind_lift. unfold file_to_base64, rbind.
    destruct (read_bytes fs f) as [d|e] eqn:Hd.
    2:{ eexists [_]. cbn [fst snd served log]. split; [reflexivity|].
        split; [constructor; [apply lookup_or_put_contents|constructor]|].
        intros s' fl' H. discriminate H. }
    rewrite bind_run.
    pose proof (create_or_update_file_world serve token owner repo (JStr rp) (b64encode d)
                  message branch sha
                  (served serve (contents_request token owner repo (JStr rp) branch) w))
      as Hc.
    destruct (create_or_update_file serve token owner repo (JStr rp) (b64encode d)
                message branch sha
                (served serve (contents_request token owner repo (JStr rp) branch) w))
      as [[[ok resp]|e] w2]; cbn [snd] in Hc; subst w2.
    2:{ eexists [_; _]. cbn [fst snd served log]. rewrite <- app_assoc.
        split; [reflexivity|].
        split; [constructor; [apply lookup_or_put_contents|
                 constructor; [apply lookup_or_put_put|constructor]]|].
        intros s' fl' H. discriminate H. }
    set (w2 := served serve (put_request token owner repo (JStr rp) (b64encode d)
                               message branch sha)
                 (served serve (contents_request token owner repo (JStr rp) branch) w)).
    assert (Hlog : log w2 = log w ++ [Call (contents_request token owner repo (JStr rp) branch)
                                        (fst (serve (contents_request token owner repo (JStr rp) branch) (remote w)));
                                      Call (put_request token owner repo (JStr rp) (b64encode d) message branch sha)
                                        (fst (serve (put_request token owner repo (JStr rp) (b64encode d) message branch sha)
                                                (remote (served serve (contents_request token owner repo (JStr rp) branch) w))))]).
    { unfold w2, served. cbn [log remote]. rewrite <- app_assoc. reflexivity. }
    assert (Hgo : forall s0 fl0,
               s0 + List.length fl0 = S (successes + List.length failures) ->
               exists tr,
                 log (snd (upload_each serve fs token owner repo branch message local_folder
                             target_repo_base rest s0 fl0 w2)) = log w ++ tr /\
                 Forall lookup_or_put tr /\
                 forall s' fl',
                   fst (upload_each serve fs token owner repo branch message local_folder
                          target_repo_base rest s0 fl0 w2) = Ret (s', fl') ->
                   s' + List.length fl'
                   = successes + List.length failures + List.length (f :: rest) /\
                   (forall f', In f' (f :: rest) -> exists d', read_bytes fs f' = Ret d') /\
                   map method (requests_of tr)
                   = flat_map (fun _ => ["GET"; "PUT"]) (f :: rest)).
    { intros s0 fl0 Hcount.
      destruct (IH s0 fl0 w2) as [tr [Hl [Hc' Hres]]].
      eexists (_ :: _ :: tr). split; [rewrite Hl, Hlog, <- app_assoc; reflexivity|].
      split; [constructor; [apply lookup_or_put_contents|
               constructor; [apply lookup_or_put_put|exact Hc']]|].
      intros s' fl' H. destruct (Hres s' fl' H) as [Hn [Hr Hm]].
      split; [cbn [List.length]; lia|]. split.
      - intros f' [Hf|Hf]; [subst f'; eauto|apply Hr; exact Hf].
      - cbn [requests_of map flat_map app]. rewrite Hm. reflexivity. }
    destruct ok.
    + apply Hgo. lia.
    + apply Hgo. rewrite length_app. cbn [List.length]. lia.
Qed.


(** The per-file loop, file by file: when it returns, every file was mapped
    and read, the log gained exactly the lookup and the PUT of each file, in
    order, and the failures are the files whose PUT was not answered 200 or
    201. *)
Lemma upload_each_outcomes (files : list path) :
  forall (successes : nat) (failures : list (path * arg)) (w : world St)
         (s' : nat) (fl' : list (path * arg)),
    let run := upload_each serve fs token owner repo branch message local_folder
                 target_repo_base files successes failures w in
    fst run = Ret (s', fl') ->
    exists outs,
      List.length outs = List.length files /\
      log (snd run)
      = log w ++ map call_event
                   (flat_map (upload_step fs token owner repo branch message local_folder
                                target_repo_base) (combine files outs)) /\
      fl' = failures ++ flat_map upload_failure (combine files outs) /\
      s' + List.length (flat_map upload_failure (combine files outs))
      = successes + List.length files.
Proof.
  induction files as [|f rest IH]; intros successes failures w s' fl' run; subst run.
  - cbn. intros H. inversion H; subst. exists []. rewrite !app_nil_r.
    repeat split; reflexivity.
  - cbn [upload_each]. rewrite bind_lift.
    destruct (path_to_repo_path local_folder f target_repo_base) as [rp|e] eqn:Hrp;
      [|discriminate].
    rewrite bind_run, get_file_sha_run. unfold served.
    destruct (serve (contents_request token owner repo (JStr rp) branch) (remote w))
      as [o1 s1]. cbn [fst snd].
    destruct (sha_reads o1) as [sha|e] eqn:Hsha; [|discriminate].
    rewrite bind_lift. unfold file_to_base64, rbind.
    destruct (read_bytes fs f) as [d|e] eqn:Hd; [|discriminate].
    rewrite bind_run, create_or_update_file_run. unfold served. cbn [remote log].
    destruct (serve (put_request token owner repo (JStr rp) (b64encode d) message branch
                       sha) s1) as [o2 s2]. cbn [fst snd].
    destruct (put_reads o2) as [[ok resp]|e] eqn:Hput; [|discriminate].
    assert (Hstep : upload_step fs token owner repo branch message local_folder
                      target_repo_base (f, (o1, o2))
                    = [(contents_request token owner repo (JStr rp) branch, o1);
                       (put_request token owner repo (JStr rp) (b64encode d) message
                          branch sha, o2)]).
    { unfold upload_step, sha_of. cbn [fst snd]. rewrite Hrp, Hd, Hsha. reflexivity. }
    assert (Hgo : forall s0 fs0,
               fst (upload_each serve fs token owner repo branch message local_folder
                      target_repo_base rest s0 fs0
                      {| remote := s2;
                         log := (log w ++ [Call (contents_request token owner repo
                                                   (JStr rp) branch) o1])
                                ++ [Call (put_request token owner repo (JStr rp)
                                            (b64encode d) message branch sha) o2] |})
               = Ret (s', fl') ->
               fs0 = failures ++ upload_failure (f, (o1, o2)) ->
               s0 + List.length (upload_failure (f, (o1, o2))) = S successes ->
               exists outs,
                 List.length outs = List.length (f :: rest) /\
                 log (snd (upload_each serve fs token owner repo branch message
                             local_folder target_repo_base rest s0 fs0
                             {| remote := s2;
                                log := (log w ++ [Call (contents_request token owner repo
                                                          (JStr rp) branch) o1])
                                       ++ [Call (put_request token owner repo (JStr rp)
                                                   (b64encode d) message branch sha)
                                             o2] |}))
                 = log w ++ map call_event
                              (flat_map (upload_step fs token owner repo branch message
                                           local_folder target_repo_base)
                                 (combine (f :: rest) outs)) /\
                 fl' = failures ++ flat_map upload_failure (combine (f :: rest) outs) /\
                 s' + List.length (flat_map upload_failure (combine (f :: rest) outs))
                 = successes + List.length (f :: rest)).
    { intros s0 fs0 Hr Hfs Hs0.
      destruct (IH s0 fs0 _ s' fl' Hr) as (outs & Hn & Hl & Hf & Hcount).
      exists ((o1, o2) :: outs).
      split; [cbn [List.length]; rewrite Hn; reflexivity|].
      split; [rewrite Hl; cbn [combine flat_map log]; rewrite Hstep;
              cbn [app map call_event fst snd]; rewrite <- !app_assoc; reflexivity|].
      split; [rewrite Hf, Hfs; cbn [combine flat_map]; rewrite app_assoc; reflexivity|].
      cbn [combine flat_map List.length]. rewrite length_app. lia. }
    destruct ok; intros Hr; apply (Hgo _ _ Hr); unfold upload_failure; cbn [fst snd];
      rewrite Hput; cbn [List.length app]; rewrite ?app_nil_r; try reflexivity; lia.
Qed.

Lemma upload_each_maps_and_reads (files : list path) :
  forall (successes : nat) (failures : list (path * arg)) (w : world St)
         (res : nat * list (path * arg)),
    fst (upload_each serve fs token owner repo branch message local_folder
           target_repo_base files successes failures w) = Ret res ->
    forall f, In f files ->
      (exists rp, path_to_repo_path local_folder f target_repo_base = Ret rp) /\
      (exists d, read_bytes fs f = Ret d).
Proof.
  induction files as [|f0 rest IH]; intros successes failures w res Hr f Hin; [destruct Hin|].
  cbn [upload_each] in Hr. rewrite bind_lift in Hr.
  destruct (path_to_repo_path local_folder f0 target_repo_base) as [rp|e] eqn:Hrp;
    [|discriminate].
  rewrite bind_run, get_file_sha_run in Hr.
  destruct (sha_reads _) as [sha|e]; [|discriminate].
  rewrite bind_lift in Hr. unfold file_to_base64, rbind in Hr.
  destruct (read_bytes fs f0) as [d|e] eqn:Hd; [|discriminate].
  rewrite bind_run, create_or_update_file_run in Hr.
  destruct (put_reads _) as [[ok resp]|e]; [|discriminate].
  destruct Hin as [Hf|Hin].
  - subst f. split; eauto.
  - destruct ok; eapply IH; eassumption.
Qed.

End PerFile.

Lemma op_upload_folder_per_file (St : Type)
    (serve : request -> St -> result response * St) (fs : node) (cfg : config)
    (ans : upload_answers) (w : world St) :
  is_dir fs (ans_local_folder ans) = true ->
  ans_mode ans = "1" ->
  gather_files_for_folder fs (ans_local_folder ans) None <> [] ->
  let files := gather_files_for_folder fs (ans_local_folder ans) None in
  let loop := upload_each serve fs (cfg_token cfg) (cfg_owner cfg) (cfg_repo cfg)
                (cfg_branch cfg) (ans_message ans) (ans_local_folder ans)
                (ans_target_repo_base ans) files 0 [] (upload_start cfg ans files w) in
  op_upload_folder serve fs cfg ans w
  = match fst loop with
    | Ret (successes, failures) =>
        (Ret tt, {| remote := remote (snd loop);
                    log := log (snd loop) ++ per_file_report successes failures |})
    | Raise e => (Raise e, snd loop)
    end.
Proof.
  intros Hdir Hmode Hfiles files loop. subst loop. unfold op_upload_folder.
  rewrite Hdir, (is_dir_exists _ _ Hdir). cbn [negb orb].
  fold files. destruct files as [|f0 files'] eqn:Ef; [contradiction Hfiles; reflexivity|].
  rewrite Hmode. change ("1" =? "1") with true. cbn iota.
  rewrite bind_print, bind_run. unfold upload_start.
  rewrite Hmode.
  destruct (upload_each serve fs (cfg_token cfg) (cfg_owner cfg) (cfg_repo cfg)
              (cfg_branch cfg) (ans_message ans) (ans_local_folder ans)
              (ans_target_repo_base ans) (f0 :: files') 0 [] _) as [[[s fl]|e] w1];
    cbn [fst snd]; [|reflexivity].
  rewrite bind_print. unfold per_file_report, printed. cbn [remote log].
  destruct fl as [|x fl'].
  - reflexivity.
  - rewrite bind_print, print_failures_run. unfold printed. cbn [remote log].
    rewrite <- !app_assoc. reflexivity.
Qed.

(** X10. In per-file mode on a folder that holds files, when the operation
    returns: every scanned file was mapped and read; between the
    announcement and the report the log holds exactly, for each scanned
    file in scan order, the lookup of its mapped path on the branch and
    then the PUT there of its base64 content, with the commit message and
    the hash that lookup gave; the failures reported are the files whose
    PUT was not answered 200 or 201, each with the answer; and the
    successes reported are the other files. *)
Theorem per_file_mode_accounts_for_every_file :
  forall (St : Type) (serve : request -> St -> result response * St)
         (fs : node) (cfg : config) (ans : upload_answers) (w : world St),
    is_dir fs (ans_local_folder ans) = true ->
    ans_mode ans = "1" ->
    gather_files_for_folder fs (ans_local_folder ans) None <> [] ->
    fst (op_upload_folder serve fs cfg ans w) = Ret tt ->
    let files := gather_files_for_folder fs (ans_local_folder ans) None in
    exists outs,
      let failures := flat_map upload_failure (combine files outs) in
      List.length outs = List.length files /\
      (forall f, In f files ->
         (exists rp, path_to_repo_path (ans_local_folder ans) f (ans_target_repo_base ans)
                     = Ret rp) /\
         (exists d, read_bytes fs f = Ret d)) /\
      log (snd (op_upload_folder serve fs cfg ans w))
      = log (upload_start cfg ans files w)
        ++ map call_event
             (flat_map (upload_step fs (cfg_token cfg) (cfg_owner cfg) (cfg_repo cfg)
                          (cfg_branch cfg) (ans_message ans) (ans_local_folder ans)
                          (ans_target_repo_base ans))
                (combine files outs))
        ++ per_file_report (List.length files - List.length failures) failures.
Proof.
  intros St serve fs cfg ans w Hdir Hmode Hfiles Hret files.
  rewrite (@op_upload_folder_per_file St serve fs cfg ans w Hdir Hmode Hfiles) in Hret |- *.
  fold files in Hret |- *.
  pose proof (upload_each_outcomes serve fs (cfg_token cfg) (cfg_owner cfg) (cfg_repo cfg)
                (cfg_branch cfg) (ans_message ans) (ans_local_folder ans)
                (ans_target_repo_base ans) files 0 [] (upload_start cfg ans files w))
    as Hout.
  pose proof (upload_each_maps_and_reads serve fs (cfg_token cfg) (cfg_owner cfg)
                (cfg_repo cfg) (cfg_branch cfg) (ans_message ans) (ans_local_folder ans)
                (ans_target_repo_base ans) files 0 [] (upload_start cfg ans files w))
    as Hmr.
  cbv zeta in Hout.
  destruct (upload_each serve fs (cfg_token cfg) (cfg_owner cfg) (cfg_repo cfg)
              (cfg_branch cfg) (ans_message ans) (ans_local_folder ans)
              (ans_target_repo_base ans) files 0 [] (upload_start cfg ans files w))
    as [[[s fl]|e] w1]; cbn [fst snd] in *; [|discriminate Hret].
  destruct (Hout s fl eq_refl) as (outs & Hn & Hl & Hf & Hcount).
  exists outs. cbv zeta. cbn [app] in Hf. rewrite <- Hf.
  split; [exact Hn|]. split; [exact (Hmr _ eq_refl)|].
  cbn [log]. rewrite Hl, <- app_assoc.
  replace (List.length files - List.length fl) with s; [reflexivity|].
  rewrite <- Hf in Hcount. lia.
Qed.

(** X11. In per-file mode nothing catches a failed read: when a scanned file
    cannot be read the operation does not return, it raises (the read
    error of that file, or an error met before reaching it). *)
Theorem per_file_mode_raises_on_unreadable_file :
  forall (St : Type) (serve : request -> St -> result response * St)
         (fs : node) (cfg : config) (ans : upload_answers) (w : world St)
         (f : path) (e0 : exn),
    is_dir fs (ans_local_folder ans) = true ->
    ans_mode ans = "1" ->
    In f (gather_files_for_folder fs (ans_local_folder ans) None) ->
    read_bytes fs f = Raise e0 ->
    exists e, fst (op_upload_folder serve fs cfg ans w) = Raise e.
Proof.
  intros St serve fs cfg ans w f e0 Hdir Hmode Hin Hread.
  assert (Hfiles : gather_files_for_folder fs (ans_local_folder ans) None <> []).
  { intros E. rewrite E in Hin. destruct Hin. }
  rewrite (@op_upload_folder_per_file St serve fs cfg ans w Hdir Hmode Hfiles).
  destruct (upload_each_run serve fs (cfg_token cfg) (cfg_owner cfg) (cfg_repo cfg)
              (cfg_branch cfg) (ans_message ans) (ans_local_folder ans)
              (ans_target_repo_base ans)
              (gather_files_for_folder fs (ans_local_folder ans) None) 0 []
              (upload_start cfg ans (gather_files_for_folder fs (ans_local_folder ans) None) w))
    as [tr [_ [_ Hres]]].
  destruct (fst (upload_each serve fs (cfg_token cfg) (cfg_owner cfg) (cfg_repo cfg)
                   (cfg_branch cfg) (ans_message ans) (ans_local_folder ans)
                   (ans_target_repo_base ans)
                   (gather_files_for_folder fs (ans_local_folder ans) None) 0 []
                   (upload_start cfg ans
                      (gather_files_for_folder fs (ans_local_folder ans) None) w)))
    as [[s fl]|e].
  - destruct (Hres s fl eq_refl) as [_ [Hr _]]. destruct (Hr f Hin) as [d Hd].
    rewrite Hd in Hread. discriminate.
  - exists e. reflexivity.
Qed.

Lemma per_file_mode_accounts_for_every_file_witness :
  let files := gather_files_for_folder fs_demo ["site"; ".git"] None in
  exists outs,
    let failures := flat_map upload_failure (combine files outs) in
    List.length outs = List.length files /\
    (forall f, In f files ->
       (exists rp, path_to_repo_path ["site"; ".git"] f "pages" = Ret rp) /\
       (exists d, read_bytes fs_demo f = Ret d)) /\
    log (snd (op_upload_folder serve_tree fs_demo cfg_demo ans_git_each tree_world))
    = log (upload_start cfg_demo ans_git_each files tree_world)
      ++ map call_event
           (flat_map (upload_step fs_demo "t" "o" "r" "main" "msg" ["site"; ".git"] "pages")
              (combine files outs))
      ++ per_file_report (List.length files - List.length failures) failures.
Proof.
  apply (@per_file_mode_accounts_for_every_file rnode serve_tree fs_demo cfg_demo
           ans_git_each tree_world).
  - reflexivity.
  - reflexivity.
  - discriminate.
  - reflexivity.
Defined.

Lemma per_file_mode_raises_on_unreadable_file_witness :
  exists e, fst (op_upload_folder serve_tree fs_demo cfg_demo ans_site_each tree_world)
            = Raise e.
Proof.
  apply (@per_file_mode_raises_on_unreadable_file rnode serve_tree fs_demo cfg_demo
           ans_site_each tree_world ["site"; "sub"; "locked"] OSError).
  - reflexivity.
  - reflexivity.
  - simpl. auto.
  - reflexivity.
Defined.

(** ** What a folder upload never does *)

Lemma lookup_or_put_safe (tr : list event) :
  Forall lookup_or_put tr -> Forall (fun rq => safe_request rq = true) (requests_of tr).
Proof.
  induction 1 as [|ev tr Hev _ IH]; [constructor|].
  destruct Hev as [rq [out [E [Hm Hf]]]]. subst ev. cbn [requests_of].
  constructor; [|exact IH]. unfold safe_request. rewrite Hf.
  destruct Hm as [Hm|Hm]; rewrite Hm; reflexivity.
Qed.

Lemma blob_calls_safe (token owner repo : string) (tr : list event) :
  blob_calls token owner repo tr ->
  Forall (fun rq => safe_request rq = true) (requests_of tr).
Proof.
  induction 1 as [|ev tr Hev _ IH]; [constructor|].
  destruct Hev as [c [out E]]. subst ev. cbn [requests_of].
  constructor; [reflexivity|exact IH].
Qed.

Lemma batch_run_safe (token owner repo branch message : string) (entries : list json)
    (tr : list (request * result response)) (res : result unit) :
  batch_run token owner repo branch message entries tr res ->
  Forall (fun rq => safe_request rq = true) (map fst tr).
Proof.
  assert (Ht : forall t, safe_request (tree_request token owner repo entries t) = true).
  { intros t. unfold safe_request, forced, tree_request, request_for. cbn [method payload].
    destruct (truthy t); reflexivity. }
  intros H. inversion H; subst; cbn [map fst];
    repeat (constructor; try reflexivity; try apply Ht).
Qed.

Lemma requests_of_per_file_report (successes : nat) (failures : list (path * arg)) :
  requests_of (per_file_report successes failures) = [].
Proof.
  unfold per_file_report. cbn [requests_of]. destruct failures; [reflexivity|].
  cbn [requests_of]. apply requests_of_failure_lines.
Qed.

(** X12. Whatever the mode, the local tree and the remote's answers, the calls
    of [op_upload_folder] never hold a DELETE and never a forced ref
    update: a folder upload removes nothing from the remote and rewrites no
    history. *)
Theorem folder_upload_never_deletes_or_forces :
  forall (St : Type) (serve : request -> St -> result response * St)
         (fs : node) (cfg : config) (ans : upload_answers) (w : world St),
    exists rs,
      requests_of (log (snd (op_upload_folder serve fs cfg ans w)))
        = requests_of (log w) ++ rs /\
      Forall (fun rq => safe_request rq = true) rs.
Proof.
  intros St serve fs cfg ans w.
  destruct (is_dir fs (ans_local_folder ans)) eqn:Hdir.
  2:{ exists []. unfold op_upload_folder. rewrite Hdir. cbn [negb]. rewrite orb_true_r.
      cbn [print snd log]. rewrite requests_of_app, app_nil_r. cbn [requests_of].
      rewrite app_nil_r. split; [reflexivity|constructor]. }
  destruct (gather_files_for_folder fs (ans_local_folder ans) None) as [|f0 files'] eqn:Ef.
  { exists []. unfold op_upload_folder.
    rewrite Hdir, (is_dir_exists _ _ Hdir), Ef. cbn [negb orb print snd log].
    rewrite requests_of_app. cbn [requests_of]. split; [reflexivity|constructor]. }
  assert (Hfiles : gather_files_for_folder fs (ans_local_folder ans) None <> [])
    by (rewrite Ef; discriminate).
  destruct (ans_mode ans =? "1") eqn:Hmode.
  - (* per file *)
    apply String.eqb_eq in Hmode.
    rewrite (@op_upload_folder_per_file St serve fs cfg ans w Hdir Hmode Hfiles).
    destruct (upload_each_run serve fs (cfg_token cfg) (cfg_owner cfg) (cfg_repo cfg)
                (cfg_branch cfg) (ans_message ans) (ans_local_folder ans)
                (ans_target_repo_base ans)
                (gather_files_for_folder fs (ans_local_folder ans) None) 0 []
                (upload_start cfg ans (gather_files_for_folder fs (ans_local_folder ans) None) w))
      as [tr [Hl [Hc _]]].
    exists (requests_of tr). split; [|apply lookup_or_put_safe; exact Hc].
    destruct (fst (upload_each serve fs (cfg_token cfg) (cfg_owner cfg) (cfg_repo cfg)
                     (cfg_branch cfg) (ans_message ans) (ans_local_folder ans)
                     (ans_target_repo_base ans)
                     (gather_files_for_folder fs (ans_local_folder ans) None) 0 [] _))
      as [[s fl]|e]; cbn [snd log]; rewrite Hl; unfold upload_start, printed; cbn [log];
      rewrite !requests_of_app, ?requests_of_per_file_report; cbn [requests_of];
      rewrite ?app_nil_r; reflexivity.
  - (* batch *)
    apply String.eqb_neq in Hmode.
    rewrite (@op_upload_folder_batch St serve fs cfg ans w Hdir Hmode Hfiles).
    rewrite bind_run.
    destruct (create_blobs_run serve fs (cfg_token cfg) (cfg_owner cfg) (cfg_repo cfg)
                (ans_local_folder ans) (ans_target_repo_base ans)
                (gather_files_for_folder fs (ans_local_folder ans) None) [] []
                (batch_start cfg ans (gather_files_for_folder fs (ans_local_folder ans) None) w))
      as [te [fl [tr [w1 [E [Hl [Hc _]]]]]]].
    cbn [app] in E. rewrite E.
    assert (Hw1 : requests_of (log w1) = requests_of (log w) ++ requests_of tr).
    { rewrite Hl. unfold batch_start, printed. cbn [log].
      rewrite !requests_of_app. cbn [requests_of]. rewrite !app_nil_r. reflexivity. }
    destruct fl as [|x fl'].
    + destruct (commit_batch_run serve (cfg_token cfg) (cfg_owner cfg) (cfg_repo cfg)
                  (cfg_branch cfg) (ans_message ans) te w1) as [tr' [Hcalls Hrun]].
      exists (requests_of tr ++ map fst tr'). split.
      * rewrite requests_of_calls, Hcalls, map_app, <- requests_of_calls, Hw1, app_assoc.
        reflexivity.
      * apply Forall_app. split; [eapply blob_calls_safe; exact Hc|].
        eapply batch_run_safe; exact Hrun.
    + exists (requests_of tr). split; [|eapply blob_calls_safe; exact Hc].
      rewrite bind_print, print_failures_run. unfold printed. cbn [snd log remote].
      rewrite !requests_of_app, requests_of_failure_lines. cbn [requests_of].
      rewrite !app_nil_r. exact Hw1.
Qed.

(** ** The Pages branch *)

Ltac stop_goal :=
  cbn [refused_lookup ref_head negb fst]; unfold rbind;
  repeat match goal with
         | H : _ = _ |- _ => rewrite H
         end;
  cbn [negb];
  intros; first [discriminate | reflexivity | eexists; reflexivity].

Lemma ensure_pages_branch_calls :
  forall (St : Type) (serve : request -> St -> result response * St)
         (cfg : config) (branch_name : string) (w : world St),
    let run := ensure_pages_branch serve cfg branch_name w in
    exists tr,
      log (snd run) = log w ++ tr /\
      branch_run (cfg_token cfg) (cfg_owner cfg) (cfg_repo cfg) (cfg_branch cfg)
        branch_name (calls_of tr) (fst run).
Proof.
  intros St serve cfg bn w run. subst run. unfold ensure_pages_branch.
  rewrite bind_run, get_ref_run. unfold served.
  set (rq1 := ref_request (cfg_token cfg) (cfg_owner cfg) (cfg_repo cfg) bn).
  destruct (serve rq1 (remote w)) as [o1 s1] eqn:E1. cbn [fst snd].
  pose proof (branch_looked_up (cfg_token cfg) (cfg_owner cfg) (cfg_repo cfg)
                (cfg_branch cfg) bn o1) as Hfound.
  fold rq1 in Hfound.
  destruct o1 as [r1|e1].
  2:{ exists [Call rq1 (Raise e1)]. split; [reflexivity|]. apply Hfound. reflexivity. }
  unfold lookup_reads, rbind, refused_lookup, r_json in Hfound |- *.
  destruct (status_code r1 =? 200)%Z eqn:S1.
  { exists [Call rq1 (Ret r1)]. split; [destruct (content r1); reflexivity|].
    destruct (content r1); apply Hfound; reflexivity. }
  clear Hfound.
  rewrite bind_print, bind_run, get_ref_run. unfold served, printed. cbn [remote log].
  set (rq2 := ref_request (cfg_token cfg) (cfg_owner cfg) (cfg_repo cfg) (cfg_branch cfg)).
  destruct (serve rq2 s1) as [o2 s2] eqn:E2. cbn [fst snd].
  assert (R1 : refused_lookup (Ret r1) = true) by (cbn; rewrite S1; reflexivity).
  pose proof (fun res => @base_unusable (cfg_token cfg) (cfg_owner cfg) (cfg_repo cfg)
                (cfg_branch cfg) bn (Ret r1) o2 res R1) as Hstop.
  pose proof (fun c o3 => @branch_posted (cfg_token cfg) (cfg_owner cfg) (cfg_repo cfg)
                (cfg_branch cfg) bn (Ret r1) o2 c o3 R1) as Hpost.
  fold rq1 rq2 in Hstop, Hpost.
  destruct o2 as [r2|e2].
  2:{ eexists. split; [cbn [snd log]; rewrite <- !app_assoc; reflexivity|].
      cbn [app calls_of fst]. apply Hstop; stop_goal. }
  unfold lookup_reads, rbind, ref_head, refused_lookup in Hstop, Hpost |- *.
  cbn [rbind] in Hstop, Hpost.
  destruct (status_code r2 =? 200)%Z eqn:S2.
  2:{ cbn [negb]. rewrite bind_print. unfold ret, printed. cbn [fst snd log remote].
      eexists. split; [rewrite <- !app_assoc; reflexivity|].
      cbn [app calls_of]. apply Hstop; stop_goal. }
  destruct (r_json r2) as [j2|e2].
  2:{ eexists. split; [cbn [snd log]; rewrite <- !app_assoc; reflexivity|].
      cbn [app calls_of fst]. apply Hstop; stop_goal. }
  cbn [negb] in *. rewrite bind_lift.
  destruct (match subscript j2 "object" with
            | Ret a0 => subscript a0 "sha"
            | Raise e => Raise e
            end) as [c|e3] eqn:E3.
  2:{ eexists. split; [cbn [snd log]; rewrite <- !app_assoc; reflexivity|].
      cbn [app calls_of fst]. apply Hstop; stop_goal. }
  clear Hstop.
  rewrite bind_run, api_request_run. unfold served. cbn [remote log].
  fold (create_ref_request (cfg_token cfg) (cfg_owner cfg) (cfg_repo cfg) bn c).
  set (rq3 := create_ref_request (cfg_token cfg) (cfg_owner cfg) (cfg_repo cfg) bn c) in *.
  destruct (serve rq3 s2) as [o3 s3]. cbn [fst snd].
  specialize (Hpost c o3). unfold rbind in Hpost. rewrite E3 in Hpost.
  specialize (Hpost eq_refl).
  destruct o3 as [r3|e3].
  2:{ eexists. split; [cbn [snd log]; rewrite <- !app_assoc; reflexivity|].
      cbn [app calls_of fst]. exact Hpost. }
  destruct (status_code r3 =? 201)%Z; rewrite bind_print; unfold ret, printed;
    cbn [fst snd log remote];
    (eexists; split; [rewrite <- !app_assoc; reflexivity|]);
    cbn [app calls_of]; exact Hpost.
Qed.

(** X13. [ensure_pages_branch] looks the branch up and stops there when it
    exists; otherwise it looks the base branch up, and posts the new branch
    only when that lookup gave a head commit, at that commit; it answers
    [False] without a POST when the base branch is refused, and otherwise
    whether the POST was answered 201. *)


(** ** Reading a remote file *)

(** X14. [download_file_contents] makes one lookup of the path.  It answers
    [(True, raw)] exactly when the lookup was answered 200 with a JSON
    object whose [content] is truthy and decodes to [raw]; every other
    answer it returns is [(False, None)], an undecodable content included;
    and it raises exactly when the lookup does. *)
Theorem download_file_contents_outcomes :
  forall (St : Type) (serve : request -> St -> result response * St)
         (b64decode : json -> result string)
         (token owner repo : string) (pth : json) (branch : string) (w : world St),
    let rq := contents_request token owner repo pth branch in
    let out := fst (serve rq (remote w)) in
    let run := download_file_contents serve b64decode token owner repo pth branch w in
    snd run = served serve rq w /\
    (forall raw,
        fst run = Ret (true, Some raw) <->
        exists r d c,
          out = Ret r /\ status_code r = 200%Z /\ content r = Json (JDict d) /\
          assoc "content" d = Some c /\ truthy c = true /\ b64decode c = Ret raw) /\
    (forall ok x,
        fst run = Ret (ok, x) -> (exists raw, ok = true /\ x = Some raw) \/
                                 (ok = false /\ x = None)) /\
    (forall e, fst run = Raise e <-> lookup_reads out = Raise e).
Proof.
  intros St serve b64decode token owner repo pth branch w rq out run.
  subst run. unfold download_file_contents.
  rewrite bind_run, get_repo_contents_run. fold rq. fold out.
  destruct out as [r|e0] eqn:Eo.
  2:{ cbn. repeat split; intros; try discriminate; try congruence.
      destruct H as (r & d & c & H & _). discriminate H. }
  unfold lookup_reads, rbind, r_json.
  destruct (status_code r =? 200)%Z eqn:S.
  2:{ cbn. repeat split; intros; try discriminate; try congruence.
      - destruct H as (r' & d & c & H & H2 & _). inversion H; subst r'.
        rewrite H2 in S. discriminate S.
      - inversion H; subst. right. split; reflexivity. }
  apply Z.eqb_eq in S.
  destruct (content r) as [|j|g] eqn:C.
  1,3: cbn; repeat split; intros; try discriminate; try congruence;
       destruct H as (r' & d & c & H & _ & H3 & _); inversion H; subst r';
       rewrite C in H3; discriminate H3.
  assert (Hno :
            (forall d c, j = JDict d -> assoc "content" d = Some c ->
                         truthy c = true -> exists e, b64decode c = Raise e) ->
            (forall raw,
                Ret (false, @None string) = Ret (true, Some raw) <->
                exists r' d c,
                  Ret r = Ret r' /\ status_code r' = 200%Z /\
                  content r' = Json (JDict d) /\
                  assoc "content" d = Some c /\ truthy c = true /\
                  b64decode c = Ret raw) /\
            (forall ok x,
                Ret (false, @None string) = Ret (ok, x) ->
                (exists raw, ok = true /\ x = Some raw) \/ (ok = false /\ x = None)) /\
            (forall e, Ret (false, @None string) = Raise e <->
                       Ret (true, j) = @Raise (bool * json) e)).
  { intros Hd. repeat split; intros; try discriminate.
    - destruct H as (r' & d & c & H & _ & H3 & H4 & H5 & H6). inversion H; subst r'.
      rewrite C in H3. inversion H3; subst j.
      destruct (Hd d c eq_refl H4 H5) as [e He]. congruence.
    - inversion H; subst. right. split; reflexivity. }
  destruct j as [ | b | n | t | l | d];
    try (split; [reflexivity|]; apply Hno; intros d c Hj; discriminate Hj).
  cbn [andb isinstance_dict dict_get].
  destruct (assoc "content" d) as [c|] eqn:A.
  2:{ cbn [truthy]. split; [reflexivity|]. apply Hno. intros d' c' Hj Hc.
      inversion Hj; subst d'. rewrite A in Hc. discriminate Hc. }
  destruct (truthy c) eqn:T.
  2:{ split; [reflexivity|]. apply Hno. intros d' c' Hj Hc Ht.
      inversion Hj; subst d'. rewrite A in Hc. inversion Hc; subst c'.
      rewrite T in Ht. discriminate Ht. }
  unfold catch. rewrite bind_lift. cbn [subscript]. rewrite A. rewrite bind_lift.
  destruct (b64decode c) as [raw0|e] eqn:B.
  2:{ split; [reflexivity|]. apply Hno. intros d' c' Hj Hc Ht.
      inversion Hj; subst d'. rewrite A in Hc. inversion Hc; subst c'. eauto. }
  clear Hno. cbn [ret fst snd]. repeat split; intros; try discriminate.
  - inversion H; subst raw0. exists r, d, c. repeat split; assumption.
  - destruct H as (r' & d' & c' & H & _ & H3 & H4 & _ & H6). inversion H; subst r'.
    rewrite C in H3. inversion H3; subst d'. rewrite A in H4. inversion H4; subst c'.
    rewrite B in H6. inversion H6; subst. reflexivity.
  - inversion H; subst. left. eauto.
Qed.

(** ** Renaming a remote file *)

Section RenameFacts.

Variable St : Type.
Variable serve : request -> St -> result response * St.
Variable b64decode : json -> result string.

Lemma download_file_contents_world token owner repo pth branch (w : world St) :
  snd (download_file_contents serve b64decode token owner repo pth branch w)
  = served serve (contents_request token owner repo pth branch) w.
Proof.
  unfold download_file_contents. rewrite bind_run, get_repo_contents_run.
  destruct (lookup_reads _) as [[ok d]|e]; [|reflexivity].
  destruct (ok && isinstance_dict d && _); [|reflexivity].
  unfold catch. rewrite bind_lift.
  destruct (subscript d "content") as [c|e]; [|reflexivity].
  rewrite bind_lift. destruct (b64decode c); reflexivity.
Qed.

Lemma download_file_contents_success token owner repo pth branch (w : world St)
    (raw : string) :
  fst (download_file_contents serve b64decode token owner repo pth branch w)
  = Ret (true, Some raw) ->
  downloaded b64decode
    (fst (serve (contents_request token owner repo pth branch) (remote w))) raw.
Proof.
  unfold download_file_contents. rewrite bind_run, get_repo_contents_run.
  destruct (fst (serve (contents_request token owner repo pth branch) (remote w)))
    as [r|e]; [|discriminate].
  unfold lookup_reads, rbind, r_json.
  destruct (status_code r =? 200)%Z eqn:S; [|discriminate].
  apply Z.eqb_eq in S.
  destruct (content r) as [|j|g] eqn:C; [discriminate| |discriminate].
  destruct j as [ | b | n | t | l | d]; try discriminate.
  cbn [andb isinstance_dict dict_get].
  destruct (assoc "content" d) as [c|] eqn:A; [|discriminate].
  destruct (truthy c) eqn:T; [|discriminate].
  unfold catch. rewrite bind_lift. cbn [subscript]. rewrite A, bind_lift.
  destruct (b64decode c) as [raw0|e] eqn:B; [|discriminate].
  cbn [ret fst]. intros H. inversion H; subst raw0.
  exists r, d, c. repeat split; assumption.
Qed.

Lemma put_reads_created (out : result response) (resp : json) :
  put_reads out = Ret (true, resp) -> created out = true.
Proof.
  unfold put_reads, created, rbind. destruct out as [r|e]; [|discriminate].
  destruct (json_or_status r); [|discriminate]. intros H. inversion H. reflexivity.
Qed.

Lemma sha_reads_file_entry (out : result response) (data sha : json) :
  lookup_reads out = Ret (true, data) ->
  is_file_entry data = true ->
  dict_get data "sha" = Ret sha ->
  sha_reads out = Ret sha.
Proof.
  intros HL HF HD. unfold sha_reads, rbind. rewrite HL.
  unfold is_file_entry in HF. apply andb_prop in HF. destruct HF as [HF _].
  rewrite HF. exact HD.
Qed.

End RenameFacts.

Ltac no_delete :=
  cbn [app requests_of];
  repeat (apply Forall_cons; [cbn; discriminate|]); apply Forall_nil.

Ltac new_events :=
  unfold print, printed, ret; cbn [fst snd log remote];
  eexists; split; [rewrite <- ?app_assoc; reflexivity|].

(** X15. [op_rename] deletes the old path only after the new one was created:
    either no DELETE is sent at all, or the calls are, in this order, the
    lookup of the old path, its download, the lookup of the new path, the
    PUT of the new path, answered 200 or 201, and then the DELETE of the old
    path, which carries the token read at the first lookup.  The content
    of that PUT is the base64 of the bytes the download read from its own
    answer. *)
Theorem rename_deletes_only_after_create :
  forall (St : Type) (serve : request -> St -> result response * St)
         (b64decode : json -> result string)
         (cfg : config) (ans : rename_answers) (w : world St),
    let token := cfg_token cfg in
    let owner := cfg_owner cfg in
    let repo := cfg_repo cfg in
    let branch := cfg_branch cfg in
    let look_old := contents_request token owner repo (JStr (rn_old ans)) branch in
    let look_new := contents_request token owner repo (JStr (rn_new ans)) branch in
    let run := op_rename serve b64decode cfg ans w in
    exists tr,
      log (snd run) = log w ++ tr /\
      (Forall (fun rq => method rq <> "DELETE") (requests_of tr) \/
       exists o1 o2 o3 o4 o5 raw sha_new sha_old,
         calls_of tr =
           [(look_old, o1); (look_old, o2); (look_new, o3);
            (put_request token owner repo (JStr (rn_new ans)) (b64encode raw)
               (rn_message_create ans) branch sha_new, o4);
            (delete_request token owner repo (JStr (rn_old ans))
               (rn_message_delete ans) branch sha_old, o5)] /\
         downloaded b64decode o2 raw /\
         sha_reads o1 = Ret sha_old /\
         sha_reads o3 = Ret sha_new /\
         created o4 = true).
Proof.
  intros St serve b64decode cfg ans w token owner repo branch look_old look_new run.
  subst run. unfold op_rename. fold token owner repo branch.
  destruct (rn_old ans =? ""); [new_events; left; no_delete|].
  rewrite bind_run, get_repo_contents_run. fold look_old. unfold served.
  destruct (serve look_old (remote w)) as [o1 s1]. cbn [fst snd].
  destruct (lookup_reads o1) as [[ok data]|e] eqn:L1; [|new_events; left; no_delete].
  destruct ok; cbn [negb]; [|new_events; left; no_delete].
  destruct (is_file_entry data) eqn:F; [|new_events; left; no_delete].
  destruct (rn_new ans =? ""); [new_events; left; no_delete|].
  rewrite bind_run.
  match goal with
  | |- context [download_file_contents serve b64decode token owner repo ?p branch ?w1] =>
      pose proof (download_file_contents_world serve b64decode token owner repo p branch w1)
        as Hd;
      pose proof (@download_file_contents_success St serve b64decode token owner repo p
                    branch w1) as Hs;
      destruct (download_file_contents serve b64decode token owner repo p branch w1)
        as [[[raw_ok raw]|e] w2]; cbn [fst snd] in Hd, Hs; subst w2
  end; fold look_old in Hs |- *; unfold served; cbn [remote log] in Hs |- *;
    destruct (serve look_old s1) as [o2 s2]; cbn [fst snd] in Hs |- *;
    [|new_events; left; no_delete].
  destruct raw_ok; [|new_events; left; no_delete].
  destruct raw as [raw|]; [|new_events; left; no_delete].
  specialize (Hs raw eq_refl).
  rewrite bind_run, get_file_sha_run. fold look_new. unfold served. cbn [remote log].
  destruct (serve look_new s2) as [o3 s3]. cbn [fst snd].
  destruct (sha_reads o3) as [sha_new|e] eqn:L3; [|new_events; left; no_delete].
  rewrite bind_run, create_or_update_file_run. unfold served. cbn [remote log].
  match goal with
  | |- context [serve ?rq s3] => destruct (serve rq s3) as [o4 s4]
  end. cbn [fst snd].
  destruct (put_reads o4) as [[ok2 resp2]|e] eqn:P;
    [|new_events; left; unfold put_request; no_delete].
  destruct ok2; cbn [negb]; [|new_events; left; unfold put_request; no_delete].
  rewrite bind_lift.
  destruct (dict_get data "sha") as [sha_old|e] eqn:D;
    [|new_events; left; unfold put_request; no_delete].
  rewrite bind_run, delete_file_run. unfold served. cbn [remote log].
  match goal with
  | |- context [serve ?rq s4] => destruct (serve rq s4) as [o5 s5]
  end. cbn [fst snd].
  assert (Hfull : downloaded b64decode o2 raw /\
                  sha_reads o1 = Ret sha_old /\ sha_reads o3 = Ret sha_new /\
                  created o4 = true).
  { split; [exact Hs|]. split; [exact (sha_reads_file_entry _ L1 F D)|].
    split; [exact L3|exact (put_reads_created _ P)]. }
  destruct (delete_reads o5) as [[ok3 resp3]|e]; [destruct ok3|];
    new_events; right; exists o1, o2, o3, o4, o5, raw, sha_new, sha_old;
    (split; [reflexivity|exact Hfull]).
Qed.

(** A rename that goes through: the five calls are made, the new path
    holds the content, and the old path is gone. *)
Example rename_demo :
  let run := op_rename serve_files (fun _ => Ret "hi") cfg_demo ans_rename files_world in
  fst run = Ret tt /\
  map method (requests_of (log (snd run))) = ["GET"; "GET"; "GET"; "PUT"; "DELETE"] /\
  remote (snd run) = [("new.txt", ("sha:aGk=", "aGk=")); ("a.txt", ("s2", "eA=="))].
Proof. vm_compute. repeat split; reflexivity. Qed.

(** ** Deleting remote files *)

(** X16. When the bulk deletion of [op_delete] returns, it has made, for each
    gathered path in order, a lookup of the path and then a DELETE of it
    with the hash that lookup gave (none when the lookup found none),
    whatever the answers to the paths before; and the failures it returns
    are those it was given, followed by the paths whose DELETE was not
    answered 200, each with the answer. *)
Theorem bulk_delete_visits_every_path :
  forall (St : Type) (serve : request -> St -> result response * St)
         (token owner repo branch msg : string) (file_paths : list json)
         (failures fl : list (json * json)) (w : world St),
    let run := delete_each serve token owner repo branch msg file_paths failures w in
    fst run = Ret fl ->
    exists tr outs,
      log (snd run) = log w ++ tr /\
      List.length outs = List.length file_paths /\
      calls_of tr
      = flat_map (delete_step token owner repo branch msg) (combine file_paths outs) /\
      fl = failures ++ flat_map delete_failure (combine file_paths outs).
Proof.
  intros St serve token owner repo branch msg file_paths.
  induction file_paths as [|p rest IH]; intros failures fl w run; subst run.
  - cbn. intros H. inversion H; subst fl. exists [], [].
    rewrite !app_nil_r. repeat split; reflexivity.
  - cbn [delete_each]. rewrite bind_run, get_file_sha_run. unfold served.
    destruct (serve (contents_request token owner repo p branch) (remote w)) as [o s1].
    cbn [fst snd].
    destruct (sha_reads o) as [sha|e] eqn:Hs; [|discriminate].
    rewrite bind_run, delete_file_run. unfold served. cbn [remote log].
    destruct (serve (delete_request token owner repo p msg branch sha) s1) as [o' s2].
    cbn [fst snd].
    destruct (delete_reads o') as [[ok2 resp]|e] eqn:Hd; [|discriminate].
    assert (Hgo : forall fs0,
               failures ++ flat_map delete_failure [(p, (o, o'))] = fs0 ->
               fst (delete_each serve token owner repo branch msg rest fs0
                      {| remote := s2;
                         log := (log w ++ [Call (contents_request token owner repo p branch) o])
                                ++ [Call (delete_request token owner repo p msg branch sha) o'] |})
               = Ret fl ->
               exists tr outs,
                 log (snd (delete_each serve token owner repo branch msg rest fs0
                      {| remote := s2;
                         log := (log w ++ [Call (contents_request token owner repo p branch) o])
                                ++ [Call (delete_request token owner repo p msg branch sha) o'] |}))
                 = log w ++ tr /\
                 List.length outs = List.length (p :: rest) /\
                 calls_of tr
                 = flat_map (delete_step token owner repo branch msg)
                     (combine (p :: rest) outs) /\
                 fl = failures ++ flat_map delete_failure (combine (p :: rest) outs)).
    { intros fs0 Hfs Hr. destruct (IH fs0 fl _ Hr) as (tr & outs & Hl & Hn & Hc & Hf).
      exists (Call (contents_request token owner repo p branch) o
              :: Call (delete_request token owner repo p msg branch sha) o' :: tr),
             ((o, o') :: outs).
      split; [rewrite Hl; cbn [log]; rewrite <- !app_assoc; reflexivity|].
      split; [cbn [List.length]; rewrite Hn; reflexivity|].
      split.
      - cbn [calls_of combine flat_map].
        unfold delete_step at 1, sha_of. cbn [fst snd app]. rewrite Hs, Hc. reflexivity.
      - cbn [combine flat_map]. rewrite Hf, <- Hfs.
        cbn [flat_map]. rewrite app_nil_r, <- app_assoc. reflexivity. }
    destruct ok2; apply Hgo; unfold delete_failure; cbn [fst snd flat_map]; rewrite Hd;
      cbn [app]; rewrite ?app_nil_r; reflexivity.
Qed.

Lemma bulk_delete_visits_every_path_witness :
  exists tr outs,
    log (snd (delete_each serve_files "t" "o" "r" "main" "msg"
                [JStr "old.txt"; JStr "gone.txt"; JStr "a.txt"] [] files_world))
    = log files_world ++ tr /\
    List.length outs = 3 /\
    calls_of tr
    = flat_map (delete_step "t" "o" "r" "main" "msg")
        (combine [JStr "old.txt"; JStr "gone.txt"; JStr "a.txt"] outs) /\
    [(JStr "gone.txt", JDict [("message", JStr "Not Found")])]
    = [] ++ flat_map delete_failure
              (combine [JStr "old.txt"; JStr "gone.txt"; JStr "a.txt"] outs).
Proof.
  apply (@bulk_delete_visits_every_path store serve_files "t" "o" "r" "main" "msg"
           [JStr "old.txt"; JStr "gone.txt"; JStr "a.txt"] []
           [(JStr "gone.txt", JDict [("message", JStr "Not Found")])] files_world).
  reflexivity.
Defined.

Lemma requests_of_reads (token owner repo branch : string) (tr : list event) :
  Forall (fun ev => exists p out,
              ev = Call (contents_request token owner repo p branch) out) tr ->
  Forall (fun rq => exists p, rq = contents_request token owner repo p branch)
    (requests_of tr).
Proof.
  induction 1 as [|ev tr (p & out & Hev) _ IH]; [constructor|].
  subst ev. cbn [requests_of]. constructor; [exists p; reflexivity|exact IH].
Qed.

Ltac only_lookups :=
  cbn [app requests_of];
  repeat (apply Forall_cons; [eexists; reflexivity|]); try apply Forall_nil.

(** X17. [op_delete] deletes nothing the user did not confirm: when both
    confirmations are declined, every call it makes, whatever the target is
    and whatever the remote answers, is a lookup of contents on the
    configured branch. *)
Theorem delete_asks_before_deleting :
  forall (St : Type) (serve : request -> St -> result response * St)
         (depth : nat) (cfg : config) (ans : delete_answers) (w : world St),
    del_confirm_file ans = false ->
    del_confirm_all ans = false ->
    exists tr,
      log (snd (op_delete serve depth cfg ans w)) = log w ++ tr /\
      Forall (fun rq => exists p,
                  rq = contents_request (cfg_token cfg) (cfg_owner cfg) (cfg_repo cfg)
                         p (cfg_branch cfg))
        (requests_of tr).
Proof.
  intros St serve depth cfg ans w Hfile Hall. unfold op_delete.
  destruct (del_target ans =? ""); [new_events; only_lookups|].
  rewrite bind_run, get_repo_contents_run. unfold served.
  set (rq := contents_request (cfg_token cfg) (cfg_owner cfg) (cfg_repo cfg)
               (JStr (del_target ans)) (cfg_branch cfg)).
  destruct (serve rq (remote w)) as [o1 s1]. cbn [fst snd].
  destruct (lookup_reads o1) as [[ok data]|e]; [|new_events; only_lookups].
  destruct ok; cbn [negb]; [|new_events; only_lookups].
  destruct (is_file_entry data).
  - rewrite bind_lift. destruct (dict_get data "sha"); [|new_events; only_lookups].
    rewrite bind_lift. destruct (dict_get data "path"); [|new_events; only_lookups].
    rewrite bind_lift. destruct (dict_get data "size"); [|new_events; only_lookups].
    rewrite bind_print, Hfile. new_events; only_lookups.
  - rewrite bind_print, bind_run. unfold printed. cbn [remote log].
    match goal with
    | |- context [gather_rec serve depth ?t ?o ?r ?b ?p [] ?w1] =>
        destruct (gather_rec_reads serve t o r b depth p [] w1) as (tr' & Hl & Hc & _);
        destruct (gather_rec serve depth t o r b p [] w1) as [[paths|e] w2]
    end; cbn [snd log] in Hl; apply requests_of_reads in Hc.
    + rewrite bind_print.
      destruct (List.length paths =? 0)%nat; [|rewrite Hall; cbn [negb]];
        unfold print, printed; cbn [fst snd log remote]; rewrite Hl;
        (eexists; split; [rewrite <- !app_assoc; reflexivity|]);
        rewrite !requests_of_app; cbn [app requests_of]; rewrite app_nil_r;
        (apply Forall_cons; [eexists; reflexivity|exact Hc]).
    + cbn [fst snd]. rewrite Hl.
      eexists; split; [rewrite <- !app_assoc; reflexivity|].
      rewrite !requests_of_app; cbn [app requests_of].
      apply Forall_cons; [eexists; reflexivity|exact Hc].
Qed.

Lemma delete_asks_before_deleting_witness :
  exists tr,
    log (snd (op_delete serve_tree 5 cfg_demo
                {| del_target := "pages/docs"; del_confirm_file := false;
                   del_confirm_all := false; del_message := "msg" |} tree_world))
    = log tree_world ++ tr /\
    Forall (fun rq => exists p,
                rq = contents_request (cfg_token cfg_demo) (cfg_owner cfg_demo)
                       (cfg_repo cfg_demo) p (cfg_branch cfg_demo))
      (requests_of tr).
Proof.
  apply (@delete_asks_before_deleting rnode serve_tree 5 cfg_demo
           {| del_target := "pages/docs"; del_confirm_file := false;
              del_confirm_all := false; del_message := "msg" |} tree_world);
    reflexivity.
Defined.

(** ** Uploading one file *)

(** X18. [op_upload_file] makes at most two calls: the lookup of the target
    path, and then one PUT of the local file's content there.  The PUT
    carries the hash the lookup gave, and when that hash is a real one (the
    file exists on the remote) the PUT is only sent if the user agreed to
    overwrite. *)
Theorem upload_file_overwrites_only_on_consent :
  forall (St : Type) (serve : request -> St -> result response * St)
         (fs : node) (cfg : config) (ans : upload_file_answers) (w : world St),
    let token := cfg_token cfg in
    let owner := cfg_owner cfg in
    let repo := cfg_repo cfg in
    let branch := cfg_branch cfg in
    let look := contents_request token owner repo (JStr (uf_repo_path ans)) branch in
    let run := op_upload_file serve fs cfg ans w in
    exists tr,
      log (snd run) = log w ++ tr /\
      (calls_of tr = [] \/
       (exists o1, calls_of tr = [(look, o1)]) \/
       exists o1 o2 sha c,
         calls_of tr =
           [(look, o1);
            (put_request token owner repo (JStr (uf_repo_path ans)) c (uf_message ans)
               branch sha, o2)] /\
         sha_reads o1 = Ret sha /\
         file_to_base64 fs (uf_local_path ans) = Ret c /\
         (truthy sha = true -> uf_overwrite ans = true)).
Proof.
  intros St serve fs cfg ans w token owner repo branch look run.
  subst run. unfold op_upload_file. fold token owner repo branch.
  destruct (negb (path_exists fs (uf_local_path ans)) || _);
    [new_events; left; reflexivity|].
  rewrite bind_run, get_file_sha_run. fold look. unfold served.
  destruct (serve look (remote w)) as [o1 s1]. cbn [fst snd].
  destruct (sha_reads o1) as [sha|e] eqn:Hs;
    [|new_events; right; left; exists o1; reflexivity].
  assert (Hgo : (truthy sha = true -> uf_overwrite ans = true) ->
            forall w1 : world St,
              remote w1 = s1 ->
              calls_of (log w1) = calls_of (log w) ++ [(look, o1)] ->
              (exists tr1, log w1 = log w ++ tr1) ->
              exists tr,
                log (snd ((content_b64 <- lift (file_to_base64 fs (uf_local_path ans)) ;;
                           '(ok, resp) <- create_or_update_file serve token owner repo
                                            (JStr (uf_repo_path ans)) content_b64
                                            (uf_message ans) branch sha ;;
                           if ok : bool
                           then print "Berhasil upload {local_path} -> {repo_path}"
                                  [APath (uf_local_path ans); AStr (uf_repo_path ans)]
                           else print "Gagal upload: {resp}" [AJson resp]) w1))
                = log w ++ tr /\
                (calls_of tr = [] \/
                 (exists o1', calls_of tr = [(look, o1')]) \/
                 exists o1' o2 sha' c,
                   calls_of tr =
                     [(look, o1');
                      (put_request token owner repo (JStr (uf_repo_path ans)) c
                         (uf_message ans) branch sha', o2)] /\
                   sha_reads o1' = Ret sha' /\
                   file_to_base64 fs (uf_local_path ans) = Ret c /\
                   (truthy sha' = true -> uf_overwrite ans = true))).
  { intros Hc [s0 l0] Hrem Hcalls [tr1 Hl]. cbn [remote log] in *. subst s0 l0.
    rewrite calls_of_app in Hcalls. apply app_inv_head in Hcalls.
    rewrite bind_lift.
    destruct (file_to_base64 fs (uf_local_path ans)) as [c|e] eqn:Hb.
    { rewrite bind_run, create_or_update_file_run. unfold served. cbn [remote log].
      match goal with
      | |- context [serve ?rq s1] => destruct (serve rq s1) as [o2 s2]
      end. cbn [fst snd].
      assert (Hdone : forall l,
                 requests_of l = [] ->
                 calls_of l = [] ->
                 exists tr,
                   ((log w ++ tr1)
                    ++ [Call (put_request token owner repo (JStr (uf_repo_path ans)) c
                                (uf_message ans) branch sha) o2]) ++ l
                   = log w ++ tr /\
                   (calls_of tr = [] \/
                    (exists o1', calls_of tr = [(look, o1')]) \/
                    exists o1' o2' sha' c',
                      calls_of tr =
                        [(look, o1');
                         (put_request token owner repo (JStr (uf_repo_path ans)) c'
                            (uf_message ans) branch sha', o2')] /\
                      sha_reads o1' = Ret sha' /\
                      file_to_base64 fs (uf_local_path ans) = Ret c' /\
                      (truthy sha' = true -> uf_overwrite ans = true))).
      { intros l _ Hl0. eexists. split; [rewrite <- !app_assoc; reflexivity|].
        right; right. exists o1, o2, sha, c.
        rewrite !calls_of_app, Hcalls, Hl0. cbn [calls_of app].
        repeat split; assumption. }
      rewrite Hb in Hdone.
      destruct (put_reads o2) as [[ok resp]|e].
      - destruct ok; unfold print; cbn [fst snd log remote]; apply Hdone; reflexivity.
      - cbn [fst snd log].
        destruct (Hdone [] eq_refl eq_refl) as [tr Htr]. rewrite app_nil_r in Htr.
        exists tr. exact Htr. }
    cbn [fst snd log]. exists tr1. split; [reflexivity|].
    right; left. exists o1. exact Hcalls. }
  destruct (truthy sha) eqn:Ht.
  - rewrite bind_print. destruct (uf_overwrite ans) eqn:Ho; cbn [negb].
    + apply Hgo; [reflexivity|reflexivity| |].
      * unfold printed. cbn [log]. rewrite !calls_of_app. cbn [calls_of].
        rewrite app_nil_r. reflexivity.
      * unfold printed. cbn [log]. eexists. rewrite <- !app_assoc. reflexivity.
    + new_events. right; left. exists o1. reflexivity.
  - apply Hgo; [discriminate|reflexivity| |].
    + cbn [log]. rewrite calls_of_app. reflexivity.
    + cbn [log]. eexists. reflexivity.
Qed.

(** ** Adding to the Pages branch *)

Section PagesFacts.

Variable St : Type.
Variable serve : request -> St -> result response * St.
Variables token owner repo pages_branch : string.

Lemma pages_call_lookup (p : json) (b : string) :
  pages_call token owner repo pages_branch (contents_request token owner repo p b).
Proof. left. reflexivity. Qed.

Lemma pages_call_ref (b : string) :
  pages_call token owner repo pages_branch (ref_request token owner repo b).
Proof. left. reflexivity. Qed.

Lemma pages_call_put (p : json) (c m : string) (sha : json) :
  pages_call token owner repo pages_branch
    (put_request token owner repo p c m pages_branch sha).
Proof. right; right. split; reflexivity. Qed.

Lemma branch_run_pages_calls (base : string) (calls : list (request * result response))
    (res : result bool) :
  branch_run token owner repo base pages_branch calls res ->
  Forall (pages_call token owner repo pages_branch) (map fst calls).
Proof.
  intros H. destruct H; cbn [map fst];
    repeat (apply Forall_cons; [first [apply pages_call_ref
                                      | right; left; eexists; reflexivity]|]);
    apply Forall_nil.
Qed.

Lemma pages_upload_each_calls (fs : node) (msg : string) (local_folder : path)
    (target_repo_base : string) (files : list path) :
  forall (fails : list (path * arg)) (w : world St),
    exists tr,
      log (snd (pages_upload_each serve fs token owner repo pages_branch msg
                  local_folder target_repo_base files fails w)) = log w ++ tr /\
      Forall (pages_call token owner repo pages_branch) (requests_of tr).
Proof.
  induction files as [|f rest IH]; intros fails w.
  - exists []. cbn. rewrite app_nil_r. split; [reflexivity|constructor].
  - cbn [pages_upload_each]. rewrite bind_lift.
    destruct (path_to_repo_path local_folder f target_repo_base) as [rp|e].
    2:{ exists []. cbn. rewrite app_nil_r. split; [reflexivity|constructor]. }
    rewrite bind_lift. destruct (file_to_base64 fs f) as [c|e].
    2:{ exists []. cbn. rewrite app_nil_r. split; [reflexivity|constructor]. }
    rewrite bind_run, get_file_sha_run. unfold served.
    destruct (serve (contents_request token owner repo (JStr rp) pages_branch) (remote w))
      as [o1 s1]. cbn [fst snd].
    destruct (sha_reads o1) as [sha|e].
    2:{ cbn [snd log]. eexists. split; [reflexivity|].
        cbn [requests_of]. constructor; [apply pages_call_lookup|constructor]. }
    rewrite bind_run, create_or_update_file_run. unfold served. cbn [remote log].
    destruct (serve (put_request token owner repo (JStr rp) c msg pages_branch sha) s1)
      as [o2 s2]. cbn [fst snd].
    destruct (put_reads o2) as [[ok r]|e].
    2:{ cbn [snd log]. eexists. split; [rewrite <- !app_assoc; reflexivity|].
        cbn [app requests_of].
        constructor; [apply pages_call_lookup|].
        constructor; [apply pages_call_put|constructor]. }
    destruct ok;
      match goal with
      | |- context [pages_upload_each serve fs token owner repo pages_branch msg
                      local_folder target_repo_base rest ?fl ?w1] =>
          destruct (IH fl w1) as (tr & Hl & Hc)
      end;
      cbn [log] in Hl; rewrite Hl;
      (eexists; split; [rewrite <- !app_assoc; reflexivity|]);
      cbn [app requests_of];
      (constructor; [apply pages_call_lookup|]);
      (constructor; [apply pages_call_put|exact Hc]).
Qed.



End PagesFacts.

(** X19. Every write of [pages_add_file_or_folder] goes to the Pages branch it
    was given: whatever the answers and the remote, the only calls that are
    not reads are the POST that creates that branch and PUTs whose payload
    names that branch. *)
Theorem pages_add_writes_only_to_pages_branch :
  forall (St : Type) (serve : request -> St -> result response * St)
         (fs : node) (cfg : config) (ans : pages_answers) (w : world St),
    exists tr,
      log (snd (pages_add_file_or_folder serve fs cfg ans w)) = log w ++ tr /\
      Forall (pages_call (cfg_token cfg) (cfg_owner cfg) (cfg_repo cfg)
                (pa_pages_branch ans))
        (requests_of tr).
Proof.
  intros St serve fs cfg ans w. unfold pages_add_file_or_folder.
  rewrite bind_run.
  destruct (ensure_pages_branch_calls serve cfg (pa_pages_branch ans) w)
    as (tr0 & Hl0 & Hrun).
  apply branch_run_pages_calls in Hrun. rewrite <- requests_of_calls in Hrun.
  destruct (ensure_pages_branch serve cfg (pa_pages_branch ans) w) as [[ok|e] w0];
    cbn [fst snd] in Hl0; [|exists tr0; split; [exact Hl0|exact Hrun]].
  assert (Hgo : forall (A : Type) (run : result A * world St),
             (exists tr,
                 log (snd run) = log w0 ++ tr /\
                 Forall (pages_call (cfg_token cfg) (cfg_owner cfg) (cfg_repo cfg)
                           (pa_pages_branch ans)) (requests_of tr)) ->
             exists tr,
               log (snd run) = log w ++ tr /\
               Forall (pages_call (cfg_token cfg) (cfg_owner cfg) (cfg_repo cfg)
                         (pa_pages_branch ans)) (requests_of tr)).
  { intros A run (tr & Hl & Hc). exists (tr0 ++ tr).
    split; [rewrite Hl, Hl0, app_assoc; reflexivity|].
    rewrite requests_of_app. apply Forall_app. split; assumption. }
  apply Hgo. clear Hgo Hl0 Hrun tr0 w.
  destruct ok; cbn [negb].
  2:{ exists []. cbn. rewrite app_nil_r. split; [reflexivity|constructor]. }
  destruct (pa_choice ans =? "1").
  - destruct (negb (path_exists fs (pa_local_path ans)) || _).
    { new_events. cbn [requests_of]. constructor. }
    rewrite bind_lift. destruct (file_to_base64 fs (pa_local_path ans)) as [c|e].
    2:{ exists []. cbn. rewrite app_nil_r. split; [reflexivity|constructor]. }
    rewrite bind_run, get_file_sha_run. unfold served.
    match goal with
    | |- context [serve ?rq (remote w0)] => destruct (serve rq (remote w0)) as [o1 s1]
    end. cbn [fst snd].
    destruct (sha_reads o1) as [sha|e].
    2:{ new_events. cbn [requests_of]. constructor; [apply pages_call_lookup|constructor]. }
    rewrite bind_run, create_or_update_file_run. unfold served. cbn [remote log].
    match goal with
    | |- context [serve ?rq s1] => destruct (serve rq s1) as [o2 s2]
    end. cbn [fst snd].
    destruct (put_reads o2) as [[ok r]|e]; [destruct ok|];
      new_events; cbn [app requests_of];
      (constructor; [apply pages_call_lookup|]);
      (constructor; [apply pages_call_put|constructor]).
  - destruct (negb (path_exists fs (pa_local_path ans)) || _).
    { new_events. cbn [requests_of]. constructor. }
    destruct (gather_files_for_folder fs (pa_local_path ans) None) as [|f0 files].
    { new_events. cbn [requests_of]. constructor. }
    rewrite bind_run.
    match goal with
    | |- context [pages_upload_each serve fs ?t ?o ?r ?pb ?m ?lf ?tb ?fl ?fa w0] =>
        destruct (pages_upload_each_calls serve t o r pb fs m lf tb fl fa w0)
          as (tr & Hl & Hc);
        destruct (pages_upload_each serve fs t o r pb m lf tb fl fa w0) as [[fails|e] w1]
    end; cbn [snd] in Hl; [|exists tr; split; [exact Hl|exact Hc]].
    rewrite bind_print, print_failures_run. unfold printed. cbn [snd log remote].
    rewrite Hl. eexists. split; [rewrite <- !app_assoc; reflexivity|].
    rewrite !requests_of_app, requests_of_failure_lines. cbn [requests_of].
    rewrite !app_nil_r. exact Hc.
Qed.

(** ** The folder uploads and the ignore set *)





(** With the default configuration, which ignores [.git], the per-file
    upload of the sample [.git] folder looks up and PUTs [config]. *)
Example per_file_upload_demo :
  calls_of (log (snd (op_upload_folder serve_tree fs_demo cfg_demo ans_git_each tree_world)))
  = [(contents_request "t" "o" "r" (JStr "pages/config") "main", Ret not_found);
     (put_request "t" "o" "r" (JStr "pages/config") (b64encode "cfg") "msg" "main" JNull,
      Ret not_found)].
Proof. vm_compute. reflexivity. Qed.
